(** * Kaury Pi Hub: file transfer, chat relay and host metrics

    A shallow embedding of the four server programs of the repository:
    - the hub ([unnamed/part_000]): express file API plus WebSocket relay;
    - the relay ([server.js], first program): static server plus relay;
    - the ES-module monitor ([server/index.js]): [/api/system-info];
    - the CommonJS monitor ([server.js], second program): the same
      endpoint, later revision.

    The strings of the socket servers are modelled by [string], one
    [ascii] for one code unit; the file API holds file names and header
    values as the UTF-8 bytes of the JavaScript string (see [Files]).
    Effects (socket sends, file writes) are recorded as a trace of
    requests issued by the handlers. *)

From Stdlib Require Import ZArith QArith Qround String Ascii List Lia.
From Stdlib Require Import DecimalString DecimalPos DecimalZ.
From stdpp Require Import gmap strings list fin_maps.

Local Open Scope string_scope.
Local Open Scope list_scope.
Local Open Scope nat_scope.

Set Warnings "-register-all".

(** ** JavaScript values, as [JSON.parse] produces them *)

Module JS.

(** [JUndefined] is not a JSON value but is what a missing property
    reads as; it can reach the message list through [payload.message]. *)
Inductive jsval : Type :=
| JUndefined
| JNull
| JBool (b : bool)
| JNum (q : Q)
| JStr (s : string)
| JArr (items : list jsval)
| JObj (props : list (string * jsval)).

(** Abrupt or normal completion of an expression. *)
Inductive completion (A : Type) : Type :=
| Normal (a : A)
| Throw (err : string).
Arguments Normal {A} a.
Arguments Throw {A} err.

Definition TypeError : string := "TypeError".

(** Own properties are kept in property order with unique keys. *)
Definition own_prop (k : string) (props : list (string * jsval)) : jsval :=
  match find (fun kv => String.eqb (fst kv) k) props with
  | Some kv => snd kv
  | None => JUndefined
  end.

(** [v.k] for the keys the handlers read ([type], [message]): no
    built-in prototype defines them, so primitives and arrays read as
    [undefined]; reading a property of [null] or [undefined] throws. *)
Definition get_field (v : jsval) (k : string) : completion jsval :=
  match v with
  | JUndefined | JNull => Throw TypeError
  | JObj props => Normal (own_prop k props)
  | _ => Normal JUndefined
  end.

(** [v === 'lit'] *)
Definition strict_eq_str (v : jsval) (lit : string) : bool :=
  match v with
  | JStr s => String.eqb s lit
  | _ => false
  end.

Definition decimal (n : nat) : string := NilZero.string_of_uint (Nat.to_uint n).

Definition index_keys {A} (f : A -> jsval) (xs : list A) : list (string * jsval) :=
  imap (fun i x => (decimal i, f x)) xs.

(** Own enumerable properties copied by object spread [{...v}]. *)
Definition spread (v : jsval) : list (string * jsval) :=
  match v with
  | JObj props => props
  | JArr items => index_keys (fun x => x) items
  | JStr s => index_keys (fun c => JStr (String c EmptyString)) (list_ascii_of_string s)
  | _ => []
  end.

(** Defining property [k] in an object literal: an existing key keeps
    its position and takes the new value, a new key goes last. *)
Fixpoint obj_set (k : string) (v : jsval) (props : list (string * jsval))
  : list (string * jsval) :=
  match props with
  | [] => [(k, v)]
  | (k', v') :: rest =>
      if String.eqb k' k then (k', v) :: rest else (k', v') :: obj_set k v rest
  end.

End JS.
Import JS.

(** ** Sockets and the effect trace *)

(** [readyState] of a [ws] socket. *)
Inductive ready_state : Type := CONNECTING | OPEN | CLOSING | CLOSED.

Definition ready_state_eqb (a b : ready_state) : bool :=
  match a, b with
  | CONNECTING, CONNECTING | OPEN, OPEN | CLOSING, CLOSING | CLOSED, CLOSED => true
  | _, _ => false
  end.

Record client : Type := { client_id : nat; readyState : ready_state }.

Definition MESSAGES_FILE : string := "messages.json".

(** [Send c v] is [c.send(JSON.stringify(v))]; [WriteFile p v] is
    [fs.writeFile(p, JSON.stringify(v, null, 2), ...)].  The value is
    serialised at the call, so the trace records the value itself. *)
Inductive effect : Type :=
| Send (to : nat) (frame : jsval)
| WriteFile (path : string) (contents : jsval).

Record outcome : Type := {
  messages_after : jsval;
  effects : list effect;
  thrown : option string
}.

Definition init_frame (messages : jsval) : jsval :=
  JObj [("type", JStr "init"); ("messages", messages)].
Definition message_frame (message : jsval) : jsval :=
  JObj [("type", JStr "message"); ("message", message)].
Definition clear_frame : jsval :=
  JObj [("type", JStr "clear")].

(** [saveMessages()] *)
Definition saveMessages (messages : jsval) : effect :=
  WriteFile MESSAGES_FILE messages.

(** [wss.clients.forEach(client => { if (client.readyState === client.OPEN) client.send(...) })] *)
Definition broadcast (clients : list client) (frame : jsval) : list effect :=
  map (fun c => Send (client_id c) frame)
      (filter (fun c => ready_state_eqb (readyState c) OPEN = true) clients).

Section Sockets.

(** [JSON.parse]: [None] when it throws a [SyntaxError]. *)
Variable JSON_parse : string -> option jsval.

(** Startup load of the message history (both socket servers). *)
Definition load_messages (file : option string) : jsval :=
  match file with
  | None => JArr []                       (* readFileSync throws *)
  | Some data =>
      match JSON_parse data with
      | Some v => v
      | None => JArr []                   (* JSON.parse throws *)
      end
  end.

(** Connection handler (both socket servers). *)
Definition on_connection (messages : jsval) (ws : nat) : list effect :=
  [Send ws (init_frame messages)].

(** *** The hub's message handler ([unnamed/part_000]) *)
Definition hub_on_message (messages : jsval) (clients : list client)
           (now_iso : string) (data : string) : outcome :=
  match JSON_parse data with
  | None => {| messages_after := messages; effects := []; thrown := None |}
  | Some payload =>
      match get_field payload "type" with
      | Throw e => {| messages_after := messages; effects := []; thrown := Some e |}
      | Normal ty =>
          if strict_eq_str ty "message" then
            match get_field payload "message" with
            | Throw e => {| messages_after := messages; effects := []; thrown := Some e |}
            | Normal pm =>
                let message := JObj (obj_set "timestamp" (JStr now_iso) (spread pm)) in
                match messages with
                | JArr old =>
                    let unshifted := message :: old in
                    let kept :=
                      if 1000 <? length unshifted then take 1000 unshifted else unshifted in
                    {| messages_after := JArr kept;
                       effects := saveMessages (JArr kept)
                                    :: broadcast clients (message_frame message);
                       thrown := None |}
                | _ => {| messages_after := messages; effects := [];
                          thrown := Some TypeError |}
                end
            end
          else if strict_eq_str ty "clear" then
            {| messages_after := JArr [];
               effects := saveMessages (JArr []) :: broadcast clients clear_frame;
               thrown := None |}
          else {| messages_after := messages; effects := []; thrown := None |}
      end
  end.

(** *** The relay's message handler ([server.js])

    The relay does not read the clock; [now_iso] is only there to give
    both handlers one signature. *)
Definition relay_on_message (messages : jsval) (clients : list client)
           (now_iso : string) (data : string) : outcome :=
  match JSON_parse data with
  | None => {| messages_after := messages; effects := []; thrown := None |}
  | Some payload =>
      match get_field payload "type" with
      | Throw e => {| messages_after := messages; effects := []; thrown := Some e |}
      | Normal ty =>
          if strict_eq_str ty "message" then
            match get_field payload "message" with
            | Throw e => {| messages_after := messages; effects := []; thrown := Some e |}
            | Normal message =>
                match messages with
                | JArr old =>
                    let unshifted := message :: old in
                    let kept :=
                      if 1000 <? length unshifted then removelast unshifted else unshifted in
                    {| messages_after := JArr kept;
                       effects := saveMessages (JArr kept)
                                    :: broadcast clients (message_frame message);
                       thrown := None |}
                | _ => {| messages_after := messages; effects := [];
                          thrown := Some TypeError |}
                end
            end
          else if strict_eq_str ty "clear" then
            {| messages_after := JArr [];
               effects := saveMessages (JArr []) :: broadcast clients clear_frame;
               thrown := None |}
          else {| messages_after := messages; effects := []; thrown := None |}
      end
  end.

(** *** The server as a whole: [wss.clients], the message list, the
    event loop.  One event is handled at a time. *)

Inductive event : Type :=
| Connect (ws : nat)                               (* 'connection' *)
| Frame (ws : nat) (now_iso : string) (data : string)   (* 'message' on ws *)
| StartClose (ws : nat)                            (* readyState := CLOSING *)
| Disconnect (ws : nat).                           (* removed from wss.clients *)

(** [srv_alive] is false once a handler has thrown: nothing catches the
    exception, so the process ends. *)
Record server : Type := {
  srv_messages : jsval;
  srv_clients : list client;
  srv_alive : bool
}.

Definition startup (file : option string) : server :=
  {| srv_messages := load_messages file; srv_clients := []; srv_alive := true |}.

Definition set_closing (ws : nat) (c : client) : client :=
  if Nat.eqb (client_id c) ws then {| client_id := ws; readyState := CLOSING |} else c.

Variable on_message : jsval -> list client -> string -> string -> outcome.

Definition step (s : server) (e : event) : server * list effect :=
  if negb (srv_alive s) then (s, []) else
  match e with
  | Connect ws =>
      (* the library adds the socket to wss.clients, then emits 'connection' *)
      ({| srv_messages := srv_messages s;
          srv_clients := srv_clients s ++ [{| client_id := ws; readyState := OPEN |}];
          srv_alive := true |},
       on_connection (srv_messages s) ws)
  | Frame ws now_iso data =>
      let o := on_message (srv_messages s) (srv_clients s) now_iso data in
      ({| srv_messages := messages_after o;
          srv_clients := srv_clients s;
          srv_alive := match thrown o with Some _ => false | None => true end |},
       effects o)
  | StartClose ws =>
      ({| srv_messages := srv_messages s;
          srv_clients := map (set_closing ws) (srv_clients s);
          srv_alive := true |}, [])
  | Disconnect ws =>
      ({| srv_messages := srv_messages s;
          srv_clients := filter (fun c => negb (Nat.eqb (client_id c) ws) = true) (srv_clients s);
          srv_alive := true |}, [])
  end.

(** Final state and chronological effect trace of a run. *)
Fixpoint run (s : server) (es : list event) : server * list effect :=
  match es with
  | [] => (s, [])
  | e :: rest =>
      let (s1, fx1) := step s e in
      let (s2, fx2) := run s1 rest in
      (s2, fx1 ++ fx2)
  end.

End Sockets.

(** Vocabulary for the statements about frames. *)

(** The frame parses and its payload has [type === lit]. *)
Definition frame_has_type (JSON_parse : string -> option jsval)
           (lit : string) (data : string) : bool :=
  match JSON_parse data with
  | Some payload =>
      match get_field payload "type" with
      | Normal ty => strict_eq_str ty lit
      | Throw _ => false
      end
  | None => false
  end.

(** [payload.message] of a frame that parses to an object. *)
Definition payload_message (JSON_parse : string -> option jsval) (data : string) : jsval :=
  match JSON_parse data with
  | Some (JObj props) => own_prop "message" props
  | _ => JUndefined
  end.

(** The message object the hub stores for a frame. *)
Definition hub_message (JSON_parse : string -> option jsval)
           (now_iso data : string) : jsval :=
  JObj (obj_set "timestamp" (JStr now_iso) (spread (payload_message JSON_parse data))).

(** The frames of an event sequence, in arrival order. *)
Fixpoint frames_of (es : list event) : list (string * string) :=
  match es with
  | [] => []
  | Frame _ now_iso data :: rest => (now_iso, data) :: frames_of rest
  | _ :: rest => frames_of rest
  end.

(** The message objects a run of frames puts on the hub's list and on the
    relay's, in arrival order. *)
Definition hub_sent (JSON_parse : string -> option jsval) (es : list event) : list jsval :=
  map (fun f => hub_message JSON_parse (fst f) (snd f)) (frames_of es).

Definition relay_sent (JSON_parse : string -> option jsval) (es : list event) : list jsval :=
  map (fun f => payload_message JSON_parse (snd f)) (frames_of es).

Definition empty_server (clients : list client) : server :=
  {| srv_messages := JArr []; srv_clients := clients; srv_alive := true |}.

(** A frame a handler relays to everybody. *)
Definition relayed_frame (frame : jsval) : Prop :=
  frame = clear_frame \/ exists message, frame = message_frame message.

Definition is_open (c : client) : Prop := readyState c = OPEN.

(** What a message handler may issue: nothing, or one save followed by
    one relayed frame to the open clients. *)
Definition relays_only (on_message : jsval -> list client -> string -> string -> outcome)
  : Prop :=
  forall messages clients now_iso data,
    effects (on_message messages clients now_iso data) = []
    \/ exists saved frame,
        relayed_frame frame
        /\ effects (on_message messages clients now_iso data)
           = saveMessages saved :: broadcast clients frame.

Definition sends_to (ws : nat) (fx : list effect) : list jsval :=
  omap (fun e => match e with
                 | Send to frame => if Nat.eqb to ws then Some frame else None
                 | WriteFile _ _ => None
                 end) fx.


(** ** The hub's file API ([unnamed/part_000]) *)

Module Files.

(** Template-literal rendering of an integer-valued number. *)
Definition number_to_string (z : Z) : string :=
  NilEmpty.string_of_int (Z.to_int z).

(** [\d] *)
Definition is_digit (c : ascii) : bool :=
  (48 <=? nat_of_ascii c) && (nat_of_ascii c <=? 57).

Definition is_hyphen (c : ascii) : bool := Ascii.eqb c "-"%char.

Fixpoint all_digits (s : string) : bool :=
  match s with
  | EmptyString => true
  | String c rest => is_digit c && all_digits rest
  end.

(** Matching [\d*-] greedily with backtracking at the current position:
    first try to take one more digit, and if the rest then fails, try the
    hyphen here.  Returns what follows the match. *)
Fixpoint more_digits_then_hyphen (s : string) : option string :=
  match s with
  | EmptyString => None
  | String c rest =>
      let hyphen_here := if is_hyphen c then Some rest else None in
      if is_digit c then
        match more_digits_then_hyphen rest with
        | Some after => Some after
        | None => hyphen_here
        end
      else hyphen_here
  end.

(** [filename.replace(/^\d+-/, '')]: the pattern is anchored and not
    global, so at most the one match at position 0 is removed. *)
Definition strip_timestamp (filename : string) : string :=
  match filename with
  | EmptyString => filename
  | String c rest =>
      if is_digit c then
        match more_digits_then_hyphen rest with
        | Some after => after
        | None => filename
        end
      else filename
  end.

(** File names, request parameters and header values are held in this
    module as the UTF-8 bytes of the JavaScript string: that is what the
    file system keeps, and the pattern above, which only looks at ASCII
    digits and the hyphen, reads the same on the bytes as on the string. *)

(** An entry of the uploads directory, by name.  The server only ever
    creates regular files; [Directory] stands for any entry [unlinkSync]
    refuses. *)
Inductive entry : Type :=
| RegularFile (content : list Byte.byte)
| Directory.

(** *** [path.join(UPLOADS_DIR, filename)] (POSIX)

    The request parameter arrives decoded, so it may hold slashes and
    dot segments.  [path.join] normalises it lexically. *)

Definition is_slash (c : ascii) : bool := Ascii.eqb c "/"%char.
Definition is_nul (c : ascii) : bool := Ascii.eqb c "000"%char.

Fixpoint has_nul (s : string) : bool :=
  match s with
  | EmptyString => false
  | String c rest => is_nul c || has_nul rest
  end.

Fixpoint has_slash (s : string) : bool :=
  match s with
  | EmptyString => false
  | String c rest => is_slash c || has_slash rest
  end.

Fixpoint ends_with_slash (s : string) : bool :=
  match s with
  | EmptyString => false
  | String c EmptyString => is_slash c
  | String _ rest => ends_with_slash rest
  end.

(** The segments between the slashes. *)
Fixpoint split_slash (s : string) : list string :=
  match s with
  | EmptyString => [EmptyString]
  | String c rest =>
      if is_slash c then EmptyString :: split_slash rest
      else match split_slash rest with
           | seg :: segs => String c seg :: segs
           | [] => [String c EmptyString]
           end
  end.

(** Walking the segments from the uploads directory; [stack] is the
    path below it, innermost first.  Empty and [.] segments are dropped,
    [..] goes up; [None] once the walk goes above the uploads directory. *)
Fixpoint walk (stack : list string) (segs : list string) : option (list string) :=
  match segs with
  | [] => Some stack
  | seg :: rest =>
      if String.eqb seg "" || String.eqb seg "." then walk stack rest
      else if String.eqb seg ".." then
        match stack with
        | [] => None
        | _ :: up => walk up rest
        end
      else walk (seg :: stack) rest
  end.

(** Where the joined path points. *)
Inductive target : Type :=
| Child (name : string) (trailing_slash : bool)   (* uploads/name, uploads/name/ *)
| UploadsDir                                      (* the directory itself *)
| Below (first : string)                          (* deeper, through uploads/first *)
| Above.                                          (* not under the uploads directory *)

Definition resolve (filename : string) : target :=
  match walk [] (split_slash filename) with
  | None => Above
  | Some [] => UploadsDir
  | Some [name] => Child name (ends_with_slash filename)
  | Some deep => Below (List.last deep EmptyString)
  end.

(** A name that is one path segment: what [readdirSync] returns and what
    a stored part is written under. *)
Definition is_plain (name : string) : bool :=
  negb (has_slash name) && negb (has_nul name)
  && negb (String.eqb name "") && negb (String.eqb name ".") && negb (String.eqb name "..").

(** *** [res.setHeader]

    Node refuses a header value with a code unit outside tab, 0x20-0x7e
    and 0x80-0xff.  On the UTF-8 bytes: a code unit from 0x80 to 0xff is
    the lead byte 0xc2 or 0xc3 and a continuation byte, a code unit above
    0xff shows as a lead byte from 0xc4 up. *)
Definition header_byte_ok (c : ascii) : bool :=
  let n := nat_of_ascii c in
  (n =? 9) || ((32 <=? n) && (n <=? 126)) || ((128 <=? n) && (n <=? 195)).

Fixpoint header_ok (value : string) : bool :=
  match value with
  | EmptyString => true
  | String c rest => header_byte_ok c && header_ok rest
  end.

(** A dot file for [res.sendFile], whose [dotfiles] option is left at
    [ignore].  The directory the server is installed in is taken to have
    no dot segment of its own. *)
Definition is_dotfile (name : string) : bool :=
  match name with
  | String "."%char (String _ _) => true
  | _ => false
  end.

(** One part of a multipart upload, with the clock value the storage
    engine reads when it names the part. *)
Record upload_part : Type := {
  originalname : string;          (* as the multipart parser decoded it (latin1) *)
  mimetype : string;
  content : list Byte.byte;
  named_at : Z                    (* Date.now() in the filename callback *)
}.

(** A file descriptor of the upload response. *)
Record descriptor : Type := {
  d_id : string;
  d_name : string;
  d_size : nat;
  d_type : string;
  d_uploadDate : string;
  d_filename : string;
  d_path : string
}.

Inductive response : Type :=
| SentFile (content_disposition : string) (body : list Byte.byte)   (* 200, sendFile *)
| HeaderRejected                  (* setHeader throws ERR_INVALID_CHAR: 500 *)
| Ignored                         (* sendFile ignores a dot file: 404 *)
| NextRoute (content_disposition : string)
                                  (* sendFile on a directory calls next(): the
                                     catch-all route answers, with dist/index.html
                                     or with 404 where there is none *)
| OutsideModel                    (* the path leaves the uploads directory or
                                     enters a directory of it: what is there
                                     is not part of this model *)
| NotFound                        (* 404 {error:'File not found'} *)
| Success                         (* 200 {success:true} *)
| ServerError.                    (* 500 {success:false, error} *)

Section Handlers.

(** [Buffer.from(s, 'latin1').toString('utf8')] *)
Variable latin1_as_utf8 : string -> string.

(** The multer [filename] callback. *)
Definition storage_filename (part : upload_part) : string :=
  let timestamp := named_at part in
  let originalName := latin1_as_utf8 (originalname part) in
  number_to_string timestamp +:+ "-" +:+ originalName.

(** Disk storage of one part, written to its end: [None] when the write
    stream cannot be opened, because the name is taken by a non-file or
    is not a single path segment (a NUL in it; the multipart parser
    leaves no slash in [originalname]).
    [store_parts] is parts written one after the other, each stream
    closed before the next part is named; the parts of a single request
    are written by streams that run together, see [Hub.upload]. *)
Definition store_part (fs : gmap string entry) (part : upload_part)
  : option (gmap string entry) :=
  if negb (is_plain (storage_filename part)) then None
  else
    match fs !! storage_filename part with
    | Some Directory => None
    | _ => Some (<[storage_filename part := RegularFile (content part)]> fs)
    end.

Fixpoint store_parts (fs : gmap string entry) (parts : list upload_part)
  : option (gmap string entry) :=
  match parts with
  | [] => Some fs
  | p :: rest =>
      match store_part fs p with
      | Some fs' => store_parts fs' rest
      | None => None
      end
  end.

(** The descriptor the POST /api/upload handler builds for a stored part;
    [now] is [Date.now()], [suffix] is [Math.random().toString(36).substr(2, 5)]
    and [iso] is [new Date().toISOString()], all read in the handler. *)
Definition describe (now : Z) (suffix iso : string) (part : upload_part) : descriptor :=
  {| d_id := number_to_string now +:+ suffix;
     d_name := latin1_as_utf8 (originalname part);
     d_size := length (content part);
     d_type := mimetype part;
     d_uploadDate := iso;
     d_filename := storage_filename part;
     d_path := "/api/download/" +:+ storage_filename part |}.

Definition content_disposition (originalName : string) : string :=
  "attachment; filename=" +:+ String "034"%char originalName +:+ String "034"%char "".

(** What [res.sendFile] does with an entry that exists, after the
    header is set. *)
Definition sendFile (name : string) (trailing_slash : bool) (header : string) (e : entry)
  : response :=
  if is_dotfile name then Ignored
  else match e with
       | RegularFile body => SentFile header body
       | Directory => if trailing_slash then OutsideModel else NextRoute header
       end.

(** GET /api/download/:filename.  [fs.existsSync] answers false for a
    path with a NUL byte and for [name/] when [name] is a regular file. *)
Definition download (fs : gmap string entry) (filename : string) : response :=
  let originalName := strip_timestamp filename in
  let header := content_disposition originalName in
  if has_nul filename then NotFound
  else
    match resolve filename with
    | Above => OutsideModel
    | Below first =>
        match fs !! first with
        | Some Directory => OutsideModel
        | _ => NotFound
        end
    | UploadsDir =>
        if negb (header_ok header) then HeaderRejected
        else if ends_with_slash filename then OutsideModel
        else NextRoute header
    | Child name trailing_slash =>
        match fs !! name with
        | None => NotFound
        | Some (RegularFile body) =>
            if trailing_slash then NotFound
            else if negb (header_ok header) then HeaderRejected
            else sendFile name false header (RegularFile body)
        | Some Directory =>
            if negb (header_ok header) then HeaderRejected
            else sendFile name trailing_slash header Directory
        end
    end.

(** [fs.unlinkSync] of an entry of the directory *)
Definition unlinkSync (fs : gmap string entry) (name : string)
  : completion (gmap string entry) :=
  match fs !! name with
  | Some (RegularFile _) => Normal (delete name fs)
  | Some Directory => Throw "EISDIR"
  | None => Throw "ENOENT"
  end.

(** DELETE /api/files/:filename.  [None]: the path leaves the uploads
    directory or enters a directory of it, and what the handler finds
    and unlinks there is not part of this model. *)
Definition delete_file (fs : gmap string entry) (filename : string)
  : option (gmap string entry * response) :=
  if has_nul filename then Some (fs, Success)
  else
    match resolve filename with
    | Above => None
    | Below first =>
        match fs !! first with
        | Some Directory => None
        | _ => Some (fs, Success)
        end
    | UploadsDir => Some (fs, ServerError)
    | Child name trailing_slash =>
        match fs !! name with
        | None => Some (fs, Success)
        | Some (RegularFile _) =>
            if trailing_slash then Some (fs, Success)
            else match unlinkSync fs name with
                 | Normal fs' => Some (fs', Success)
                 | Throw _ => Some (fs, ServerError)
                 end
        | Some Directory => Some (fs, ServerError)
        end
    end.

End Handlers.

End Files.

(** ** Host metrics: the two [/api/system-info] servers *)

(** What the monitors need from the JavaScript runtime.  Doubles are kept
    abstract: nothing below depends on how they round. *)
Class JsRuntime (num : Type) : Type := {
  lit : Q -> num;                       (* a numeric literal *)
  add : num -> num -> num;
  mul : num -> num -> num;
  div : num -> num -> num;
  rem : num -> num -> num;              (* % *)
  Math_round : num -> num;
  Math_floor : num -> num;
  truthy : num -> bool;                 (* false for 0 and NaN *)
  gt : num -> num -> bool;
  to_string : num -> string;            (* template literal *)
  parseInt : string -> num;
  trim : string -> string
}.

Module Monitor.

Definition bind {A B} (c : completion A) (k : A -> completion B) : completion B :=
  match c with
  | Normal a => k a
  | Throw e => Throw e
  end.

(** [try { c } catch (error) { h }] *)
Definition try_catch {A} (c : completion A) (h : string -> completion A) : completion A :=
  match c with
  | Normal a => Normal a
  | Throw e => h e
  end.

(** [const x = await c; k] where [c] may reject *)
Notation "'await' x ':=' c 'in' k" := (bind c (fun x => k))
  (at level 10, x name, c at level 100, k at level 200).

Definition CACHE_DURATION : Z := 2000.

Section Shared.

Context {num : Type} `{JsRuntime num}.

(** [a || b] on numbers *)
Definition or_else (a b : num) : num := if truthy a then a else b.

(** [Math.round(x * 10) / 10] *)
Definition round1 (x : num) : num := div (Math_round (mul x (lit 10))) (lit 10).

Record payload : Type := {
  ipAddress : string;
  cpuUsage : num;
  memoryUsage : num;
  diskUsage : num;
  temperature : num;
  uptime : string;
  timestamp : Z;
  error : option string                 (* [None]: the key is absent *)
}.

(** The module-level variables [systemInfoCache] and [lastUpdate]. *)
Record cache : Type := {
  systemInfoCache : option payload;     (* [None]: null *)
  lastUpdate : Z
}.

Definition initial_cache : cache := {| systemInfoCache := None; lastUpdate := 0 |}.

Record mem_info : Type := { mem_used : num; mem_total : num }.
Record disk_info : Type := { mount : string; disk_used : num; disk_size : num }.

Definition formatUptime (seconds : num) : string :=
  let days := Math_floor (div seconds (lit 86400)) in
  let hours := Math_floor (div (rem seconds (lit 86400)) (lit 3600)) in
  let minutes := Math_floor (div (rem seconds (lit 3600)) (lit 60)) in
  let result := "" in
  let result := if gt days (lit 0) then result +:+ to_string days +:+ "d " else result in
  let result := if gt hours (lit 0) then result +:+ to_string hours +:+ "h " else result in
  let result := result +:+ to_string minutes +:+ "m" in
  trim result.

(** The HTTP answer of GET /api/system-info. *)
Inductive http_response : Type :=
| Json200 (body : payload)            (* res.json(systemInfo) *)
| Json500.                            (* res.status(500).json({error: ...}) *)

(** *** The ES-module monitor ([server/index.js]) *)

Record iface : Type := { iface_internal : bool; ip4 : string; operstate : string }.

(** What one call observes of the host.  [Throw] is a rejected promise
    or a thrown exception; the [fb_] field is read in the catch block. *)
Record esm_env : Type := {
  esm_now : Z;                                        (* Date.now() *)
  esm_currentLoad : completion num;                   (* (await si.currentLoad()).currentLoad *)
  esm_mem : completion mem_info;                      (* si.mem() *)
  esm_fsSize : completion (list disk_info);           (* si.fsSize() *)
  esm_time : completion num;                          (* (await si.time()).uptime *)
  esm_networkInterfaces : completion (list iface);    (* si.networkInterfaces() *)
  esm_fb_networkInterfaces : completion (list iface);
  esm_thermal_exists : bool;                          (* fs.existsSync(thermal zone) *)
  esm_thermal_read : completion string;               (* fs.readFileSync(thermal zone) *)
  esm_cpuTemperature : completion (option num);       (* (await si.cpuTemperature()).main *)
  esm_random_temp : num;                              (* Math.random() draws, by use *)
  esm_random_cpu : num;
  esm_random_mem : num;
  esm_random_disk : num;
  esm_random_fb_temp : num
}.

Definition esm_getLocalIP (networkInterfaces : completion (list iface)) : string :=
  match networkInterfaces with
  | Normal ifaces =>
      match find (fun i => negb (iface_internal i)
                             && negb (String.eqb (ip4 i) "")
                             && String.eqb (operstate i) "up") ifaces with
      | Some activeInterface => ip4 activeInterface
      | None => "127.0.0.1"
      end
  | Throw _ => "127.0.0.1"
  end.

Definition esm_getCPUTemperature (env : esm_env) : num :=
  let attempt :=
    if esm_thermal_exists env then
      await tempData := esm_thermal_read env in
      Normal (div (parseInt tempData) (lit 1000))
    else
      await main := esm_cpuTemperature env in
      Normal (match main with Some t => or_else t (lit 0) | None => lit 0 end) in
  match attempt with
  | Normal t => t
  | Throw _ => add (lit 45) (mul (esm_random_temp env) (lit 15))
  end.

(** The try block after a cache miss.  [Promise.all] rejects as soon as
    one of its promises does; which one is only logged. *)
Definition esm_fresh (env : esm_env) : completion payload :=
  await cpu := esm_currentLoad env in
  await mem := esm_mem env in
  await disk := esm_fsSize env in
  await uptime := esm_time env in
  let ipAddress := esm_getLocalIP (esm_networkInterfaces env) in
  let temperature := esm_getCPUTemperature env in
  let cpuUsage := or_else cpu (lit 0) in
  let memoryUsage := or_else (mul (div (mem_used mem) (mem_total mem)) (lit 100)) (lit 0) in
  let rootDisk :=
    match find (fun d => String.eqb (mount d) "/") disk with
    | Some d => Some d
    | None => head disk
    end in
  let diskUsage :=
    match rootDisk with
    | Some d => mul (div (disk_used d) (disk_size d)) (lit 100)
    | None => lit 0
    end in
  let formattedUptime := formatUptime uptime in
  Normal {| ipAddress := ipAddress;
            cpuUsage := round1 cpuUsage;
            memoryUsage := round1 memoryUsage;
            diskUsage := round1 diskUsage;
            temperature := round1 temperature;
            uptime := formattedUptime;
            timestamp := esm_now env;
            error := None |}.

Definition esm_fallback (env : esm_env) : payload :=
  {| ipAddress := esm_getLocalIP (esm_fb_networkInterfaces env);
     cpuUsage := mul (esm_random_cpu env) (lit 100);
     memoryUsage := add (lit 35) (mul (esm_random_mem env) (lit 20));
     diskUsage := add (lit 42) (mul (esm_random_disk env) (lit 10));
     temperature := add (lit 45) (mul (esm_random_fb_temp env) (lit 15));
     uptime := "0d 0h 0m";
     timestamp := esm_now env;
     error := Some "Could not fetch real system data" |}.

(** Cache test shared by both monitors:
    [systemInfoCache && (now - lastUpdate) < CACHE_DURATION] *)
Definition cached (c : cache) (now : Z) : option payload :=
  match systemInfoCache c with
  | Some p => if (now - lastUpdate c <? CACHE_DURATION)%Z then Some p else None
  | None => None
  end.

(** A call that missed the cache, at the moment it stops awaiting: it
    stores and returns the fresh payload, or returns the fallback without
    storing it.  [c] is the cache as it is at that moment. *)
Definition esm_settle (c : cache) (env : esm_env) : completion payload * cache :=
  match esm_fresh env with
  | Normal p =>
      (Normal p, {| systemInfoCache := Some p; lastUpdate := esm_now env |})
  | Throw _ =>
      (Normal (esm_fallback env), c)
  end.

(** [getSystemInfo] for a call that runs to its answer before any other
    call starts.  Calls that overlap are in [Interleaved] below. *)
Definition esm_getSystemInfo (c : cache) (env : esm_env) : completion payload * cache :=
  let now := esm_now env in
  match cached c now with
  | Some p => (Normal p, c)
  | None => esm_settle c env
  end.

(** *** The CommonJS monitor ([server.js]) *)

Record net_address : Type := { family : string; net_internal : bool; address : string }.

Record cjs_env : Type := {
  cjs_now : Z;
  cjs_currentLoad : completion num;
  cjs_mem : completion mem_info;
  cjs_fsSize : completion (list disk_info);
  cjs_uptime : completion num;                            (* os.uptime() *)
  cjs_fb_uptime : completion num;                         (* again, in the catch block *)
  cjs_networkInterfaces : completion (list (string * list net_address));  (* os.networkInterfaces() *)
  cjs_fb_networkInterfaces : completion (list (string * list net_address));
  cjs_thermal_exists : bool;
  cjs_thermal_read : completion string;
  cjs_cpuTemperature : completion (option num);
  cjs_temp_currentLoad : completion num;                  (* the load read by getCPUTemperature *)
  cjs_random_temp : num;
  cjs_random_cpu : num;
  cjs_random_mem : num;
  cjs_random_disk : num;
  cjs_random_fb_temp : num
}.

Definition cjs_getLocalIP (networkInterfaces : completion (list (string * list net_address)))
  : string :=
  match networkInterfaces with
  | Normal by_name =>
      match find (fun net => String.eqb (family net) "IPv4" && negb (net_internal net))
                 (concat (map snd by_name)) with
      | Some net => address net
      | None => "127.0.0.1"
      end
  | Throw _ => "127.0.0.1"
  end.

Definition cjs_getCPUTemperature (env : cjs_env) : num :=
  let attempt :=
    if cjs_thermal_exists env then
      await tempData := cjs_thermal_read env in
      Normal (div (parseInt (trim tempData)) (lit 1000))
    else
      await main := cjs_cpuTemperature env in
      match main with
      | Some t =>
          if truthy t && gt t (lit 0) then Normal t
          else await load := cjs_temp_currentLoad env in
               Normal (add (lit 35) (mul load (lit (4 # 10))))
      | None =>
          await load := cjs_temp_currentLoad env in
          Normal (add (lit 35) (mul load (lit (4 # 10))))
      end in
  match attempt with
  | Normal t => t
  | Throw _ => add (lit 45) (mul (cjs_random_temp env) (lit 15))
  end.

Definition cjs_fresh (env : cjs_env) : completion payload :=
  await cpu := cjs_currentLoad env in
  await mem := cjs_mem env in
  await disk := cjs_fsSize env in
  await uptime := cjs_uptime env in
  let ipAddress := cjs_getLocalIP (cjs_networkInterfaces env) in
  let temperature := cjs_getCPUTemperature env in
  let cpuUsage := or_else cpu (lit 0) in
  let memoryUsage :=
    if gt (mem_total mem) (lit 0)
    then mul (div (mem_used mem) (mem_total mem)) (lit 100) else lit 0 in
  let diskUsage :=
    match disk with
    | [] => lit 0
    | first :: _ =>
        let mainDisk :=
          match find (fun d => String.eqb (mount d) "/" || String.eqb (mount d) "C:") disk with
          | Some d => d
          | None => first
          end in
        if gt (disk_size mainDisk) (lit 0)
        then mul (div (disk_used mainDisk) (disk_size mainDisk)) (lit 100) else lit 0
    end in
  let formattedUptime := formatUptime uptime in
  Normal {| ipAddress := ipAddress;
            cpuUsage := round1 cpuUsage;
            memoryUsage := round1 memoryUsage;
            diskUsage := round1 diskUsage;
            temperature := round1 temperature;
            uptime := formattedUptime;
            timestamp := cjs_now env;
            error := None |}.

(** The object literal of the catch block; [os.uptime()] is called in it
    unguarded, so building it can throw. *)
Definition cjs_fallback (env : cjs_env) : completion payload :=
  let ipAddress := cjs_getLocalIP (cjs_fb_networkInterfaces env) in
  let cpuUsage := round1 (add (mul (cjs_random_cpu env) (lit 50)) (lit 10)) in
  let memoryUsage := round1 (add (lit 35) (mul (cjs_random_mem env) (lit 20))) in
  let diskUsage := round1 (add (lit 42) (mul (cjs_random_disk env) (lit 10))) in
  let temperature := round1 (add (lit 45) (mul (cjs_random_fb_temp env) (lit 15))) in
  await seconds := cjs_fb_uptime env in
  Normal {| ipAddress := ipAddress;
            cpuUsage := cpuUsage;
            memoryUsage := memoryUsage;
            diskUsage := diskUsage;
            temperature := temperature;
            uptime := formatUptime seconds;
            timestamp := cjs_now env;
            error := Some "Using simulated data - some system metrics unavailable" |}.

(** A call that missed the cache, at the moment it stops awaiting: it
    stores and returns the fresh payload or the fallback; when the catch
    block throws, nothing is stored and the call rejects.  [c] is the
    cache as it is at that moment. *)
Definition cjs_settle (c : cache) (env : cjs_env) : completion payload * cache :=
  match cjs_fresh env with
  | Normal p =>
      (Normal p, {| systemInfoCache := Some p; lastUpdate := cjs_now env |})
  | Throw _ =>
      match cjs_fallback env with
      | Normal fallbackData =>
          (Normal fallbackData,
           {| systemInfoCache := Some fallbackData; lastUpdate := cjs_now env |})
      | Throw e => (Throw e, c)
      end
  end.

(** [getSystemInfo] for a call that runs to its answer before any other
    call starts.  Calls that overlap are in [Interleaved] below. *)
Definition cjs_getSystemInfo (c : cache) (env : cjs_env) : completion payload * cache :=
  let now := cjs_now env in
  match cached c now with
  | Some p => (Normal p, c)
  | None => cjs_settle c env
  end.

(** *** GET /api/system-info (both monitors) *)

Definition respond (r : completion payload * cache) : http_response * cache :=
  match fst r with
  | Normal systemInfo => (Json200 systemInfo, snd r)
  | Throw _ => (Json500, snd r)
  end.

Definition esm_system_info (c : cache) (env : esm_env) : http_response * cache :=
  respond (esm_getSystemInfo c env).

Definition cjs_system_info (c : cache) (env : cjs_env) : http_response * cache :=
  respond (cjs_getSystemInfo c env).

(** One of the metric queries of the try block fails. *)
Definition esm_queries_throw (env : esm_env) : Prop :=
  (exists e, esm_currentLoad env = Throw e) \/ (exists e, esm_mem env = Throw e)
  \/ (exists e, esm_fsSize env = Throw e) \/ (exists e, esm_time env = Throw e).

Definition cjs_queries_throw (env : cjs_env) : Prop :=
  (exists e, cjs_currentLoad env = Throw e) \/ (exists e, cjs_mem env = Throw e)
  \/ (exists e, cjs_fsSize env = Throw e) \/ (exists e, cjs_uptime env = Throw e).

(** *** Requests that overlap

    Between the cache test and the store a call awaits the host, and
    other calls are handled meanwhile.  A call is answered at once from
    the cache, or it goes in flight and is answered when it completes. *)

Inductive moment (env_t : Type) : Type :=
| Arrives (id : nat) (env : env_t)      (* the handler starts: clock read, cache tested *)
| Completes (id : nat).                 (* the awaits are over: store and answer *)
Arguments Arrives {env_t} id env.
Arguments Completes {env_t} id.

Record monitor (env_t : Type) : Type := {
  mon_cache : cache;
  mon_in_flight : list (nat * env_t)
}.
Arguments mon_cache {env_t} m.
Arguments mon_in_flight {env_t} m.

Definition answer (r : completion payload) : http_response :=
  match r with
  | Normal systemInfo => Json200 systemInfo
  | Throw _ => Json500
  end.

Section Interleaved.

Variable env_t : Type.
Variable now_of : env_t -> Z.
Variable settle : cache -> env_t -> completion payload * cache.

Definition moment_step (m : monitor env_t) (e : moment env_t)
  : monitor env_t * list (nat * http_response) :=
  match e with
  | Arrives id env =>
      match cached (mon_cache m) (now_of env) with
      | Some p => (m, [(id, Json200 p)])
      | None =>
          ({| mon_cache := mon_cache m;
              mon_in_flight := mon_in_flight m ++ [(id, env)] |}, [])
      end
  | Completes id =>
      match find (fun call => Nat.eqb (fst call) id) (mon_in_flight m) with
      | Some call =>
          let r := settle (mon_cache m) (snd call) in
          ({| mon_cache := snd r;
              mon_in_flight :=
                List.filter (fun call => negb (Nat.eqb (fst call) id)) (mon_in_flight m) |},
           [(id, answer (fst r))])
      | None => (m, [])
      end
  end.

(** The answers given along a sequence of moments, in order. *)
Fixpoint interleave (m : monitor env_t) (es : list (moment env_t))
  : monitor env_t * list (nat * http_response) :=
  match es with
  | [] => (m, [])
  | e :: rest =>
      let (m1, out1) := moment_step m e in
      let (m2, out2) := interleave m1 rest in
      (m2, out1 ++ out2)
  end.

Definition is_arrival (e : moment env_t) : Prop :=
  match e with
  | Arrives _ _ => True
  | Completes _ => False
  end.

End Interleaved.

Definition esm_interleave := interleave esm_env esm_now esm_settle.
Definition cjs_interleave := interleave cjs_env cjs_now cjs_settle.

Definition started : forall env_t : Type, monitor env_t :=
  fun env_t => {| mon_cache := initial_cache; mon_in_flight := [] |}.

(** Successive requests, one after the other. *)
Fixpoint esm_serve (c : cache) (envs : list esm_env) : list http_response :=
  match envs with
  | [] => []
  | env :: rest => let (r, c') := esm_system_info c env in r :: esm_serve c' rest
  end.

Fixpoint cjs_serve (c : cache) (envs : list cjs_env) : list http_response :=
  match envs with
  | [] => []
  | env :: rest => let (r, c') := cjs_system_info c env in r :: cjs_serve c' rest
  end.

End Shared.

Arguments payload num : clear implicits.
Arguments cache num : clear implicits.
Arguments mem_info num : clear implicits.
Arguments disk_info num : clear implicits.
Arguments http_response num : clear implicits.
Arguments esm_env num : clear implicits.
Arguments cjs_env num : clear implicits.
Arguments Arrives {env_t} id env.
Arguments Completes {env_t} id.
Arguments mon_cache {num env_t} m.
Arguments mon_in_flight {num env_t} m.

End Monitor.

(** ** A runtime to run the monitors on: rationals for doubles

    Exact on the finite values used in the examples below; it has no NaN
    or infinities, so a division by zero gives 0 here. *)

Module RationalRuntime.

Definition is_space (c : ascii) : bool :=
  match nat_of_ascii c with
  | 9 | 10 | 11 | 12 | 13 | 32 => true
  | _ => false
  end.

Fixpoint trim_start (s : string) : string :=
  match s with
  | String c rest => if is_space c then trim_start rest else s
  | EmptyString => s
  end.

Definition reverse_string (s : string) : string :=
  string_of_list_ascii (rev (list_ascii_of_string s)).

Definition trim_both (s : string) : string :=
  reverse_string (trim_start (reverse_string (trim_start s))).

Definition truncate (q : Q) : Z := Z.quot (Qnum q) (Z.pos (Qden q)).

Definition parse_int (s : string) : Q :=
  match NilEmpty.int_of_string s with
  | Some d => inject_Z (Z.of_int d)
  | None => 0
  end.

#[global] Instance rational_runtime : JsRuntime Q := {|
  lit := fun q => q;
  add := Qplus;
  mul := Qmult;
  div := Qdiv;
  rem := fun a b => Qred (a - b * inject_Z (truncate (a / b)));
  Math_round := fun x => inject_Z (Qfloor (x + (1 # 2)));
  Math_floor := fun x => inject_Z (Qfloor x);
  truthy := fun x => negb (Qeq_bool x 0);
  gt := fun a b => negb (Qle_bool a b);
  to_string := fun x => Files.number_to_string (Qfloor x);
  parseInt := parse_int;
  trim := trim_both
|}.

End RationalRuntime.

(** ** Sample data for concrete runs *)

Module Sample.

Definition quoted (s : string) : string :=
  String "034"%char (s +:+ String "034"%char "").

(** [{"type":"message","message":{"id":"1","text":"hi"}}] *)
Definition message_text : string :=
  "{" +:+ quoted "type" +:+ ":" +:+ quoted "message" +:+ ","
      +:+ quoted "message" +:+ ":{" +:+ quoted "id" +:+ ":" +:+ quoted "1" +:+ ","
      +:+ quoted "text" +:+ ":" +:+ quoted "hi" +:+ "}}".

Definition message_value : jsval :=
  JObj [("type", JStr "message");
        ("message", JObj [("id", JStr "1"); ("text", JStr "hi")])].

(** [{"type":"clear"}] *)
Definition clear_text : string :=
  "{" +:+ quoted "type" +:+ ":" +:+ quoted "clear" +:+ "}".

(** [{"type":"ping"}] *)
Definition ping_text : string :=
  "{" +:+ quoted "type" +:+ ":" +:+ quoted "ping" +:+ "}".

(** [JSON.parse] restricted to the sample texts; everything else is
    rejected, as a text such as [not json] is. *)
Definition parse (s : string) : option jsval :=
  if String.eqb s message_text then Some message_value
  else if String.eqb s clear_text then Some clear_frame
  else if String.eqb s ping_text then Some (JObj [("type", JStr "ping")])
  else if String.eqb s "null" then Some JNull
  else if String.eqb s "[]" then Some (JArr [])
  else None.

Definition iso : string := "2024-01-01T00:00:00.000Z".

(** 1001 message frames from socket 1. *)
Definition burst : list event := repeat (Frame 1 iso message_text) 1001.

Definition two_clients : list client :=
  [{| client_id := 1; readyState := OPEN |};
   {| client_id := 2; readyState := CLOSING |}].

(** A host seen at time [now]; with [healthy = false] its load query
    fails. *)
Definition esm_host (now : Z) (healthy : bool) : Monitor.esm_env Q :=
  {| Monitor.esm_now := now;
     Monitor.esm_currentLoad := if healthy then Normal (25 # 1) else Throw "EIO";
     Monitor.esm_mem := Normal {| Monitor.mem_used := 1 # 1; Monitor.mem_total := 4 # 1 |};
     Monitor.esm_fsSize :=
       Normal [{| Monitor.mount := "/"; Monitor.disk_used := 1 # 1;
                  Monitor.disk_size := 2 # 1 |}];
     Monitor.esm_time := Normal (93784 # 1);
     Monitor.esm_networkInterfaces :=
       Normal [{| Monitor.iface_internal := false; Monitor.ip4 := "192.168.1.20";
                  Monitor.operstate := "up" |}];
     Monitor.esm_fb_networkInterfaces := Throw "EIO";
     Monitor.esm_thermal_exists := false;
     Monitor.esm_thermal_read := Throw "ENOENT";
     Monitor.esm_cpuTemperature := Normal (Some (50 # 1));
     Monitor.esm_random_temp := 1 # 2;
     Monitor.esm_random_cpu := 1 # 4;
     Monitor.esm_random_mem := 1 # 2;
     Monitor.esm_random_disk := 1 # 2;
     Monitor.esm_random_fb_temp := 1 # 3 |}.

Definition cjs_host (now : Z) (healthy : bool) : Monitor.cjs_env Q :=
  {| Monitor.cjs_now := now;
     Monitor.cjs_currentLoad := if healthy then Normal (25 # 1) else Throw "EIO";
     Monitor.cjs_mem := Normal {| Monitor.mem_used := 1 # 1; Monitor.mem_total := 4 # 1 |};
     Monitor.cjs_fsSize :=
       Normal [{| Monitor.mount := "/"; Monitor.disk_used := 1 # 1;
                  Monitor.disk_size := 2 # 1 |}];
     Monitor.cjs_uptime := Normal (93784 # 1);
     Monitor.cjs_fb_uptime := Normal (93784 # 1);
     Monitor.cjs_networkInterfaces :=
       Normal [("lo", [{| Monitor.family := "IPv4"; Monitor.net_internal := true;
                          Monitor.address := "127.0.0.1" |}]);
               ("eth0", [{| Monitor.family := "IPv6"; Monitor.net_internal := false;
                            Monitor.address := "fe80::1" |};
                         {| Monitor.family := "IPv4"; Monitor.net_internal := false;
                            Monitor.address := "192.168.1.20" |}])];
     Monitor.cjs_fb_networkInterfaces := Normal [];
     Monitor.cjs_thermal_exists := false;
     Monitor.cjs_thermal_read := Throw "ENOENT";
     Monitor.cjs_cpuTemperature := Normal None;
     Monitor.cjs_temp_currentLoad := Normal (25 # 1);
     Monitor.cjs_random_temp := 1 # 2;
     Monitor.cjs_random_cpu := 1 # 4;
     Monitor.cjs_random_mem := 1 # 2;
     Monitor.cjs_random_disk := 1 # 2;
     Monitor.cjs_random_fb_temp := 1 # 3 |}.

(** No re-decoding: what an ASCII name goes through unchanged. *)
Definition ascii_name (s : string) : string := s.

(** The bytes of a name sent in UTF-8 are read as latin1 by the parser
    and decoded back as UTF-8 by the server: on the bytes, nothing
    changes. *)
Definition utf8_name (s : string) : string := s.

(** The UTF-8 bytes of the name 日本.txt *)
Definition nihon_txt : string :=
  string_of_list_ascii (map ascii_of_nat [230; 151; 165; 230; 156; 172]) +:+ ".txt".

(** A host of the CommonJS monitor on which [os.uptime()] throws, as it
    does where the system call behind it is refused. *)
Definition cjs_host_without_uptime (now : Z) : Monitor.cjs_env Q :=
  {| Monitor.cjs_now := now;
     Monitor.cjs_currentLoad := Normal (25 # 1);
     Monitor.cjs_mem := Normal {| Monitor.mem_used := 1 # 1; Monitor.mem_total := 4 # 1 |};
     Monitor.cjs_fsSize := Normal [];
     Monitor.cjs_uptime := Throw "ERR_SYSTEM_ERROR";
     Monitor.cjs_fb_uptime := Throw "ERR_SYSTEM_ERROR";
     Monitor.cjs_networkInterfaces := Normal [];
     Monitor.cjs_fb_networkInterfaces := Normal [];
     Monitor.cjs_thermal_exists := false;
     Monitor.cjs_thermal_read := Throw "ENOENT";
     Monitor.cjs_cpuTemperature := Normal None;
     Monitor.cjs_temp_currentLoad := Normal (25 # 1);
     Monitor.cjs_random_temp := 1 # 2;
     Monitor.cjs_random_cpu := 1 # 4;
     Monitor.cjs_random_mem := 1 # 2;
     Monitor.cjs_random_disk := 1 # 2;
     Monitor.cjs_random_fb_temp := 1 # 3 |}.

(** The same for the ES-module monitor: [si.time()] rejects. *)
Definition esm_host_without_uptime (now : Z) : Monitor.esm_env Q :=
  {| Monitor.esm_now := now;
     Monitor.esm_currentLoad := Normal (25 # 1);
     Monitor.esm_mem := Normal {| Monitor.mem_used := 1 # 1; Monitor.mem_total := 4 # 1 |};
     Monitor.esm_fsSize := Normal [];
     Monitor.esm_time := Throw "ERR_SYSTEM_ERROR";
     Monitor.esm_networkInterfaces := Normal [];
     Monitor.esm_fb_networkInterfaces := Normal [];
     Monitor.esm_thermal_exists := false;
     Monitor.esm_thermal_read := Throw "ENOENT";
     Monitor.esm_cpuTemperature := Normal None;
     Monitor.esm_random_temp := 1 # 2;
     Monitor.esm_random_cpu := 1 # 4;
     Monitor.esm_random_mem := 1 # 2;
     Monitor.esm_random_disk := 1 # 2;
     Monitor.esm_random_fb_temp := 1 # 3 |}.

(** A messages file of one letter, for a restart: [H] stands for the
    list holding the sample message as the hub stores it. *)
Definition history_text (v : jsval) : string := "H".

Definition history_parse (s : string) : option jsval :=
  if String.eqb s "H"
  then Some (JArr [JObj [("id", JStr "1"); ("text", JStr "hi"); ("timestamp", JStr iso)]])
  else parse s.

Definition bytes_hi : list Byte.byte := [Byte.x68; Byte.x69].
Definition bytes_yo : list Byte.byte := [Byte.x79; Byte.x6f].

Definition part (name : string) (body : list Byte.byte) (at_ms : Z) : Files.upload_part :=
  {| Files.originalname := name; Files.mimetype := "text/plain";
     Files.content := body; Files.named_at := at_ms |}.

(** A wire format for the frames of the small runs below: one letter per
    frame, read back by [wire_parse]. *)
Definition wire_text (frame : jsval) : string :=
  match frame with
  | JObj (("type", JStr "init") :: _) => "i"
  | JObj (("type", JStr "message") :: _) => "M"
  | JObj (("type", JStr "clear") :: _) => "c"
  | _ => "?"
  end.

Definition wire_parse (s : string) : option jsval :=
  if String.eqb s "i" then Some (init_frame (JArr []))
  else if String.eqb s "M"
       then Some (message_frame
                    (JObj [("id", JStr "1"); ("text", JStr "hi"); ("timestamp", JStr iso)]))
  else if String.eqb s "c" then Some clear_frame
  else parse s.

End Sample.

(** ** More of the hub's file API, the persisted history, the chat client
    and runs of the monitors *)

Module Hub.

(** An element of the array GET /api/files answers with. *)
Record listed_file : Type := {
  l_id : string;
  l_name : string;
  l_size : nat;
  l_uploadDate : string;
  l_filename : string;
  l_path : string
}.

(** One upload as the POST /api/upload handler sees it: the stored part
    and the clock and random readings it takes for the descriptor. *)
Record described_part : Type := {
  dp_part : Files.upload_part;
  dp_now : Z;                 (* Date.now() *)
  dp_suffix : string;         (* Math.random().toString(36).substr(2, 5) *)
  dp_iso : string             (* new Date().toISOString() *)
}.

Section Api.

Variable latin1_as_utf8 : string -> string.

(** [fs.statSync(filePath)]: the modification time, by name, and the
    size the system reports for a directory. *)
Variable mtime_iso : string -> string.
Variable directory_size : nat.

Definition stat_size (e : Files.entry) : nat :=
  match e with
  | Files.RegularFile body => length body
  | Files.Directory => directory_size
  end.

Definition list_item (named : string * Files.entry) : listed_file :=
  let filename := fst named in
  let originalName := Files.strip_timestamp filename in
  {| l_id := filename;
     l_name := originalName;
     l_size := stat_size (snd named);
     l_uploadDate := mtime_iso filename;
     l_filename := filename;
     l_path := "/api/download/" +:+ filename |}.

(** GET /api/files: one element per directory entry, in the order
    [readdirSync] gives them. *)
Definition list_files (fs : gmap string Files.entry) : list listed_file :=
  map list_item (map_to_list fs).

(** What is left under a name that several parts of one request were
    written to: their streams run together on one path, and which bytes
    end up there is not decided by the program. *)
Variable raced : string -> list Byte.byte.

Definition written_by (name : string) (parts : list Files.upload_part) : nat :=
  length (List.filter (fun p => String.eqb (Files.storage_filename latin1_as_utf8 p) name)
                      parts).

(** The storage engine on the parts of one request.  [None]: a write
    stream cannot be opened (the name is taken by a directory, or it is
    not a single path segment, which the multipart parser rules out). *)
Fixpoint write_request (request : list Files.upload_part)
         (fs : gmap string Files.entry) (parts : list Files.upload_part)
  : option (gmap string Files.entry) :=
  match parts with
  | [] => Some fs
  | p :: rest =>
      let name := Files.storage_filename latin1_as_utf8 p in
      if negb (Files.is_plain name) then None
      else
        match fs !! name with
        | Some Files.Directory => None
        | _ =>
            let left := if 1 <? written_by name request then raced name
                        else Files.content p in
            write_request request (<[name := Files.RegularFile left]> fs) rest
        end
  end.

(** POST /api/upload: the storage engine writes every part, then the
    handler describes them.  [None]: a part could not be written and the
    handler is not reached. *)
Definition upload (fs : gmap string Files.entry) (parts : list described_part)
  : option (gmap string Files.entry * list Files.descriptor) :=
  match write_request (map dp_part parts) fs (map dp_part parts) with
  | Some fs' =>
      Some (fs', map (fun p => Files.describe latin1_as_utf8 (dp_now p) (dp_suffix p)
                                              (dp_iso p) (dp_part p)) parts)
  | None => None
  end.

End Api.

End Hub.

(** The last thing a trace asked to write to the messages file. *)
Fixpoint last_saved (fx : list effect) : option jsval :=
  match fx with
  | [] => None
  | WriteFile _ contents :: rest =>
      match last_saved rest with
      | Some later => Some later
      | None => Some contents
      end
  | Send _ _ :: rest => last_saved rest
  end.

(** How many times a relayed frame is sent to socket [ws]. *)
Definition copies (ws : nat) (clients : list client) : nat :=
  length (filter (fun c => Nat.eqb (client_id c) ws
                           && ready_state_eqb (readyState c) OPEN = true) clients).

Definition stays_open (ws : nat) (e : event) : Prop :=
  e <> Connect ws /\ e <> StartClose ws /\ e <> Disconnect ws.

(** *** The chat client ([src/components/FileUpload.tsx], the
    MessageSystem component that reconnects) *)

Module Client.

(** ToBoolean *)
Definition truthy_value (v : jsval) : bool :=
  match v with
  | JUndefined | JNull => false
  | JBool b => b
  | JNum q => negb (Qeq_bool q 0)
  | JStr s => negb (String.eqb s "")
  | JArr _ | JObj _ => true
  end.

(** [[message, ...prev]]: arrays and strings are iterable, nothing else
    that can be in the state is. *)
Definition prepend (message prev : jsval) : completion jsval :=
  match prev with
  | JArr items => Normal (JArr (message :: items))
  | JStr s =>
      Normal (JArr (message :: map (fun c => JStr (String c EmptyString))
                                  (list_ascii_of_string s)))
  | _ => Throw TypeError
  end.

Section OnMessage.

Variable JSON_parse : string -> option jsval.

(** [ws.onmessage]: the new [messages] state.  A [Throw] is the state
    updater failing while React applies it; what the try block catches
    leaves the state as it is. *)
Definition onmessage (messages : jsval) (event_data : string) : completion jsval :=
  match JSON_parse event_data with
  | None => Normal messages
  | Some data =>
      match get_field data "type" with
      | Throw _ => Normal messages
      | Normal ty =>
          if strict_eq_str ty "init" then
            match get_field data "messages" with
            | Throw _ => Normal messages
            | Normal sent => Normal (if truthy_value sent then sent else JArr [])
            end
          else if strict_eq_str ty "message" then
            match get_field data "message" with
            | Throw _ => Normal messages
            | Normal message => prepend message messages
            end
          else if strict_eq_str ty "clear" then Normal (JArr [])
          else Normal messages
      end
  end.

(** The frame reads back, on the client, as the value the server gave
    to [JSON.stringify]. *)
Definition arrives (JSON_stringify : jsval -> string) (frame : jsval) : Prop :=
  JSON_parse (JSON_stringify frame) = Some frame.

(** The state after a sequence of frames, from [useState([])]. *)
Fixpoint receive (messages : jsval) (frames : list string) : completion jsval :=
  match frames with
  | [] => Normal messages
  | event_data :: rest =>
      match onmessage messages event_data with
      | Normal messages' => receive messages' rest
      | Throw e => Throw e
      end
  end.

End OnMessage.

End Client.

(** *** Runs of the monitors, with the cache they end in *)

Module MonitorRuns.
Import Monitor.

Section Runs.

Context {num : Type} `{JsRuntime num}.

Fixpoint esm_cache_after (c : cache num) (envs : list (esm_env num)) : cache num :=
  match envs with
  | [] => c
  | env :: rest => esm_cache_after (snd (esm_system_info c env)) rest
  end.

Fixpoint cjs_cache_after (c : cache num) (envs : list (cjs_env num)) : cache num :=
  match envs with
  | [] => c
  | env :: rest => cjs_cache_after (snd (cjs_system_info c env)) rest
  end.

(** The cache describes its payload: stored when the payload says. *)
Definition consistent (c : cache num) : Prop :=
  forall p, systemInfoCache c = Some p -> timestamp p = lastUpdate c.

Definition holds_no_error (c : cache num) : Prop :=
  forall p, systemInfoCache c = Some p -> error p = None.

End Runs.

End MonitorRuns.

(** What a message handler does to the list, the file and the sockets
    together.  It leaves the list alone and issues nothing; or it empties
    the list, saves that and relays a clear frame; or it puts a message
    in front of an array, keeps a prefix of the result, saves what it
    keeps and relays the message. *)
Definition keeps_a_prefix
           (on_message : jsval -> list client -> string -> string -> outcome) : Prop :=
  forall messages clients now_iso data,
    let o := on_message messages clients now_iso data in
    (effects o = [] /\ messages_after o = messages)
    \/ (messages_after o = JArr [] /\ thrown o = None
        /\ effects o = saveMessages (JArr []) :: broadcast clients clear_frame)
    \/ (exists old message kept,
          messages = JArr old /\ messages_after o = JArr kept
          /\ kept `prefix_of` message :: old /\ thrown o = None
          /\ effects o = saveMessages (JArr kept) :: broadcast clients (message_frame message)).

(** * Properties *)

(** ** The message list *)

Lemma take_app_take {A} (n : nat) (a b : list A) :
  take n (a ++ take n b) = take n (a ++ b).
Proof.
  rewrite !take_app, take_take. f_equal. f_equal. lia.
Qed.

Lemma take_rev_drop {A} (n : nat) (l : list A) :
  take n (rev l) = rev (drop (length l - n) l).
Proof.
  destruct (decide (n <= length l)) as [Hle|Hgt].
  - rewrite <- (firstn_skipn (length l - n) l) at 1.
    rewrite rev_app_distr, take_app_length'; [reflexivity|].
    rewrite length_rev, length_drop. lia.
  - replace (length l - n) with 0 by lia. rewrite drop_0.
    apply take_ge. rewrite length_rev. lia.
Qed.

Lemma removelast_full {A} (l : list A) :
  length l = 1001 -> removelast l = take 1000 l.
Proof.
  intros Hl. rewrite removelast_firstn_len, Hl. reflexivity.
Qed.

Section MessageHandlers.

Variable JSON_parse : string -> option jsval.

Lemma message_frame_payload data :
  frame_has_type JSON_parse "message" data = true ->
  exists props, JSON_parse data = Some (JObj props)
                /\ strict_eq_str (own_prop "type" props) "message" = true.
Proof.
  unfold frame_has_type. destruct (JSON_parse data) as [payload|]; [|discriminate].
  destruct payload; simpl; try discriminate. eauto.
Qed.

(** One "message" frame on the hub: unshift, then keep the first 1000. *)
Lemma hub_message_step old clients now_iso data :
  frame_has_type JSON_parse "message" data = true ->
  let o := hub_on_message JSON_parse (JArr old) clients now_iso data in
  messages_after o = JArr (take 1000 (hub_message JSON_parse now_iso data :: old))
  /\ thrown o = None.
Proof.
  intros Hty. destruct (message_frame_payload _ Hty) as (props & Hp & Ht).
  unfold hub_on_message, hub_message, payload_message. rewrite Hp. cbn [get_field].
  rewrite Ht. cbn [messages_after thrown].
  split; [|reflexivity]. f_equal.
  destruct (Nat.ltb_spec 1000 (length (JObj (obj_set "timestamp" (JStr now_iso)
                                              (spread (own_prop "message" props))) :: old)))
    as [Hlt|Hge]; [reflexivity|].
  symmetry. apply take_ge. exact Hge.
Qed.

(** One "message" frame on the relay: unshift, then pop once past 1000.
    That is the same as keeping the first 1000 when the list was within
    the cap before. *)
Lemma relay_message_step old clients now_iso data :
  frame_has_type JSON_parse "message" data = true ->
  length old <= 1000 ->
  let o := relay_on_message JSON_parse (JArr old) clients now_iso data in
  messages_after o = JArr (take 1000 (payload_message JSON_parse data :: old))
  /\ thrown o = None.
Proof.
  intros Hty Hlen. destruct (message_frame_payload _ Hty) as (props & Hp & Ht).
  unfold relay_on_message, payload_message. rewrite Hp. cbn [get_field].
  rewrite Ht. cbn [messages_after thrown].
  split; [|reflexivity]. f_equal.
  destruct (Nat.ltb_spec 1000 (length (own_prop "message" props :: old))) as [Hlt|Hge].
  - apply removelast_full. simpl in *. lia.
  - symmetry. apply take_ge. exact Hge.
Qed.

(** A run of message frames, with sockets coming and going in between,
    for any handler that unshifts and keeps the first 1000. *)
Lemma run_message_frames
      (on_message : jsval -> list client -> string -> string -> outcome)
      (built : string -> string -> jsval) :
  (forall old clients now_iso data,
      frame_has_type JSON_parse "message" data = true ->
      length old <= 1000 ->
      messages_after (on_message (JArr old) clients now_iso data)
        = JArr (take 1000 (built now_iso data :: old))
      /\ thrown (on_message (JArr old) clients now_iso data) = None) ->
  forall es old clients,
    Forall (fun f => frame_has_type JSON_parse "message" (snd f) = true) (frames_of es) ->
    length old <= 1000 ->
    let s := {| srv_messages := JArr old; srv_clients := clients; srv_alive := true |} in
    srv_messages (fst (run on_message s es))
      = JArr (take 1000 (rev (map (fun f => built (fst f) (snd f)) (frames_of es)) ++ old))
    /\ srv_alive (fst (run on_message s es)) = true.
Proof.
  intros Hstep es. induction es as [|e rest IH]; intros old clients Hall Hlen.
  - simpl. split; [|reflexivity]. f_equal. symmetry. apply take_ge. exact Hlen.
  - cbn [run]. destruct e as [ws|ws now_iso data|ws|ws];
      cbn [step srv_alive negb srv_messages srv_clients frames_of] in *.
    + specialize (IH old (clients ++ [{| client_id := ws; readyState := OPEN |}]) Hall Hlen).
      destruct (run on_message _ rest) as [s2 fx2]. exact IH.
    + inversion Hall as [|f fs Hf Hrest]; subst. cbn [snd] in Hf.
      destruct (Hstep old clients now_iso data Hf Hlen) as [Hm Ht].
      rewrite Hm, Ht.
      specialize (IH (take 1000 (built now_iso data :: old)) clients Hrest).
      destruct (run on_message _ rest) as [s2 fx2]. cbn [fst] in *.
      destruct IH as [IHm IHa]; [rewrite length_take; lia|].
      split; [|exact IHa]. rewrite IHm. f_equal.
      cbn [map rev fst snd]. rewrite take_app_take, <- app_assoc. reflexivity.
    + specialize (IH old (map (set_closing ws) clients) Hall Hlen).
      destruct (run on_message _ rest) as [s2 fx2]. exact IH.
    + specialize (IH old (filter (fun c => negb (Nat.eqb (client_id c) ws) = true) clients)
                     Hall Hlen).
      destruct (run on_message _ rest) as [s2 fx2]. exact IH.
Qed.

End MessageHandlers.

Lemma frames_of_repeat ws now_iso data n :
  frames_of (repeat (Frame ws now_iso data) n) = repeat (now_iso, data) n.
Proof.
  induction n as [|n IH]; simpl; [reflexivity|]. rewrite IH. reflexivity.
Qed.

Lemma burst_is_messages :
  Forall (fun f => frame_has_type Sample.parse "message" (snd f) = true)
         (frames_of Sample.burst).
Proof.
  unfold Sample.burst. rewrite frames_of_repeat.
  apply Forall_forall. intros f Hin.
  apply list_elem_of_In, repeat_spec in Hin. subst f.
  vm_compute. reflexivity.
Qed.

(** C1. Message frames applied to an empty list: the stored list is the
    messages in reverse arrival order (newest first) without the oldest
    ones past 1000, so it never holds more than 1000; after 1001 frames
    exactly 1000 remain and only the first one sent is gone.  Holds for
    the hub (slice) and for the relay (pop), whatever sockets connect or
    close in between. *)
Theorem message_list_capped_newest_first
        (JSON_parse : string -> option jsval) (clients : list client) (es : list event) :
  Forall (fun f => frame_has_type JSON_parse "message" (snd f) = true) (frames_of es) ->
  let n := length (frames_of es) in
  let hub_list := rev (drop (n - 1000) (hub_sent JSON_parse es)) in
  let relay_list := rev (drop (n - 1000) (relay_sent JSON_parse es)) in
  srv_messages (fst (run (hub_on_message JSON_parse) (empty_server clients) es)) = JArr hub_list
  /\ srv_messages (fst (run (relay_on_message JSON_parse) (empty_server clients) es)) = JArr relay_list
  /\ length hub_list = Nat.min n 1000
  /\ length relay_list = Nat.min n 1000
  /\ (n = 1001 ->
      hub_list = rev (drop 1 (hub_sent JSON_parse es)) /\ length hub_list = 1000
      /\ relay_list = rev (drop 1 (relay_sent JSON_parse es)) /\ length relay_list = 1000).
Proof.
  intros Hall n hub_list relay_list.
  assert (Hn_hub : length (hub_sent JSON_parse es) = n)
    by (unfold hub_sent; apply length_map).
  assert (Hn_relay : length (relay_sent JSON_parse es) = n)
    by (unfold relay_sent; apply length_map).
  assert (Hlh : length hub_list = Nat.min n 1000)
    by (unfold hub_list; rewrite length_rev, length_drop; lia).
  assert (Hlr : length relay_list = Nat.min n 1000)
    by (unfold relay_list; rewrite length_rev, length_drop; lia).
  repeat split.
  - destruct (run_message_frames JSON_parse (hub_on_message JSON_parse)
                (hub_message JSON_parse)
                (fun old cl t d Hty _ => hub_message_step JSON_parse old cl t d Hty)
                es [] clients Hall) as [Hm _]; [simpl; lia|].
    unfold empty_server. rewrite Hm, app_nil_r. f_equal.
    fold (hub_sent JSON_parse es). rewrite take_rev_drop, Hn_hub. reflexivity.
  - destruct (run_message_frames JSON_parse (relay_on_message JSON_parse)
                (fun _ d => payload_message JSON_parse d)
                (relay_message_step JSON_parse)
                es [] clients Hall) as [Hm _]; [simpl; lia|].
    unfold empty_server. rewrite Hm, app_nil_r. f_equal.
    fold (relay_sent JSON_parse es). rewrite take_rev_drop, Hn_relay. reflexivity.
  - exact Hlh.
  - exact Hlr.
  - unfold hub_list. rewrite H. reflexivity.
  - rewrite Hlh, H. reflexivity.
  - unfold relay_list. rewrite H. reflexivity.
  - rewrite Hlr, H. reflexivity.
Qed.

Lemma message_list_capped_newest_first_witness :
  Forall (fun f => frame_has_type Sample.parse "message" (snd f) = true)
         (frames_of Sample.burst)
  /\ srv_messages (fst (run (hub_on_message Sample.parse)
                            (empty_server Sample.two_clients) Sample.burst))
     = JArr (rev (drop 1 (hub_sent Sample.parse Sample.burst)))
  /\ srv_messages (fst (run (relay_on_message Sample.parse)
                            (empty_server Sample.two_clients) Sample.burst))
     = JArr (rev (drop 1 (relay_sent Sample.parse Sample.burst))).
Proof.
  split; [exact burst_is_messages|].
  pose proof (message_list_capped_newest_first Sample.parse Sample.two_clients
                Sample.burst burst_is_messages) as W.
  cbv zeta in W.
  replace (length (frames_of Sample.burst)) with 1001 in W
    by (unfold Sample.burst; rewrite frames_of_repeat, repeat_length; reflexivity).
  exact (conj (proj1 W) (proj1 (proj2 W))).
Defined.

(** ** Clear, dropped frames, startup *)

Lemma clear_is_not_message ty :
  strict_eq_str ty "clear" = true -> strict_eq_str ty "message" = false.
Proof.
  destruct ty; simpl; try discriminate.
  intros Hc. apply String.eqb_eq in Hc. subst. reflexivity.
Qed.

Lemma In_broadcast clients frame to sent :
  In (Send to sent) (broadcast clients frame) <->
  sent = frame /\ exists c, In c clients /\ client_id c = to /\ is_open c.
Proof.
  unfold broadcast, is_open. rewrite in_map_iff. split.
  - intros (c & Heq & Hin). inversion Heq; subst.
    apply list_elem_of_In, list_elem_of_filter in Hin. destruct Hin as [Hopen Hin].
    split; [reflexivity|]. exists c. rewrite <- list_elem_of_In.
    destruct (readyState c); try discriminate. auto.
  - intros (-> & c & Hin & <- & Hopen). exists c. split; [reflexivity|].
    apply list_elem_of_In, list_elem_of_filter. rewrite Hopen.
    split; [reflexivity|]. apply list_elem_of_In, Hin.
Qed.

Lemma clear_outcome JSON_parse messages clients now_iso data :
  frame_has_type JSON_parse "clear" data = true ->
  hub_on_message JSON_parse messages clients now_iso data
    = {| messages_after := JArr [];
         effects := saveMessages (JArr []) :: broadcast clients clear_frame;
         thrown := None |}
  /\ relay_on_message JSON_parse messages clients now_iso data
    = {| messages_after := JArr [];
         effects := saveMessages (JArr []) :: broadcast clients clear_frame;
         thrown := None |}.
Proof.
  unfold frame_has_type, hub_on_message, relay_on_message.
  destruct (JSON_parse data) as [payload|]; [|discriminate].
  destruct (get_field payload "type") as [ty|]; [|discriminate].
  intros Hc. rewrite (clear_is_not_message _ Hc), Hc. split; reflexivity.
Qed.

(** C6. A "clear" frame empties the in-memory list, issues the write of
    the empty list to the messages file, and sends [{type:"clear"}] to
    exactly the clients of [wss.clients] that are OPEN (hub and relay). *)
Theorem clear_empties_persists_and_broadcasts
        (JSON_parse : string -> option jsval) (messages : jsval)
        (clients : list client) (now_iso data : string) (o : outcome) :
  frame_has_type JSON_parse "clear" data = true ->
  o = hub_on_message JSON_parse messages clients now_iso data
  \/ o = relay_on_message JSON_parse messages clients now_iso data ->
  messages_after o = JArr []
  /\ thrown o = None
  /\ In (WriteFile MESSAGES_FILE (JArr [])) (effects o)
  /\ (forall path contents, In (WriteFile path contents) (effects o) ->
        path = MESSAGES_FILE /\ contents = JArr [])
  /\ (forall c, In c clients -> is_open c -> In (Send (client_id c) clear_frame) (effects o))
  /\ (forall to frame, In (Send to frame) (effects o) ->
        frame = clear_frame /\ exists c, In c clients /\ client_id c = to /\ is_open c).
Proof.
  intros Hc Ho. destruct (clear_outcome JSON_parse messages clients now_iso data Hc) as [Hh Hr].
  assert (Heq : o = {| messages_after := JArr [];
                       effects := saveMessages (JArr []) :: broadcast clients clear_frame;
                       thrown := None |}) by (destruct Ho; congruence).
  subst o. cbn [messages_after thrown effects]. repeat split.
  - left. reflexivity.
  - destruct H as [H|H]; [inversion H; reflexivity|].
    unfold broadcast in H. apply in_map_iff in H. destruct H as (? & ? & _). discriminate.
  - destruct H as [H|H]; [inversion H; reflexivity|].
    unfold broadcast in H. apply in_map_iff in H. destruct H as (? & ? & _). discriminate.
  - right. apply In_broadcast. eauto.
  - destruct H as [H|H]; [discriminate|]. apply In_broadcast in H. apply H.
  - destruct H as [H|H]; [discriminate|]. apply In_broadcast in H. apply H.
Qed.

Lemma clear_empties_persists_and_broadcasts_witness :
  frame_has_type Sample.parse "clear" Sample.clear_text = true
  /\ messages_after (hub_on_message Sample.parse (JArr [JStr "old"]) Sample.two_clients
                                    Sample.iso Sample.clear_text) = JArr []
  /\ In (Send 1 clear_frame)
        (effects (hub_on_message Sample.parse (JArr [JStr "old"]) Sample.two_clients
                                 Sample.iso Sample.clear_text)).
Proof.
  assert (Hclear : frame_has_type Sample.parse "clear" Sample.clear_text = true)
    by (vm_compute; reflexivity).
  split; [exact Hclear|].
  destruct (clear_empties_persists_and_broadcasts Sample.parse (JArr [JStr "old"])
              Sample.two_clients Sample.iso Sample.clear_text _
              Hclear (or_introl eq_refl)) as (Hm & _ & _ & _ & Hopen & _).
  split; [exact Hm|].
  apply (Hopen {| client_id := 1; readyState := OPEN |}); [left|]; reflexivity.
Defined.

(** C8. A frame that is not valid JSON, or that is valid JSON whose
    [type] is neither "message" nor "clear", changes nothing: the list is
    as before and no write or send is issued (hub and relay). *)
Theorem unrecognised_frames_are_dropped
        (JSON_parse : string -> option jsval) (messages : jsval)
        (clients : list client) (now_iso data : string) (o : outcome) :
  JSON_parse data = None
  \/ (exists payload, JSON_parse data = Some payload
                      /\ frame_has_type JSON_parse "message" data = false
                      /\ frame_has_type JSON_parse "clear" data = false) ->
  o = hub_on_message JSON_parse messages clients now_iso data
  \/ o = relay_on_message JSON_parse messages clients now_iso data ->
  messages_after o = messages /\ effects o = [].
Proof.
  intros Hdata Ho.
  assert (Hboth :
    (messages_after (hub_on_message JSON_parse messages clients now_iso data) = messages
     /\ effects (hub_on_message JSON_parse messages clients now_iso data) = [])
    /\ (messages_after (relay_on_message JSON_parse messages clients now_iso data) = messages
        /\ effects (relay_on_message JSON_parse messages clients now_iso data) = [])).
  { unfold hub_on_message, relay_on_message.
    destruct Hdata as [Hnone | (payload & Hsome & Hm & Hc)].
    - rewrite Hnone. repeat split.
    - unfold frame_has_type in Hm, Hc. rewrite Hsome in *.
      destruct (get_field payload "type") as [ty|e]; [|repeat split].
      rewrite Hm, Hc. repeat split. }
  destruct Ho as [-> | ->]; apply Hboth.
Qed.

Lemma unrecognised_frames_are_dropped_witness :
  (Sample.parse Sample.ping_text = None
   \/ (exists payload, Sample.parse Sample.ping_text = Some payload
                       /\ frame_has_type Sample.parse "message" Sample.ping_text = false
                       /\ frame_has_type Sample.parse "clear" Sample.ping_text = false))
  /\ messages_after (relay_on_message Sample.parse (JArr [JStr "old"]) Sample.two_clients
                                      Sample.iso Sample.ping_text) = JArr [JStr "old"]
  /\ effects (relay_on_message Sample.parse (JArr [JStr "old"]) Sample.two_clients
                               Sample.iso Sample.ping_text) = [].
Proof.
  assert (Hping : Sample.parse Sample.ping_text = None
   \/ (exists payload, Sample.parse Sample.ping_text = Some payload
                       /\ frame_has_type Sample.parse "message" Sample.ping_text = false
                       /\ frame_has_type Sample.parse "clear" Sample.ping_text = false)).
  { right. exists (JObj [("type", JStr "ping")]). vm_compute. repeat split. }
  split; [exact Hping|].
  exact (unrecognised_frames_are_dropped Sample.parse (JArr [JStr "old"]) Sample.two_clients
           Sample.iso Sample.ping_text _ Hping (or_intror eq_refl)).
Defined.

(** The same holds for the frame [null], where reading [payload.type]
    throws outside the try block: nothing is changed or issued, and the
    exception is what the handler ends with. *)
Example null_frame_throws :
  hub_on_message Sample.parse (JArr [JStr "old"]) Sample.two_clients Sample.iso "null"
  = {| messages_after := JArr [JStr "old"]; effects := []; thrown := Some TypeError |}.
Proof. reflexivity. Qed.

(** C10. At startup a missing messages file, or one whose text does not
    parse, gives the empty list, on a server that is up with no clients.  *)
Theorem startup_falls_back_to_empty_list
        (JSON_parse : string -> option jsval) (file : option string) :
  file = None \/ (exists data, file = Some data /\ JSON_parse data = None) ->
  load_messages JSON_parse file = JArr []
  /\ startup JSON_parse file
     = {| srv_messages := JArr []; srv_clients := []; srv_alive := true |}.
Proof.
  intros [-> | (data & -> & Hbad)]; unfold startup, load_messages.
  - split; reflexivity.
  - rewrite Hbad. split; reflexivity.
Qed.

Lemma startup_falls_back_to_empty_list_witness :
  (Some "[{" = None \/ (exists data, Some "[{" = Some data /\ Sample.parse data = None))
  /\ load_messages Sample.parse (Some "[{") = JArr [].
Proof.
  assert (Hbad : Some "[{" = None
                 \/ (exists data, Some "[{" = Some data /\ Sample.parse data = None)).
  { right. exists "[{". split; reflexivity. }
  split; [exact Hbad|].
  exact (proj1 (startup_falls_back_to_empty_list Sample.parse (Some "[{") Hbad)).
Defined.

(** ** The init frame *)

Lemma relayed_frame_not_init frame messages :
  relayed_frame frame -> frame <> init_frame messages.
Proof.
  intros [-> | (m & ->)]; discriminate.
Qed.

Lemma sends_to_app ws fx1 fx2 :
  sends_to ws (fx1 ++ fx2) = sends_to ws fx1 ++ sends_to ws fx2.
Proof. apply omap_app. Qed.

Lemma sends_to_broadcast_stranger ws clients frame :
  ~ In ws (map client_id clients) -> sends_to ws (broadcast clients frame) = [].
Proof.
  unfold broadcast. induction clients as [|c rest IH]; intros Hnot; [reflexivity|].
  rewrite filter_cons. simpl in Hnot.
  assert (Hc : client_id c <> ws) by tauto.
  assert (Hrest : ~ In ws (map client_id rest)) by tauto.
  destruct (decide (ready_state_eqb (readyState c) OPEN = true)); [|auto].
  cbn [map sends_to omap list_omap]. apply Nat.eqb_neq in Hc. rewrite Hc. apply IH, Hrest.
Qed.

Lemma sends_to_broadcast_relayed ws clients frame :
  relayed_frame frame -> Forall relayed_frame (sends_to ws (broadcast clients frame)).
Proof.
  intros Hf. unfold broadcast. induction clients as [|c rest IH]; [constructor|].
  rewrite filter_cons.
  destruct (decide (ready_state_eqb (readyState c) OPEN = true)); [|exact IH].
  cbn [map sends_to omap list_omap]. destruct (Nat.eqb (client_id c) ws).
  - constructor; assumption.
  - exact IH.
Qed.

(** Case analysis along the branches of a message handler. *)
Ltac handler_branches :=
  match goal with
  | |- context [match ?JSON_parse ?data with Some _ => _ | None => _ end] =>
      destruct (JSON_parse data) as [payload|]; [|left; reflexivity];
      destruct (get_field payload "type") as [ty|]; [|left; reflexivity];
      destruct (strict_eq_str ty "message");
      [ destruct (get_field payload "message") as [pm|]; [|left; reflexivity]
      | destruct (strict_eq_str ty "clear"); [|left; reflexivity] ]
  end.

Lemma hub_relays_only JSON_parse : relays_only (hub_on_message JSON_parse).
Proof.
  intros messages clients now_iso data. unfold hub_on_message. handler_branches.
  - destruct messages; try (left; reflexivity).
    right. eexists _, _. split; [|reflexivity]. right. eauto.
  - right. eexists _, _. split; [|reflexivity]. left. reflexivity.
Qed.

Lemma relay_relays_only JSON_parse : relays_only (relay_on_message JSON_parse).
Proof.
  intros messages clients now_iso data. unfold relay_on_message. handler_branches.
  - destruct messages; try (left; reflexivity).
    right. eexists _, _. split; [|reflexivity]. right. eauto.
  - right. eexists _, _. split; [|reflexivity]. left. reflexivity.
Qed.

Section Runs.

Variable on_message : jsval -> list client -> string -> string -> outcome.
Hypothesis Hrelays : relays_only on_message.

Lemma run_app s es1 es2 :
  run on_message s (es1 ++ es2)
  = (fst (run on_message (fst (run on_message s es1)) es2),
     snd (run on_message s es1) ++ snd (run on_message (fst (run on_message s es1)) es2)).
Proof.
  revert s. induction es1 as [|e rest IH]; intros s.
  - simpl. destruct (run on_message s es2); reflexivity.
  - cbn [app run]. destruct (step on_message s e) as [s1 fx1].
    rewrite IH. destruct (run on_message s1 rest) as [s2 fx2]. cbn [fst snd].
    rewrite app_assoc. reflexivity.
Qed.

(** Nothing is sent to a socket that is not in [wss.clients] and does
    not connect. *)
Lemma step_stranger s e ws :
  ~ In ws (map client_id (srv_clients s)) ->
  e <> Connect ws ->
  sends_to ws (snd (step on_message s e)) = []
  /\ ~ In ws (map client_id (srv_clients (fst (step on_message s e)))).
Proof.
  intros Hnot He. unfold step. destruct (srv_alive s); cbn [negb]; [|auto].
  destruct e as [w|w now_iso data|w|w]; cbn [fst snd srv_clients].
  - split.
    + unfold on_connection. cbn [sends_to omap list_omap].
      destruct (Nat.eqb_spec w ws) as [->|Hne]; [congruence|reflexivity].
    + rewrite map_app, in_app_iff. simpl. intros [Hin|[Hw|[]]]; [tauto|congruence].
  - split; [|exact Hnot].
    destruct (Hrelays (srv_messages s) (srv_clients s) now_iso data)
      as [Hnil | (saved & frame & _ & Hfx)].
    + rewrite Hnil. reflexivity.
    + rewrite Hfx. cbn [sends_to omap list_omap saveMessages].
      apply sends_to_broadcast_stranger, Hnot.
  - split; [reflexivity|]. rewrite map_map. intros Hin. apply Hnot.
    apply in_map_iff in Hin. destruct Hin as (c & Hc & Hin). apply in_map_iff.
    unfold set_closing in Hc. destruct (Nat.eqb_spec (client_id c) w) as [Heq|Hne].
    + exists c. simpl in Hc. split; [congruence|exact Hin].
    + exists c. split; assumption.
  - split; [reflexivity|]. intros Hin. apply Hnot.
    apply in_map_iff in Hin. destruct Hin as (c & Hc & Hin). apply in_map_iff.
    exists c. split; [exact Hc|].
    apply list_elem_of_In, list_elem_of_filter in Hin. apply list_elem_of_In, Hin.
Qed.

Lemma run_stranger es s ws :
  ~ In ws (map client_id (srv_clients s)) ->
  ~ In (Connect ws) es ->
  sends_to ws (snd (run on_message s es)) = [].
Proof.
  revert s. induction es as [|e rest IH]; intros s Hnot Hcon; [reflexivity|].
  cbn [run]. simpl in Hcon.
  destruct (step_stranger s e ws Hnot) as [Hfx Hids]; [intros ->; tauto|].
  destruct (step on_message s e) as [s1 fx1]. cbn [fst snd] in *.
  specialize (IH s1 Hids). destruct (run on_message s1 rest) as [s2 fx2].
  cbn [snd] in *. rewrite sends_to_app, Hfx, IH; [reflexivity|tauto].
Qed.

(** Without a new connection of [ws], whatever [ws] is sent is a relayed
    frame. *)
Lemma run_relayed es s ws :
  ~ In (Connect ws) es ->
  Forall relayed_frame (sends_to ws (snd (run on_message s es))).
Proof.
  revert s. induction es as [|e rest IH]; intros s Hcon; [constructor|].
  cbn [run]. simpl in Hcon.
  assert (Hstep : Forall relayed_frame (sends_to ws (snd (step on_message s e)))).
  { unfold step. destruct (srv_alive s); cbn [negb]; [|constructor].
    destruct e as [w|w now_iso data|w|w]; cbn [snd]; try constructor.
    - unfold on_connection. cbn [sends_to omap list_omap].
      destruct (Nat.eqb_spec w ws) as [->|Hne]; [tauto|constructor].
    - destruct (Hrelays (srv_messages s) (srv_clients s) now_iso data)
        as [Hnil | (saved & frame & Hframe & Hfx)].
      + rewrite Hnil. constructor.
      + rewrite Hfx. cbn [sends_to omap list_omap saveMessages].
        apply sends_to_broadcast_relayed, Hframe. }
  destruct (step on_message s e) as [s1 fx1]. cbn [snd] in Hstep.
  specialize (IH s1). destruct (run on_message s1 rest) as [s2 fx2]. cbn [snd] in *.
  rewrite sends_to_app. apply Forall_app. split; [exact Hstep|]. apply IH. tauto.
Qed.

Lemma connection_trace s es1 ws es2 :
  ~ In ws (map client_id (srv_clients s)) ->
  ~ In (Connect ws) es1 ->
  ~ In (Connect ws) es2 ->
  srv_alive (fst (run on_message s es1)) = true ->
  exists later,
    sends_to ws (snd (run on_message s (es1 ++ Connect ws :: es2)))
    = init_frame (srv_messages (fst (run on_message s es1))) :: later
    /\ Forall relayed_frame later.
Proof.
  intros Hnot Hc1 Hc2 Halive. rewrite run_app. cbn [snd].
  rewrite sends_to_app, (run_stranger es1 s ws Hnot Hc1). cbn [app run].
  unfold step at 1. rewrite Halive. cbn [negb].
  destruct (run on_message _ es2) as [s2 fx2] eqn:Hrun. cbn [snd].
  unfold on_connection. cbn [app sends_to omap list_omap]. rewrite Nat.eqb_refl.
  eexists. split; [reflexivity|].
  pose proof (run_relayed es2
    {| srv_messages := srv_messages (fst (run on_message s es1));
       srv_clients := srv_clients (fst (run on_message s es1))
                        ++ [{| client_id := ws; readyState := OPEN |}];
       srv_alive := true |} ws Hc2) as Hlater.
  rewrite Hrun in Hlater. exact Hlater.
Qed.

End Runs.

Lemma relayed_frame_type frame :
  relayed_frame frame ->
  get_field frame "type" = Normal (JStr "message")
  \/ get_field frame "type" = Normal (JStr "clear").
Proof.
  intros [-> | (m & ->)]; [right|left]; reflexivity.
Qed.

(** C9. When a socket connects, the server issues exactly one send: the
    frame [{type:"init", messages}] to that socket, with the list as it
    is then.  In the whole trace this is the first frame the socket
    gets, and every frame after it has type "message" or "clear": there
    is no second init (hub and relay). *)
Theorem init_frame_first_and_once
        (JSON_parse : string -> option jsval)
        (on_message : jsval -> list client -> string -> string -> outcome)
        (s : server) (es1 : list event) (ws : nat) (es2 : list event) :
  on_message = hub_on_message JSON_parse \/ on_message = relay_on_message JSON_parse ->
  ~ In ws (map client_id (srv_clients s)) ->
  ~ In (Connect ws) es1 ->
  ~ In (Connect ws) es2 ->
  srv_alive (fst (run on_message s es1)) = true ->
  let at_connect := srv_messages (fst (run on_message s es1)) in
  snd (step on_message (fst (run on_message s es1)) (Connect ws))
  = [Send ws (JObj [("type", JStr "init"); ("messages", at_connect)])]
  /\ exists later,
      sends_to ws (snd (run on_message s (es1 ++ Connect ws :: es2)))
      = JObj [("type", JStr "init"); ("messages", at_connect)] :: later
      /\ Forall (fun frame =>
                   get_field frame "type" = Normal (JStr "message")
                   \/ get_field frame "type" = Normal (JStr "clear")) later.
Proof.
  intros Hwhich Hnot Hc1 Hc2 Halive at_connect. split.
  - unfold step. rewrite Halive. reflexivity.
  - assert (Hrelays : relays_only on_message)
      by (destruct Hwhich as [-> | ->]; [apply hub_relays_only | apply relay_relays_only]).
    destruct (connection_trace on_message Hrelays s es1 ws es2 Hnot Hc1 Hc2 Halive)
      as (later & Htrace & Hlater).
    exists later. split; [exact Htrace|].
    eapply Forall_impl; [exact Hlater|].
    intros frame Hframe. apply relayed_frame_type, Hframe.
Qed.

Lemma init_frame_first_and_once_witness :
  sends_to 7 (snd (run (hub_on_message Sample.parse) (empty_server Sample.two_clients)
                       ([Frame 1 Sample.iso Sample.message_text]
                          ++ Connect 7 :: [Frame 1 Sample.iso Sample.clear_text])))
  = [JObj [("type", JStr "init");
           ("messages", JArr [hub_message Sample.parse Sample.iso Sample.message_text])];
     JObj [("type", JStr "clear")]].
Proof.
  destruct (init_frame_first_and_once Sample.parse (hub_on_message Sample.parse)
              (empty_server Sample.two_clients)
              [Frame 1 Sample.iso Sample.message_text] 7
              [Frame 1 Sample.iso Sample.clear_text]) as [_ (later & Htrace & _)].
  - left. reflexivity.
  - simpl. lia.
  - simpl. intros [H|[]]. discriminate.
  - simpl. intros [H|[]]. discriminate.
  - vm_compute. reflexivity.
  - rewrite Htrace. vm_compute in Htrace. injection Htrace as <-. vm_compute. reflexivity.
Defined.

(** ** Stored filenames *)

Module FileFacts.
Import Files.

Lemma append_cons c s t : String c s +:+ t = String c (s +:+ t).
Proof. reflexivity. Qed.

Lemma digit_is_not_hyphen c : is_digit c = true -> is_hyphen c = false.
Proof.
  unfold is_digit, is_hyphen. intros Hd.
  destruct (Ascii.eqb_spec c "-"%char) as [->|]; [discriminate Hd|reflexivity].
Qed.

Lemma string_of_uint_digits d : all_digits (NilEmpty.string_of_uint d) = true.
Proof. induction d; simpl; auto. Qed.

Lemma number_to_string_nonneg z :
  (0 <= z)%Z ->
  exists c rest, number_to_string z = String c rest
                 /\ is_digit c = true /\ all_digits rest = true.
Proof.
  intros Hz. unfold number_to_string.
  destruct z as [|p|p]; [| |lia]; cbn [Z.to_int NilEmpty.string_of_int].
  - exists "0"%char, EmptyString. repeat split.
  - pose proof (string_of_uint_digits (Pos.to_uint p)) as Hd.
    destruct (NilEmpty.string_of_uint (Pos.to_uint p)) as [|c rest] eqn:Hs.
    + exfalso. pose proof (NilEmpty.usu (Pos.to_uint p)) as Hu.
      rewrite Hs in Hu. simpl in Hu. injection Hu as Hu.
      pose proof (DecimalPos.Unsigned.of_to p) as Hp. rewrite <- Hu in Hp. discriminate.
    + simpl in Hd. apply andb_prop in Hd. exists c, rest. tauto.
Qed.

Lemma number_to_string_inj z1 z2 :
  number_to_string z1 = number_to_string z2 -> z1 = z2.
Proof.
  unfold number_to_string. intros Heq.
  apply DecimalZ.to_int_inj.
  pose proof (NilEmpty.isi (Z.to_int z1)) as H1.
  pose proof (NilEmpty.isi (Z.to_int z2)) as H2.
  congruence.
Qed.

(** After the digits and the hyphen the matcher stands at the name. *)
Lemma digits_then_hyphen digits name :
  all_digits digits = true ->
  more_digits_then_hyphen (digits +:+ "-" +:+ name) = Some name.
Proof.
  induction digits as [|c rest IH]; intros Hd.
  - reflexivity.
  - simpl in Hd. apply andb_prop in Hd. destruct Hd as [Hc Hrest].
    rewrite append_cons. cbn [more_digits_then_hyphen]. rewrite Hc, (IH Hrest). reflexivity.
Qed.

Lemma strip_timestamp_prefix z name :
  (0 <= z)%Z -> strip_timestamp (number_to_string z +:+ "-" +:+ name) = name.
Proof.
  intros Hz. destruct (number_to_string_nonneg z Hz) as (c & rest & -> & Hc & Hrest).
  rewrite append_cons. cbn [strip_timestamp].
  rewrite Hc, (digits_then_hyphen rest name Hrest).
  reflexivity.
Qed.

(** The first hyphen ends the digits, so prefix and name are read back
    unambiguously. *)
Lemma digits_hyphen_split a b x y :
  all_digits a = true -> all_digits b = true ->
  a +:+ "-" +:+ x = b +:+ "-" +:+ y -> a = b /\ x = y.
Proof.
  revert b. induction a as [|c a IH]; intros [|d b] Ha Hb Heq;
    rewrite ?append_cons in Heq; simpl in Ha, Hb.
  - change (String "-" x = String "-" y) in Heq. injection Heq as ->. auto.
  - change (String "-" x = String d (b +:+ "-" +:+ y)) in Heq.
    injection Heq as <- _. discriminate Hb.
  - change (String c (a +:+ "-" +:+ x) = String "-" y) in Heq.
    injection Heq as -> _. discriminate Ha.
  - injection Heq as -> Heq. apply andb_prop in Ha. apply andb_prop in Hb.
    destruct (IH b) as [-> ->]; tauto.
Qed.

Lemma number_to_string_digits z :
  (0 <= z)%Z -> all_digits (number_to_string z) = true.
Proof.
  intros Hz. destruct (number_to_string_nonneg z Hz) as (c & rest & -> & Hc & Hrest).
  simpl. rewrite Hc, Hrest. reflexivity.
Qed.

(** Different clock readings give different stored names, whatever the
    original names are. *)
Lemma storage_filename_inj recode p1 p2 :
  (0 <= named_at p1)%Z -> (0 <= named_at p2)%Z ->
  storage_filename recode p1 = storage_filename recode p2 ->
  named_at p1 = named_at p2 /\ recode (originalname p1) = recode (originalname p2).
Proof.
  unfold storage_filename. intros H1 H2 Heq.
  apply digits_hyphen_split in Heq; try (apply number_to_string_digits; assumption).
  destruct Heq as [Hn Hname]. split; [apply number_to_string_inj, Hn|exact Hname].
Qed.

End FileFacts.

(** ** Paths, headers and stored names *)

Module PathFacts.
Import Files.

Lemma split_slash_plain s : has_slash s = false -> split_slash s = [s].
Proof.
  induction s as [|c rest IH]; [reflexivity|].
  cbn [has_slash split_slash]. intros Hs. apply orb_false_elim in Hs.
  destruct Hs as [Hc Hrest]. rewrite Hc, (IH Hrest). reflexivity.
Qed.

Lemma ends_with_slash_plain s : has_slash s = false -> ends_with_slash s = false.
Proof.
  induction s as [|c rest IH]; [reflexivity|].
  cbn [has_slash]. intros Hs. apply orb_false_elim in Hs. destruct Hs as [Hc Hrest].
  cbn [ends_with_slash]. destruct rest; [exact Hc|apply IH, Hrest].
Qed.

Lemma is_plain_inv name :
  is_plain name = true ->
  has_slash name = false /\ has_nul name = false
  /\ String.eqb name "" = false /\ String.eqb name "." = false
  /\ String.eqb name ".." = false.
Proof.
  unfold is_plain. intros H.
  repeat (apply andb_prop in H; destruct H as [H ?]).
  repeat split; apply negb_true_iff; assumption.
Qed.

(** A single segment is joined to the uploads directory as it is. *)
Lemma resolve_plain name :
  is_plain name = true -> has_nul name = false /\ resolve name = Child name false.
Proof.
  intros Hp. apply is_plain_inv in Hp. destruct Hp as (Hs & Hn & He & Hd & Hdd).
  split; [exact Hn|]. unfold resolve.
  rewrite (split_slash_plain _ Hs), (ends_with_slash_plain _ Hs).
  cbn [walk]. rewrite He, Hd, Hdd. reflexivity.
Qed.

Lemma download_plain fs name :
  is_plain name = true ->
  download fs name
  = match fs !! name with
    | None => NotFound
    | Some e =>
        if negb (header_ok (content_disposition (strip_timestamp name))) then HeaderRejected
        else sendFile name false (content_disposition (strip_timestamp name)) e
    end.
Proof.
  intros Hp. destruct (resolve_plain name Hp) as [Hn Hr].
  unfold download. rewrite Hn, Hr. destruct (fs !! name) as [[body|]|]; reflexivity.
Qed.

Lemma delete_plain fs name :
  is_plain name = true ->
  delete_file fs name
  = Some (match fs !! name with
          | None => (fs, Success)
          | Some (RegularFile _) => (delete name fs, Success)
          | Some Directory => (fs, ServerError)
          end).
Proof.
  intros Hp. destruct (resolve_plain name Hp) as [Hn Hr].
  unfold delete_file, unlinkSync. rewrite Hn, Hr.
  destruct (fs !! name) as [[body|]|]; reflexivity.
Qed.

Lemma has_slash_app a b : has_slash (a +:+ b) = has_slash a || has_slash b.
Proof.
  induction a as [|c a IH]; [reflexivity|].
  rewrite FileFacts.append_cons. cbn [has_slash]. rewrite IH, orb_assoc. reflexivity.
Qed.

Lemma has_nul_app a b : has_nul (a +:+ b) = has_nul a || has_nul b.
Proof.
  induction a as [|c a IH]; [reflexivity|].
  rewrite FileFacts.append_cons. cbn [has_nul]. rewrite IH, orb_assoc. reflexivity.
Qed.

Lemma header_ok_app a b : header_ok (a +:+ b) = header_ok a && header_ok b.
Proof.
  induction a as [|c a IH]; [reflexivity|].
  rewrite FileFacts.append_cons. cbn [header_ok]. rewrite IH, andb_assoc. reflexivity.
Qed.

Lemma digit_facts c :
  is_digit c = true -> is_slash c = false /\ is_nul c = false /\ c <> "."%char.
Proof.
  unfold is_digit, is_slash, is_nul. intros Hd.
  destruct (Ascii.eqb_spec c "/"%char) as [->|]; [discriminate Hd|].
  destruct (Ascii.eqb_spec c "000"%char) as [->|]; [discriminate Hd|].
  repeat split. intros ->. discriminate Hd.
Qed.

Lemma digits_have_no_separator digits :
  all_digits digits = true -> has_slash digits = false /\ has_nul digits = false.
Proof.
  induction digits as [|c rest IH]; [auto|].
  cbn [all_digits has_slash has_nul]. intros Hd. apply andb_prop in Hd.
  destruct Hd as [Hc Hrest]. destruct (digit_facts c Hc) as (-> & -> & _).
  apply IH, Hrest.
Qed.

(** The header the download handler builds is accepted exactly when the
    display name is. *)
Lemma header_ok_content_disposition name :
  header_ok (content_disposition name) = header_ok name.
Proof.
  unfold content_disposition.
  change (String "034"%char name) with (String "034"%char "" +:+ name).
  rewrite !header_ok_app. change (header_ok (String "034"%char "")) with true.
  change (header_ok "attachment; filename=") with true.
  cbn [andb]. apply andb_true_r.
Qed.

(** A stored name is one path segment, and no dot file, when the decoded
    name has no separator in it. *)
Lemma stored_name_plain recode part :
  (0 <= named_at part)%Z ->
  has_slash (recode (originalname part)) = false ->
  has_nul (recode (originalname part)) = false ->
  is_plain (storage_filename recode part) = true
  /\ is_dotfile (storage_filename recode part) = false.
Proof.
  intros Hclock Hs Hn. unfold storage_filename.
  destruct (FileFacts.number_to_string_nonneg _ Hclock) as (c & rest & Hnum & Hc & Hrest).
  destruct (digits_have_no_separator _ (FileFacts.number_to_string_digits _ Hclock))
    as [Hds Hdn].
  destruct (digit_facts c Hc) as (_ & _ & Hdot).
  unfold is_plain. rewrite !has_slash_app, !has_nul_app, Hds, Hdn, Hs, Hn. cbn [orb negb andb].
  rewrite Hnum, FileFacts.append_cons. split.
  - destruct (Ascii.eqb_spec c "."%char) as [->|Hne]; [congruence|].
    assert (Hfirst : forall t, String.eqb (String c t) "." = false
                               /\ String.eqb (String c t) ".." = false).
    { intros t. cbn [String.eqb]. apply Ascii.eqb_neq in Hne. rewrite Hne. auto. }
    destruct (Hfirst (rest +:+ "-" +:+ recode (originalname part))) as [-> ->]. reflexivity.
  - cbn [is_dotfile]. destruct c as [[] [] [] [] [] [] [] []]; try reflexivity.
    congruence.
Qed.

Lemma stored_name_not_dotfile recode part :
  (0 <= named_at part)%Z -> is_dotfile (storage_filename recode part) = false.
Proof.
  intros Hclock. unfold storage_filename.
  destruct (FileFacts.number_to_string_nonneg _ Hclock) as (c & rest & -> & Hc & _).
  rewrite FileFacts.append_cons. cbn [is_dotfile].
  destruct (digit_facts c Hc) as (_ & _ & Hdot).
  destruct c as [[] [] [] [] [] [] [] []]; try reflexivity. congruence.
Qed.

(** What the download of a stored name answers, by the entry found. *)
Lemma download_stored recode part fs :
  (0 <= named_at part)%Z ->
  is_plain (storage_filename recode part) = true ->
  download fs (storage_filename recode part)
  = match fs !! storage_filename recode part with
    | None => NotFound
    | Some e =>
        if header_ok (recode (originalname part))
        then match e with
             | RegularFile body =>
                 SentFile ("attachment; filename=" +:+ String "034"%char (recode (originalname part))
                             +:+ String "034"%char "") body
             | Directory =>
                 NextRoute ("attachment; filename="
                              +:+ String "034"%char (recode (originalname part))
                              +:+ String "034"%char "")
             end
        else HeaderRejected
    end.
Proof.
  intros Hclock Hplain. rewrite (download_plain _ _ Hplain).
  destruct (fs !! storage_filename recode part) as [e|]; [|reflexivity].
  rewrite header_ok_content_disposition. unfold sendFile.
  rewrite (stored_name_not_dotfile _ _ Hclock).
  unfold storage_filename at 1 2 3. rewrite (FileFacts.strip_timestamp_prefix _ _ Hclock).
  destruct (header_ok (recode (originalname part))); [|reflexivity].
  destruct e; reflexivity.
Qed.

End PathFacts.

(** C2. A file whose name is outside Latin-1 is stored under its name
    and reported under it by the upload, the pattern recovers the name
    from the stored filename, and yet the download of that stored
    filename is refused: [setHeader] throws on the display name and no
    byte is sent.  Shown on 日本.txt. *)
Theorem name_outside_latin1_does_not_download :
  let part := Sample.part Sample.nihon_txt Sample.bytes_hi 1700000000000 in
  let stored := Files.storage_filename Sample.utf8_name part in
  stored = "1700000000000-" +:+ Sample.nihon_txt
  /\ Files.strip_timestamp stored = Sample.nihon_txt
  /\ Files.d_name (Files.describe Sample.utf8_name 1700000000001 "k3x9q" Sample.iso part)
     = Sample.nihon_txt
  /\ Files.store_part Sample.utf8_name ∅ part
     = Some {[ stored := Files.RegularFile Sample.bytes_hi ]}
  /\ Files.download {[ stored := Files.RegularFile Sample.bytes_hi ]} stored
     = Files.HeaderRejected.
Proof.
  intros part stored.
  assert (Hstored : stored = "1700000000000-" +:+ Sample.nihon_txt)
    by (vm_compute; reflexivity).
  split; [exact Hstored|]. split; [vm_compute; reflexivity|].
  split; [reflexivity|]. split.
  - unfold Files.store_part. fold stored.
    replace (Files.is_plain stored) with true by (rewrite Hstored; vm_compute; reflexivity).
    rewrite lookup_empty. reflexivity.
  - rewrite PathFacts.download_plain by (rewrite Hstored; vm_compute; reflexivity).
    rewrite lookup_singleton_eq, PathFacts.header_ok_content_disposition.
    rewrite Hstored. vm_compute. reflexivity.
Qed.

(** The same upload under an ASCII name downloads. *)
Example ascii_name_downloads :
  Files.download {[ "1700000000000-2024-report.txt" := Files.RegularFile Sample.bytes_hi ]}
                 "1700000000000-2024-report.txt"
  = Files.SentFile
      ("attachment; filename=" +:+ String "034"%char "2024-report.txt"
         +:+ String "034"%char "")
      Sample.bytes_hi.
Proof.
  rewrite PathFacts.download_plain by (vm_compute; reflexivity).
  rewrite lookup_singleton_eq. vm_compute. reflexivity.
Qed.

Example stored_name_of_digit_led_name :
  Files.storage_filename Sample.ascii_name
    (Sample.part "2024-report.txt" Sample.bytes_hi 1700000000000)
  = "1700000000000-2024-report.txt".
Proof. vm_compute. reflexivity. Qed.

(** A name that was not produced by an upload keeps what the pattern
    does not match. *)
Example strip_leaves_other_names :
  Files.strip_timestamp "notes-2024.txt" = "notes-2024.txt"
  /\ Files.strip_timestamp "12ab-c" = "12ab-c"
  /\ Files.strip_timestamp "7-8-9" = "8-9".
Proof. repeat split. Qed.

(** C4. Two different uploads of the same original name whose names are
    made in the same millisecond get the same stored filename, and the
    second replaces the first on disk: the timestamp prefix keeps stored
    names apart only when the clock readings differ
    ([FileFacts.storage_filename_inj]). *)
Theorem same_millisecond_uploads_collide :
  let first := Sample.part "a.txt" Sample.bytes_hi 1700000000000 in
  let second := Sample.part "a.txt" Sample.bytes_yo 1700000000000 in
  first <> second
  /\ Files.storage_filename Sample.ascii_name first = "1700000000000-a.txt"
  /\ Files.storage_filename Sample.ascii_name second = "1700000000000-a.txt"
  /\ Files.store_parts Sample.ascii_name ∅ [first; second]
     = Some {[ "1700000000000-a.txt" := Files.RegularFile Sample.bytes_yo ]}
  /\ Files.download {[ "1700000000000-a.txt" := Files.RegularFile Sample.bytes_yo ]}
                    (Files.storage_filename Sample.ascii_name first)
     = Files.SentFile (Files.content_disposition "a.txt") Sample.bytes_yo.
Proof.
  intros first second.
  assert (Hname1 : Files.storage_filename Sample.ascii_name first = "1700000000000-a.txt")
    by (vm_compute; reflexivity).
  assert (Hname2 : Files.storage_filename Sample.ascii_name second = "1700000000000-a.txt")
    by (vm_compute; reflexivity).
  split; [|split; [|split; [|split]]].
  - discriminate.
  - exact Hname1.
  - exact Hname2.
  - cbn [Files.store_parts]. unfold Files.store_part. rewrite Hname1, lookup_empty.
    change (Files.is_plain "1700000000000-a.txt") with true. cbn [negb].
    rewrite Hname2, lookup_insert_eq, insert_insert_eq.
    change (Files.is_plain "1700000000000-a.txt") with true. reflexivity.
  - rewrite Hname1. rewrite PathFacts.download_plain by (vm_compute; reflexivity).
    rewrite lookup_singleton_eq. vm_compute. reflexivity.
Qed.

(** The upload response does not rely on the clock alone for its [id]:
    a random suffix follows the timestamp. *)
Example descriptor_id_has_suffix :
  Files.d_id (Files.describe Sample.ascii_name 1700000000000 "k3x9q" Sample.iso
                (Sample.part "a.txt" Sample.bytes_hi 1700000000000))
  = "1700000000000k3x9q".
Proof. vm_compute. reflexivity. Qed.




(** Outside both cases: an entry that [unlinkSync] refuses takes the
    catch branch. *)
Example delete_directory_is_an_error :
  Files.delete_file {[ "sub" := Files.Directory ]} "sub"
  = Some ({[ "sub" := Files.Directory ]}, Files.ServerError).
Proof.
  rewrite PathFacts.delete_plain by reflexivity. rewrite lookup_singleton_eq. reflexivity.
Qed.

(** ** Host metrics *)

Example cjs_first_request :
  fst (Monitor.cjs_system_info Monitor.initial_cache (Sample.cjs_host 1000 true))
  = Monitor.Json200
      {| Monitor.ipAddress := "192.168.1.20";
         Monitor.cpuUsage := 25.0%Q;
         Monitor.memoryUsage := 25.0%Q;
         Monitor.diskUsage := 50.0%Q;
         Monitor.temperature := 45.0%Q;
         Monitor.uptime := "1d 2h 3m";
         Monitor.timestamp := 1000;
         Monitor.error := None |}.
Proof. vm_compute. reflexivity. Qed.

Example formatUptime_59_seconds :
  Monitor.formatUptime (num := Q) (59 # 1) = "0m".
Proof. vm_compute. reflexivity. Qed.

Section MonitorFacts.

Context {num : Type} `{JsRuntime num}.
Import Monitor.

Lemma cached_after_store (p : payload num) (stored_at now : Z) :
  (now - stored_at < CACHE_DURATION)%Z ->
  cached {| systemInfoCache := Some p; lastUpdate := stored_at |} now = Some p.
Proof.
  intros Hfresh. unfold cached. cbn [systemInfoCache lastUpdate].
  apply Z.ltb_lt in Hfresh. rewrite Hfresh. reflexivity.
Qed.

Lemma esm_fresh_throws (env : esm_env num) :
  esm_queries_throw env <-> exists e, esm_fresh env = Throw e.
Proof.
  unfold esm_queries_throw, esm_fresh, bind. split.
  - intros [(e & ->) | [(e & He) | [(e & He) | (e & He)]]]; [eauto| | |];
      destruct (esm_currentLoad env); eauto; rewrite ?He; eauto;
      destruct (esm_mem env); eauto; rewrite ?He; eauto;
      destruct (esm_fsSize env); eauto; rewrite ?He; eauto.
  - intros (e & He).
    destruct (esm_currentLoad env); [|eauto].
    destruct (esm_mem env); [|eauto].
    destruct (esm_fsSize env); [|eauto 6].
    destruct (esm_time env); [discriminate|eauto 6].
Qed.

Lemma cjs_fresh_throws (env : cjs_env num) :
  cjs_queries_throw env <-> exists e, cjs_fresh env = Throw e.
Proof.
  unfold cjs_queries_throw, cjs_fresh, bind. split.
  - intros [(e & ->) | [(e & He) | [(e & He) | (e & He)]]]; [eauto| | |];
      destruct (cjs_currentLoad env); eauto; rewrite ?He; eauto;
      destruct (cjs_mem env); eauto; rewrite ?He; eauto;
      destruct (cjs_fsSize env); eauto; rewrite ?He; eauto.
  - intros (e & He).
    destruct (cjs_currentLoad env); [|eauto].
    destruct (cjs_mem env); [|eauto].
    destruct (cjs_fsSize env); [|eauto 6].
    destruct (cjs_uptime env); [discriminate|eauto 6].
Qed.

Lemma esm_fresh_has_no_error (env : esm_env num) p :
  esm_fresh env = Normal p -> error p = None.
Proof.
  unfold esm_fresh, bind.
  destruct (esm_currentLoad env); [|discriminate].
  destruct (esm_mem env); [|discriminate].
  destruct (esm_fsSize env); [|discriminate].
  destruct (esm_time env); [|discriminate].
  intros [= <-]. reflexivity.
Qed.

Lemma cjs_fresh_has_no_error (env : cjs_env num) p :
  cjs_fresh env = Normal p -> error p = None.
Proof.
  unfold cjs_fresh, bind.
  destruct (cjs_currentLoad env); [|discriminate].
  destruct (cjs_mem env); [|discriminate].
  destruct (cjs_fsSize env); [|discriminate].
  destruct (cjs_uptime env); [|discriminate].
  intros [= <-]. reflexivity.
Qed.

(** [getSystemInfo] of the ES-module monitor resolves in every case: its
    catch block calls nothing that throws. *)
Lemma esm_getSystemInfo_resolves (c : cache num) (env : esm_env num) :
  exists p, fst (esm_getSystemInfo c env) = Normal p.
Proof.
  unfold esm_getSystemInfo, esm_settle. destruct (cached c (esm_now env)); [eauto|].
  destruct (esm_fresh env); eauto.
Qed.

(** What a call of the CommonJS monitor that missed the cache settles to,
    by the host it ran on. *)
Lemma cjs_settle_cases (c : cache num) (env : cjs_env num) :
  (exists p, cjs_fresh env = Normal p
             /\ cjs_settle c env
                = (Normal p, {| systemInfoCache := Some p; lastUpdate := cjs_now env |}))
  \/ (cjs_queries_throw env
      /\ exists p, cjs_fallback env = Normal p
                   /\ cjs_settle c env
                      = (Normal p, {| systemInfoCache := Some p; lastUpdate := cjs_now env |}))
  \/ (cjs_queries_throw env
      /\ exists e, cjs_fb_uptime env = Throw e /\ cjs_settle c env = (Throw e, c)).
Proof.
  unfold cjs_settle. destruct (cjs_fresh env) as [p|e] eqn:Hfresh; [left; eauto|].
  right. assert (Hthrow : cjs_queries_throw env) by (apply cjs_fresh_throws; eauto).
  unfold cjs_fallback, bind. destruct (cjs_fb_uptime env) as [seconds|e'].
  - left. split; [exact Hthrow|]. eauto.
  - right. split; [exact Hthrow|]. eauto.
Qed.

(** What the catch block builds when [os.uptime()] answers there. *)
Lemma cjs_fallback_built (env : cjs_env num) seconds :
  cjs_fb_uptime env = Normal seconds ->
  cjs_fallback env
  = Normal {| ipAddress := cjs_getLocalIP (cjs_fb_networkInterfaces env);
              cpuUsage := round1 (add (mul (cjs_random_cpu env) (lit 50)) (lit 10));
              memoryUsage := round1 (add (lit 35) (mul (cjs_random_mem env) (lit 20)));
              diskUsage := round1 (add (lit 42) (mul (cjs_random_disk env) (lit 10)));
              temperature := round1 (add (lit 45) (mul (cjs_random_fb_temp env) (lit 15)));
              uptime := formatUptime seconds;
              timestamp := cjs_now env;
              error := Some "Using simulated data - some system metrics unavailable" |}.
Proof. unfold cjs_fallback, bind. intros ->. reflexivity. Qed.

Lemma cjs_settle_stores (c : cache num) (env : cjs_env num) :
  (cjs_queries_throw env -> exists seconds, cjs_fb_uptime env = Normal seconds) ->
  exists p, cjs_settle c env
            = (Normal p, {| systemInfoCache := Some p; lastUpdate := cjs_now env |}).
Proof.
  intros Hup.
  destruct (cjs_settle_cases c env) as [(p & _ & ->) | [(_ & p & _ & ->) | (Ht & e & He & _)]];
    [eauto|eauto|].
  destruct (Hup Ht) as (seconds & Hs). congruence.
Qed.

Lemma esm_settle_stores (c : cache num) (env : esm_env num) :
  ~ esm_queries_throw env ->
  exists p, esm_settle c env
            = (Normal p, {| systemInfoCache := Some p; lastUpdate := esm_now env |}).
Proof.
  intros Hok. unfold esm_settle. destruct (esm_fresh env) as [p|e] eqn:Hfresh; [eauto|].
  exfalso. apply Hok, esm_fresh_throws. eauto.
Qed.

Section InterleavedFacts.

Variable env_t : Type.
Variable now_of : env_t -> Z.
Variable settle : cache num -> env_t -> completion (payload num) * cache num.

Local Abbreviation run_moments := (interleave env_t now_of settle).

Lemma interleave_cons m e rest :
  run_moments m (e :: rest)
  = (fst (run_moments (fst (moment_step env_t now_of settle m e)) rest),
     snd (moment_step env_t now_of settle m e)
     ++ snd (run_moments (fst (moment_step env_t now_of settle m e)) rest)).
Proof.
  cbn [interleave]. destruct (moment_step env_t now_of settle m e) as [m1 out1].
  cbn [fst snd]. destruct (interleave env_t now_of settle m1 rest) as [m2 out2]. reflexivity.
Qed.

Lemma interleave_app m es1 es2 :
  run_moments m (es1 ++ es2)
  = (fst (run_moments (fst (run_moments m es1)) es2),
     snd (run_moments m es1) ++ snd (run_moments (fst (run_moments m es1)) es2)).
Proof.
  revert m. induction es1 as [|e es1 IH]; intros m.
  - cbn [app interleave fst snd]. destruct (run_moments m es2). reflexivity.
  - rewrite <- app_comm_cons, !interleave_cons, IH. cbn [fst snd].
    rewrite app_assoc. reflexivity.
Qed.

(** Arrivals leave the cache as it is: only a call that completes
    stores. *)
Lemma arrivals_keep_the_cache between :
  Forall (is_arrival env_t) between ->
  forall m, mon_cache (fst (run_moments m between)) = mon_cache m.
Proof.
  induction 1 as [|e between He _ IH]; intros m; [reflexivity|].
  rewrite interleave_cons. cbn [fst]. rewrite IH.
  destruct e as [id env|id]; [|destruct He].
  cbn [moment_step]. destruct (cached (mon_cache m) (now_of env)); reflexivity.
Qed.

Lemma interleave_refresh m id1 env1 p1 between id2 env2 :
  find (fun call => Nat.eqb (fst call) id1) (mon_in_flight m) = Some (id1, env1) ->
  settle (mon_cache m) env1
  = (Normal p1, {| systemInfoCache := Some p1; lastUpdate := now_of env1 |}) ->
  Forall (is_arrival env_t) between ->
  (now_of env2 - now_of env1 < 2000)%Z ->
  exists m' answers,
    run_moments m (Completes id1 :: between ++ [Arrives id2 env2])
    = (m', (id1, Json200 p1) :: answers ++ [(id2, Json200 p1)])
    /\ mon_cache m' = {| systemInfoCache := Some p1; lastUpdate := now_of env1 |}.
Proof.
  intros Hfind Hsettle Hbetween Hsoon.
  rewrite interleave_cons, interleave_app. cbn [moment_step]. rewrite Hfind.
  cbn [fst snd]. rewrite Hsettle. cbn [fst snd answer].
  set (m1 := {| mon_cache := _; mon_in_flight := _ |}).
  pose proof (arrivals_keep_the_cache between Hbetween m1) as Hcache.
  set (m2 := fst (run_moments m1 between)) in *.
  assert (Hhit : cached (mon_cache m2) (now_of env2) = Some p1).
  { rewrite Hcache. apply cached_after_store, Hsoon. }
  cbn [interleave moment_step]. rewrite Hhit. cbn [fst snd app].
  exists m2, (snd (run_moments m1 between)). split; [reflexivity|exact Hcache].
Qed.

End InterleavedFacts.

End MonitorFacts.

(** The age of the cache is counted from the last refresh, not from the
    previous request: a request served from the cache at 2500 and one
    1000 ms later that finds the entry, stored at 1000, too old. *)
Lemma cache_age_counts_from_refresh :
  (3500 - 2500 < 2000)%Z
  /\ (exists r1 r2 r3,
        Monitor.cjs_serve Monitor.initial_cache
          [Sample.cjs_host 1000 true; Sample.cjs_host 2500 true; Sample.cjs_host 3500 true]
        = [r1; r2; r3] /\ r2 = r1 /\ r3 <> r2)
  /\ (exists r1 r2 r3,
        Monitor.esm_serve Monitor.initial_cache
          [Sample.esm_host 1000 true; Sample.esm_host 2500 true; Sample.esm_host 3500 true]
        = [r1; r2; r3] /\ r2 = r1 /\ r3 <> r2).
Proof.
  split; [lia|]. split.
  - eexists _, _, _. split; [vm_compute; reflexivity|]. split; [reflexivity|].
    intros Heq. discriminate Heq.
  - eexists _, _, _. split; [vm_compute; reflexivity|]. split; [reflexivity|].
    intros Heq. discriminate Heq.
Qed.

(** The ES-module monitor does not store its simulated payload, so two
    failing requests 500 ms apart each make their own; the CommonJS
    monitor stores it and answers the second from the cache. *)
Example fallback_caching_differs :
  (exists r1 r2,
      Monitor.esm_serve Monitor.initial_cache
        [Sample.esm_host 1000 false; Sample.esm_host 1500 false] = [r1; r2] /\ r2 <> r1)
  /\ (exists r1 r2,
      Monitor.cjs_serve Monitor.initial_cache
        [Sample.cjs_host 1000 false; Sample.cjs_host 1500 false] = [r1; r2] /\ r2 = r1).
Proof.
  split.
  - eexists _, _. split; [vm_compute; reflexivity|]. intros Heq. discriminate Heq.
  - eexists _, _. split; [vm_compute; reflexivity|]. reflexivity.
Qed.

(** The cache is tested before the host is queried and written after:
    of two requests 500 ms apart, the second arriving while the first
    still awaits the host, both miss, and each is answered by a payload
    of its own. *)
Example overlapping_requests_both_miss :
  (exists p1 p2,
      snd (Monitor.cjs_interleave (Monitor.started _)
             [Monitor.Arrives 1 (Sample.cjs_host 1000 true);
              Monitor.Arrives 2 (Sample.cjs_host 1500 true);
              Monitor.Completes 1; Monitor.Completes 2])
      = [(1, Monitor.Json200 p1); (2, Monitor.Json200 p2)] /\ p2 <> p1)
  /\ (exists p1 p2,
      snd (Monitor.esm_interleave (Monitor.started _)
             [Monitor.Arrives 1 (Sample.esm_host 1000 true);
              Monitor.Arrives 2 (Sample.esm_host 1500 true);
              Monitor.Completes 1; Monitor.Completes 2])
      = [(1, Monitor.Json200 p1); (2, Monitor.Json200 p2)] /\ p2 <> p1).
Proof.
  split.
  - eexists _, _. split; [vm_compute; reflexivity|]. intros Heq. discriminate Heq.
  - eexists _, _. split; [vm_compute; reflexivity|]. intros Heq. discriminate Heq.
Qed.

(** C3, as the code has it. A call that missed the cache at time t1 and
    completes with a payload that is stored (real values, or simulated
    ones in the CommonJS monitor when the catch block can build them;
    real values only in the ES-module monitor) is followed, as long as
    no other call completes in between, by the identical payload for
    every call that arrives after it has completed at a time t2 with
    t2 - t1 < 2000.  The cache then still holds that payload, dated
    t1. *)
Theorem refreshed_payload_is_served_from_cache {num : Type} `{JsRuntime num} :
  (forall (m : Monitor.monitor (Monitor.cjs_env num)) (id1 id2 : nat)
          (env1 env2 : Monitor.cjs_env num)
          (between : list (Monitor.moment (Monitor.cjs_env num))),
      find (fun call => Nat.eqb (fst call) id1) (Monitor.mon_in_flight m) = Some (id1, env1) ->
      (Monitor.cjs_queries_throw env1 ->
       exists seconds, Monitor.cjs_fb_uptime env1 = Normal seconds) ->
      Forall (Monitor.is_arrival _) between ->
      (Monitor.cjs_now env2 - Monitor.cjs_now env1 < 2000)%Z ->
      exists p1 m' answers,
        Monitor.cjs_interleave m
          (Monitor.Completes id1 :: between ++ [Monitor.Arrives id2 env2])
        = (m', (id1, Monitor.Json200 p1) :: answers ++ [(id2, Monitor.Json200 p1)])
        /\ Monitor.mon_cache m'
           = {| Monitor.systemInfoCache := Some p1;
                Monitor.lastUpdate := Monitor.cjs_now env1 |})
  /\ (forall (m : Monitor.monitor (Monitor.esm_env num)) (id1 id2 : nat)
             (env1 env2 : Monitor.esm_env num)
             (between : list (Monitor.moment (Monitor.esm_env num))),
      find (fun call => Nat.eqb (fst call) id1) (Monitor.mon_in_flight m) = Some (id1, env1) ->
      ~ Monitor.esm_queries_throw env1 ->
      Forall (Monitor.is_arrival _) between ->
      (Monitor.esm_now env2 - Monitor.esm_now env1 < 2000)%Z ->
      exists p1 m' answers,
        Monitor.esm_interleave m
          (Monitor.Completes id1 :: between ++ [Monitor.Arrives id2 env2])
        = (m', (id1, Monitor.Json200 p1) :: answers ++ [(id2, Monitor.Json200 p1)])
        /\ Monitor.mon_cache m'
           = {| Monitor.systemInfoCache := Some p1;
                Monitor.lastUpdate := Monitor.esm_now env1 |}).
Proof.
  split.
  - intros m id1 id2 env1 env2 between Hfind Hup Hbetween Hsoon.
    destruct (cjs_settle_stores (Monitor.mon_cache m) env1 Hup) as (p1 & Hsettle).
    exists p1. unfold Monitor.cjs_interleave.
    exact (interleave_refresh _ _ _ m id1 env1 p1 between id2 env2
             Hfind Hsettle Hbetween Hsoon).
  - intros m id1 id2 env1 env2 between Hfind Hok Hbetween Hsoon.
    destruct (esm_settle_stores (Monitor.mon_cache m) env1 Hok) as (p1 & Hsettle).
    exists p1. unfold Monitor.esm_interleave.
    exact (interleave_refresh _ _ _ m id1 env1 p1 between id2 env2
             Hfind Hsettle Hbetween Hsoon).
Qed.

Lemma refreshed_payload_is_served_from_cache_witness :
  (exists p1 m' answers,
      Monitor.cjs_interleave
        {| Monitor.mon_cache := Monitor.initial_cache;
           Monitor.mon_in_flight := [(1, Sample.cjs_host 1000 false)] |}
        (Monitor.Completes 1
           :: [Monitor.Arrives 3 (Sample.cjs_host 1500 true)]
           ++ [Monitor.Arrives 2 (Sample.cjs_host 2999 true)])
      = (m', (1, Monitor.Json200 p1) :: answers ++ [(2, Monitor.Json200 p1)])
      /\ Monitor.mon_cache m'
         = {| Monitor.systemInfoCache := Some p1; Monitor.lastUpdate := 1000 |})
  /\ (exists p1 m' answers,
      Monitor.esm_interleave
        {| Monitor.mon_cache := Monitor.initial_cache;
           Monitor.mon_in_flight := [(1, Sample.esm_host 1000 true)] |}
        (Monitor.Completes 1
           :: [Monitor.Arrives 3 (Sample.esm_host 1500 false)]
           ++ [Monitor.Arrives 2 (Sample.esm_host 2999 false)])
      = (m', (1, Monitor.Json200 p1) :: answers ++ [(2, Monitor.Json200 p1)])
      /\ Monitor.mon_cache m'
         = {| Monitor.systemInfoCache := Some p1; Monitor.lastUpdate := 1000 |}).
Proof.
  destruct (refreshed_payload_is_served_from_cache (num := Q)) as [Hcjs Hesm].
  split.
  - apply (Hcjs _ 1 2 (Sample.cjs_host 1000 false) (Sample.cjs_host 2999 true)).
    + reflexivity.
    + intros _. exists (93784 # 1). reflexivity.
    + apply List.Forall_cons; [exact I|apply List.Forall_nil].
    + simpl. lia.
  - apply (Hesm _ 1 2 (Sample.esm_host 1000 true) (Sample.esm_host 2999 false)).
    + reflexivity.
    + intros [(e & He) | [(e & He) | [(e & He) | (e & He)]]]; discriminate He.
    + apply List.Forall_cons; [exact I|apply List.Forall_nil].
    + simpl. lia.
Defined.

(** C7. In the CommonJS monitor the catch block calls [os.uptime()]
    itself: when a query of the try block throws on a cache miss and
    that call throws as well, [getSystemInfo] rejects, the request is
    answered by the 500 branch, and the cache is left as it was. *)
Theorem failing_uptime_fails_the_request {num : Type} `{JsRuntime num}
        (c : Monitor.cache num) (env : Monitor.cjs_env num) :
  Monitor.cached c (Monitor.cjs_now env) = None ->
  Monitor.cjs_queries_throw env ->
  (exists e, Monitor.cjs_fb_uptime env = Throw e) ->
  Monitor.cjs_system_info c env = (Monitor.Json500, c).
Proof.
  intros Hmiss Hthrow (e & He).
  unfold Monitor.cjs_system_info, Monitor.cjs_getSystemInfo. rewrite Hmiss.
  destruct (cjs_settle_cases c env)
    as [(p & Hp & _) | [(_ & p & Hp & _) | (_ & e' & _ & ->)]].
  - apply cjs_fresh_throws in Hthrow. destruct Hthrow as (e' & He'). congruence.
  - unfold Monitor.cjs_fallback, Monitor.bind in Hp. rewrite He in Hp. discriminate Hp.
  - reflexivity.
Qed.

Lemma failing_uptime_fails_the_request_witness :
  Monitor.cjs_queries_throw (Sample.cjs_host_without_uptime 1000)
  /\ Monitor.cjs_system_info Monitor.initial_cache (Sample.cjs_host_without_uptime 1000)
     = (Monitor.Json500, Monitor.initial_cache).
Proof.
  assert (Hthrow : Monitor.cjs_queries_throw (Sample.cjs_host_without_uptime 1000))
    by (right; right; right; exists "ERR_SYSTEM_ERROR"; reflexivity).
  split; [exact Hthrow|].
  apply (failing_uptime_fails_the_request (num := Q)).
  - reflexivity.
  - exact Hthrow.
  - exists "ERR_SYSTEM_ERROR". reflexivity.
Defined.

(** The same host seen by the ES-module monitor, whose catch block puts
    a constant in [uptime]: the request is answered with status 200. *)
Example esm_answers_without_uptime :
  exists body,
    fst (Monitor.esm_system_info Monitor.initial_cache (Sample.esm_host_without_uptime 1000))
    = Monitor.Json200 body
    /\ Monitor.uptime body = "0d 0h 0m"
    /\ Monitor.error body = Some "Could not fetch real system data".
Proof. eexists. split; [vm_compute; reflexivity|]. split; reflexivity. Qed.

(** * More properties of the code *)

(** ** Message frames: what is stored, saved and relayed *)

Lemma hub_message_outcome JSON_parse old clients now_iso data :
  frame_has_type JSON_parse "message" data = true ->
  hub_on_message JSON_parse (JArr old) clients now_iso data
  = {| messages_after := JArr (hub_message JSON_parse now_iso data :: take 999 old);
       effects := saveMessages (JArr (hub_message JSON_parse now_iso data :: take 999 old))
                    :: broadcast clients (message_frame (hub_message JSON_parse now_iso data));
       thrown := None |}.
Proof.
  intros Hty. destruct (message_frame_payload _ _ Hty) as (props & Hp & Ht).
  unfold hub_on_message, hub_message, payload_message. rewrite Hp. cbn [get_field].
  rewrite Ht.
  set (m := JObj (obj_set "timestamp" (JStr now_iso) (spread (own_prop "message" props)))).
  assert (Hkept : (if 1000 <? length (m :: old) then take 1000 (m :: old) else m :: old)
                  = m :: take 999 old).
  { destruct (Nat.ltb_spec 1000 (length (m :: old))) as [Hlt|Hge]; [reflexivity|].
    simpl in Hge. rewrite take_ge by lia. reflexivity. }
  cbv zeta. rewrite Hkept. reflexivity.
Qed.

Lemma removelast_cons_nonempty {A} (x : A) (l : list A) :
  l <> [] -> removelast (x :: l) = x :: removelast l.
Proof. destruct l; [congruence|reflexivity]. Qed.

Lemma relay_message_outcome JSON_parse old clients now_iso data :
  frame_has_type JSON_parse "message" data = true ->
  let kept := payload_message JSON_parse data
                :: (if length old <? 1000 then old else removelast old) in
  relay_on_message JSON_parse (JArr old) clients now_iso data
  = {| messages_after := JArr kept;
       effects := saveMessages (JArr kept)
                    :: broadcast clients (message_frame (payload_message JSON_parse data));
       thrown := None |}.
Proof.
  intros Hty kept. destruct (message_frame_payload _ _ Hty) as (props & Hp & Ht).
  unfold relay_on_message. subst kept. unfold payload_message. rewrite Hp. cbn [get_field].
  rewrite Ht.
  set (m := own_prop "message" props).
  assert (Hkept : (if 1000 <? length (m :: old) then removelast (m :: old) else m :: old)
                  = m :: (if length old <? 1000 then old else removelast old)).
  { cbn [length]. destruct (Nat.ltb_spec 1000 (S (length old))) as [Hlt|Hge];
      destruct (Nat.ltb_spec (length old) 1000) as [Hlt'|Hge']; try lia; [|reflexivity].
    apply removelast_cons_nonempty. intros ->. simpl in Hge'. lia. }
  cbv zeta. rewrite Hkept. reflexivity.
Qed.

Lemma save_then_broadcast_members kept clients frame :
  let fx := saveMessages kept :: broadcast clients frame in
  (forall path contents, In (WriteFile path contents) fx <->
                         path = MESSAGES_FILE /\ contents = kept)
  /\ (forall to sent, In (Send to sent) fx <->
                      sent = frame /\ exists c, In c clients /\ client_id c = to /\ is_open c).
Proof.
  intros fx. subst fx. unfold saveMessages. split.
  - intros path contents. split.
    + intros [Heq|Hin]; [inversion Heq; auto|].
      unfold broadcast in Hin. apply in_map_iff in Hin. destruct Hin as (? & ? & _).
      discriminate.
    + intros [-> ->]. left. reflexivity.
  - intros to sent. rewrite <- In_broadcast. split.
    + intros [Heq|Hin]; [discriminate|exact Hin].
    + intros Hin. right. exact Hin.
Qed.

Lemma broadcast_as_list clients frame :
  broadcast clients frame
  = map (fun c => Send (client_id c) frame)
        (List.filter (fun c => ready_state_eqb (readyState c) OPEN) clients).
Proof.
  unfold broadcast. f_equal. induction clients as [|c rest IH]; [reflexivity|].
  rewrite filter_cons. cbn [List.filter].
  destruct (decide (ready_state_eqb (readyState c) OPEN = true)) as [Hopen|Hnot].
  - rewrite Hopen, IH. reflexivity.
  - apply not_true_is_false in Hnot. rewrite Hnot. exact IH.
Qed.

(** X1. A "message" frame on an array list: the message built from it
    goes to the front of the list, in front of what is kept of the old
    one; the effects are, in this order, one write of the new list to
    messages.json and one send per client of [wss.clients] that is
    OPEN, in the order of [wss.clients], each carrying the frame
    [{type:"message", message}] with that same message; the sender is
    sent it too when it is one of them.  Nothing is thrown (hub and
    relay). *)
Theorem message_is_stored_saved_and_relayed
        (JSON_parse : string -> option jsval) (old : list jsval)
        (clients : list client) (now_iso data : string) :
  frame_has_type JSON_parse "message" data = true ->
  let open := List.filter (fun c => ready_state_eqb (readyState c) OPEN) clients in
  let stamped := hub_message JSON_parse now_iso data in
  let sent := payload_message JSON_parse data in
  hub_on_message JSON_parse (JArr old) clients now_iso data
  = {| messages_after := JArr (stamped :: take 999 old);
       effects :=
         WriteFile "messages.json" (JArr (stamped :: take 999 old))
           :: map (fun c => Send (client_id c)
                                 (JObj [("type", JStr "message"); ("message", stamped)]))
                  open;
       thrown := None |}
  /\ relay_on_message JSON_parse (JArr old) clients now_iso data
     = {| messages_after :=
            JArr (sent :: (if length old <? 1000 then old else removelast old));
          effects :=
            WriteFile "messages.json"
                      (JArr (sent :: (if length old <? 1000 then old else removelast old)))
              :: map (fun c => Send (client_id c)
                                    (JObj [("type", JStr "message"); ("message", sent)]))
                     open;
          thrown := None |}.
Proof.
  intros Hty open stamped sent. split.
  - rewrite (hub_message_outcome _ _ _ _ _ Hty), broadcast_as_list. reflexivity.
  - rewrite (relay_message_outcome _ _ _ _ _ Hty), broadcast_as_list. reflexivity.
Qed.

Lemma message_is_stored_saved_and_relayed_witness :
  frame_has_type Sample.parse "message" Sample.message_text = true
  /\ effects (hub_on_message Sample.parse (JArr [JStr "old"]) Sample.two_clients
                             Sample.iso Sample.message_text)
     = WriteFile "messages.json"
                 (JArr [hub_message Sample.parse Sample.iso Sample.message_text; JStr "old"])
         :: map (fun c => Send (client_id c)
                               (JObj [("type", JStr "message");
                                      ("message",
                                       hub_message Sample.parse Sample.iso
                                                   Sample.message_text)]))
                (List.filter (fun c => ready_state_eqb (readyState c) OPEN)
                             Sample.two_clients).
Proof.
  assert (Hty : frame_has_type Sample.parse "message" Sample.message_text = true)
    by (vm_compute; reflexivity).
  split; [exact Hty|].
  rewrite (proj1 (message_is_stored_saved_and_relayed Sample.parse
                    [JStr "old"] Sample.two_clients Sample.iso
                    Sample.message_text Hty)).
  reflexivity.
Defined.

(** ** The hub's timestamp *)

Lemma own_prop_obj_set_eq k v props : own_prop k (obj_set k v props) = v.
Proof.
  unfold own_prop. induction props as [|[k' v'] rest IH]; cbn [obj_set find fst snd].
  - rewrite String.eqb_refl. reflexivity.
  - destruct (String.eqb k' k) eqn:Hk; cbn [find fst snd]; rewrite Hk; [reflexivity|exact IH].
Qed.

Lemma own_prop_obj_set_ne k k' v props :
  k' <> k -> own_prop k' (obj_set k v props) = own_prop k' props.
Proof.
  intros Hne. unfold own_prop.
  induction props as [|[k0 v0] rest IH]; cbn [obj_set find fst snd].
  - apply String.eqb_neq in Hne. rewrite String.eqb_sym, Hne. reflexivity.
  - destruct (String.eqb k0 k) eqn:Hk; cbn [find fst snd].
    + apply String.eqb_eq in Hk. subst k0.
      apply String.eqb_neq in Hne. rewrite String.eqb_sym, Hne. reflexivity.
    + destruct (String.eqb k0 k'); [reflexivity|exact IH].
Qed.

Lemma obj_set_length_bounds k v props :
  length props <= length (obj_set k v props) <= S (length props).
Proof.
  induction props as [|[k' v'] rest IH]; cbn [obj_set length]; [lia|].
  destruct (String.eqb k' k); cbn [length]; lia.
Qed.

Lemma hub_message_fields JSON_parse now_iso data :
  exists props,
    hub_message JSON_parse now_iso data = JObj props
    /\ own_prop "timestamp" props = JStr now_iso
    /\ (forall sent, payload_message JSON_parse data = JObj sent ->
          (forall k, k <> "timestamp" -> own_prop k props = own_prop k sent)
          /\ length sent <= length props <= S (length sent))
    /\ (match payload_message JSON_parse data with
        | JUndefined | JNull | JBool _ | JNum _ => props = [("timestamp", JStr now_iso)]
        | _ => True
        end).
Proof.
  unfold hub_message. eexists. split; [reflexivity|]. split; [|split].
  - apply own_prop_obj_set_eq.
  - intros sent ->. cbn [spread]. split.
    + intros k Hk. apply own_prop_obj_set_ne, Hk.
    + apply obj_set_length_bounds.
  - destruct (payload_message JSON_parse data); reflexivity || exact I.
Qed.

(** X2. Whatever the client sent in a "message" frame, what the hub puts
    at the front of the list is an object whose [timestamp] is the
    server's clock reading: a [timestamp] supplied by the client is
    overwritten, and every other field of an object payload is kept as
    sent.  A frame without a usable [message] (absent, null, a number, a
    boolean) is stored as an object holding the timestamp alone. *)
Theorem hub_stamps_every_message
        (JSON_parse : string -> option jsval) (old : list jsval)
        (clients : list client) (now_iso data : string) :
  frame_has_type JSON_parse "message" data = true ->
  exists props rest,
    messages_after (hub_on_message JSON_parse (JArr old) clients now_iso data)
    = JArr (JObj props :: rest)
    /\ own_prop "timestamp" props = JStr now_iso
    /\ (forall sent, payload_message JSON_parse data = JObj sent ->
          (forall k, k <> "timestamp" -> own_prop k props = own_prop k sent)
          /\ length sent <= length props <= S (length sent))
    /\ (match payload_message JSON_parse data with
        | JUndefined | JNull | JBool _ | JNum _ => props = [("timestamp", JStr now_iso)]
        | _ => True
        end).
Proof.
  intros Hty. rewrite (hub_message_outcome _ _ _ _ _ Hty). cbn [messages_after].
  destruct (hub_message_fields JSON_parse now_iso data) as (props & -> & Hfields).
  exists props, (take 999 old). split; [reflexivity|exact Hfields].
Qed.

Lemma hub_stamps_every_message_witness :
  frame_has_type Sample.parse "message" Sample.message_text = true
  /\ exists props rest,
      messages_after (hub_on_message Sample.parse (JArr []) Sample.two_clients
                                     Sample.iso Sample.message_text)
      = JArr (JObj props :: rest)
      /\ own_prop "timestamp" props = JStr Sample.iso.
Proof.
  assert (Hty : frame_has_type Sample.parse "message" Sample.message_text = true)
    by (vm_compute; reflexivity).
  split; [exact Hty|].
  destruct (hub_stamps_every_message Sample.parse [] Sample.two_clients Sample.iso
              Sample.message_text Hty) as (props & rest & Hm & Hts & _).
  exists props, rest. split; [exact Hm|exact Hts].
Defined.

Example hub_overwrites_client_timestamp :
  obj_set "timestamp" (JStr "server")
          (spread (JObj [("id", JStr "1"); ("timestamp", JStr "client"); ("text", JStr "hi")]))
  = [("id", JStr "1"); ("timestamp", JStr "server"); ("text", JStr "hi")].
Proof. reflexivity. Qed.

(** ** The cap on lists that start over it *)

(** X3. The hub's cap does not depend on the list it starts from: after
    a "message" frame the list holds min (n + 1) 1000 messages, also when
    the history loaded from the file had more than 1000. *)
Theorem hub_cap_holds_from_any_list
        (JSON_parse : string -> option jsval) (old : list jsval)
        (clients : list client) (now_iso data : string) :
  frame_has_type JSON_parse "message" data = true ->
  exists kept,
    messages_after (hub_on_message JSON_parse (JArr old) clients now_iso data) = JArr kept
    /\ length kept = Nat.min (S (length old)) 1000
    /\ kept = take 1000 (hub_message JSON_parse now_iso data :: old).
Proof.
  intros Hty. rewrite (hub_message_outcome _ _ _ _ _ Hty). cbn [messages_after].
  eexists. split; [reflexivity|]. split; [|reflexivity].
  cbn [length]. rewrite length_take. lia.
Qed.

Lemma hub_cap_holds_from_any_list_witness :
  frame_has_type Sample.parse "message" Sample.message_text = true
  /\ exists kept,
      messages_after (hub_on_message Sample.parse (JArr (repeat JNull 1500))
                                     Sample.two_clients Sample.iso Sample.message_text)
      = JArr kept
      /\ length kept = 1000.
Proof.
  assert (Hty : frame_has_type Sample.parse "message" Sample.message_text = true)
    by (vm_compute; reflexivity).
  split; [exact Hty|].
  destruct (hub_cap_holds_from_any_list Sample.parse (repeat JNull 1500)
              Sample.two_clients Sample.iso Sample.message_text Hty)
    as (kept & Hkept & Hlen & _).
  exists kept. split; [exact Hkept|]. rewrite Hlen, repeat_length. reflexivity.
Defined.

(** X4. The relay pops one message per frame, so it keeps the cap only
    if the list was within it: from a list of 1000 or more the length
    stays what it was (the new message in, the oldest out), it never
    comes back down to 1000. *)
Theorem relay_never_shrinks_an_oversize_list
        (JSON_parse : string -> option jsval) (old : list jsval)
        (clients : list client) (now_iso data : string) :
  frame_has_type JSON_parse "message" data = true ->
  exists kept,
    messages_after (relay_on_message JSON_parse (JArr old) clients now_iso data) = JArr kept
    /\ (length old < 1000 -> kept = payload_message JSON_parse data :: old)
    /\ (1000 <= length old ->
        kept = payload_message JSON_parse data :: removelast old
        /\ length kept = length old).
Proof.
  intros Hty. rewrite (relay_message_outcome _ _ _ _ _ Hty). cbn [messages_after].
  eexists. split; [reflexivity|]. split.
  - intros Hlt. apply Nat.ltb_lt in Hlt. rewrite Hlt. reflexivity.
  - intros Hge. destruct (Nat.ltb_spec (length old) 1000) as [Hlt|_]; [lia|].
    split; [reflexivity|]. cbn [length].
    rewrite removelast_firstn_len, length_take. lia.
Qed.

Lemma relay_never_shrinks_an_oversize_list_witness :
  frame_has_type Sample.parse "message" Sample.message_text = true
  /\ exists kept,
      messages_after (relay_on_message Sample.parse (JArr (repeat JNull 1500))
                                       Sample.two_clients Sample.iso Sample.message_text)
      = JArr kept
      /\ length kept = 1500.
Proof.
  assert (Hty : frame_has_type Sample.parse "message" Sample.message_text = true)
    by (vm_compute; reflexivity).
  split; [exact Hty|].
  destruct (relay_never_shrinks_an_oversize_list Sample.parse (repeat JNull 1500)
              Sample.two_clients Sample.iso Sample.message_text Hty)
    as (kept & Hkept & _ & Hover).
  exists kept. split; [exact Hkept|].
  destruct Hover as [_ Hlen]; [rewrite repeat_length; lia|].
  rewrite Hlen, repeat_length. reflexivity.
Defined.

(** ** The list, the file and the sockets along a run *)

Lemma removelast_prefix {A} (l : list A) : removelast l `prefix_of` l.
Proof. rewrite removelast_firstn_len. apply prefix_take. Qed.

(** The branches of a message handler again, closing the ones that do
    nothing with [idle]. *)
Ltac handler_branches_with idle :=
  match goal with
  | |- context [match ?JSON_parse ?data with Some _ => _ | None => _ end] =>
      destruct (JSON_parse data) as [payload|]; [|idle];
      destruct (get_field payload "type") as [ty|]; [|idle];
      destruct (strict_eq_str ty "message");
      [ destruct (get_field payload "message") as [pm|]; [|idle]
      | destruct (strict_eq_str ty "clear"); [|idle] ]
  end.

Lemma hub_keeps_a_prefix JSON_parse : keeps_a_prefix (hub_on_message JSON_parse).
Proof.
  intros messages clients now_iso data. cbv zeta. unfold hub_on_message.
  handler_branches_with ltac:(left; split; reflexivity).
  - destruct messages as [| | | | |old|]; try (left; split; reflexivity).
    right. right. eexists old, _, _. split; [reflexivity|].
    cbn [messages_after thrown effects]. split; [reflexivity|].
    split; [|split; reflexivity].
    destruct (1000 <? _); [apply prefix_take|reflexivity].
  - right. left. repeat split.
Qed.

Lemma relay_keeps_a_prefix JSON_parse : keeps_a_prefix (relay_on_message JSON_parse).
Proof.
  intros messages clients now_iso data. cbv zeta. unfold relay_on_message.
  handler_branches_with ltac:(left; split; reflexivity).
  - destruct messages as [| | | | |old|]; try (left; split; reflexivity).
    right. right. eexists old, _, _. split; [reflexivity|].
    cbn [messages_after thrown effects]. split; [reflexivity|].
    split; [|split; reflexivity].
    destruct (1000 <? _); [apply removelast_prefix|reflexivity].
  - right. left. repeat split.
Qed.

Lemma last_saved_app fx1 fx2 :
  last_saved (fx1 ++ fx2)
  = match last_saved fx2 with Some v => Some v | None => last_saved fx1 end.
Proof.
  induction fx1 as [|[to frame|path contents] rest IH]; cbn [app last_saved].
  - destruct (last_saved fx2); reflexivity.
  - exact IH.
  - rewrite IH. destruct (last_saved fx2); reflexivity.
Qed.

Lemma last_saved_broadcast clients frame : last_saved (broadcast clients frame) = None.
Proof.
  unfold broadcast. induction (filter _ clients) as [|c rest IH]; [reflexivity|exact IH].
Qed.

Lemma run_dead on_message s es :
  srv_alive s = false -> run on_message s es = (s, []).
Proof.
  intros Hdead. induction es as [|e rest IH]; [reflexivity|].
  cbn [run]. unfold step. rewrite Hdead. cbn [negb]. rewrite IH. reflexivity.
Qed.

Section KeptPrefix.

Variable on_message : jsval -> list client -> string -> string -> outcome.
Hypothesis Hkeeps : keeps_a_prefix on_message.

(** One step either writes its new list last, or writes nothing and
    leaves the list. *)
Lemma step_last_saved s e :
  match last_saved (snd (step on_message s e)) with
  | Some v => v = srv_messages (fst (step on_message s e))
  | None => srv_messages (fst (step on_message s e)) = srv_messages s
  end.
Proof.
  unfold step. destruct (srv_alive s); cbn [negb]; [|reflexivity].
  destruct e as [w|w now_iso data|w|w]; cbn [fst snd srv_messages]; try reflexivity.
  destruct (Hkeeps (srv_messages s) (srv_clients s) now_iso data)
    as [[Hfx Hm] | [(Hm & _ & Hfx) | (old & m & kept & _ & Hm & _ & _ & Hfx)]];
    rewrite Hfx; cbn [last_saved saveMessages]; rewrite ?last_saved_broadcast; congruence.
Qed.

Lemma run_last_saved es s :
  match last_saved (snd (run on_message s es)) with
  | Some v => v = srv_messages (fst (run on_message s es))
  | None => srv_messages (fst (run on_message s es)) = srv_messages s
  end.
Proof.
  revert s. induction es as [|e rest IH]; intros s; [reflexivity|].
  cbn [run]. pose proof (step_last_saved s e) as Hstep.
  destruct (step on_message s e) as [s1 fx1]. cbn [fst snd] in Hstep.
  specialize (IH s1). destruct (run on_message s1 rest) as [s2 fx2]. cbn [fst snd] in *.
  rewrite last_saved_app. destruct (last_saved fx2); [exact IH|].
  destruct (last_saved fx1); congruence.
Qed.

Lemma run_keeps_array es s old :
  srv_messages s = JArr old ->
  exists l, srv_messages (fst (run on_message s es)) = JArr l.
Proof.
  revert s old. induction es as [|e rest IH]; intros s old Hs; [simpl; eauto|].
  cbn [run].
  assert (Hstep : exists l, srv_messages (fst (step on_message s e)) = JArr l).
  { unfold step. destruct (srv_alive s); cbn [negb]; [|eauto].
    destruct e as [w|w now_iso data|w|w]; cbn [fst srv_messages]; eauto.
    destruct (Hkeeps (srv_messages s) (srv_clients s) now_iso data)
      as [[_ Hm] | [(Hm & _) | (? & ? & kept & _ & Hm & _)]]; rewrite Hm; eauto. }
  destruct Hstep as (l & Hl). destruct (step on_message s e) as [s1 fx1]. cbn [fst] in Hl.
  destruct (IH s1 l Hl) as (l' & Hl'). destruct (run on_message s1 rest) as [s2 fx2].
  eauto.
Qed.

End KeptPrefix.

(** X5. Along any run the messages file is asked to hold what memory
    holds: the last write issued carries the list the server ends with,
    and a run that issues no write leaves the list as it was (hub and
    relay, from any state, whether or not a handler throws on the way). *)
Theorem last_write_is_the_list_in_memory
        (JSON_parse : string -> option jsval)
        (on_message : jsval -> list client -> string -> string -> outcome)
        (s : server) (es : list event) :
  on_message = hub_on_message JSON_parse \/ on_message = relay_on_message JSON_parse ->
  match last_saved (snd (run on_message s es)) with
  | Some written => written = srv_messages (fst (run on_message s es))
  | None => srv_messages (fst (run on_message s es)) = srv_messages s
  end.
Proof.
  intros Hwhich. apply run_last_saved.
  destruct Hwhich as [-> | ->]; [apply hub_keeps_a_prefix | apply relay_keeps_a_prefix].
Qed.

Lemma last_write_is_the_list_in_memory_witness :
  last_saved (snd (run (hub_on_message Sample.parse) (empty_server Sample.two_clients)
                       [Frame 1 Sample.iso Sample.message_text; Connect 7;
                        Frame 7 Sample.iso Sample.clear_text;
                        Frame 1 Sample.iso Sample.message_text]))
  = Some (JArr [hub_message Sample.parse Sample.iso Sample.message_text]).
Proof.
  pose proof (last_write_is_the_list_in_memory Sample.parse (hub_on_message Sample.parse)
                (empty_server Sample.two_clients)
                [Frame 1 Sample.iso Sample.message_text; Connect 7;
                 Frame 7 Sample.iso Sample.clear_text;
                 Frame 1 Sample.iso Sample.message_text] (or_introl eq_refl)) as W.
  destruct (last_saved _) as [written|] eqn:Hlast in W |- *.
  - rewrite W. vm_compute. reflexivity.
  - vm_compute in Hlast. discriminate Hlast.
Defined.

(** ** Frames that make the handler throw *)

Lemma hub_throws JSON_parse messages clients now_iso data :
  let o := hub_on_message JSON_parse messages clients now_iso data in
  (thrown o = None \/ thrown o = Some TypeError)
  /\ (thrown o = Some TypeError <->
      JSON_parse data = Some JNull \/ JSON_parse data = Some JUndefined
      \/ (frame_has_type JSON_parse "message" data = true /\ forall l, messages <> JArr l))
  /\ (thrown o <> None -> messages_after o = messages /\ effects o = []).
Proof.
  cbv zeta. unfold hub_on_message, frame_has_type.
  destruct (JSON_parse data) as [payload|].
  - destruct payload; cbn [get_field];
      try (destruct (strict_eq_str _ "message") eqn:Hm;
           [ destruct messages;
             cbn [thrown messages_after effects]
           | destruct (strict_eq_str _ "clear"); cbn [thrown messages_after effects] ]);
      cbn [thrown messages_after effects];
      (split; [auto|split; [split|]]);
      try (intros [H|[H|[H H']]];
           first [discriminate | congruence | exfalso; eapply H'; reflexivity]);
      try (intros H; discriminate H || congruence || (split; reflexivity));
      try (intros _; auto);
      try (intros _; right; right; split; [reflexivity|]; intros l; discriminate).
  - cbn [thrown messages_after effects]. split; [auto|]. split; [split|].
    + discriminate.
    + intros [H|[H|[H _]]]; discriminate.
    + congruence.
Qed.

Lemma relay_throws JSON_parse messages clients now_iso data :
  let o := relay_on_message JSON_parse messages clients now_iso data in
  (thrown o = None \/ thrown o = Some TypeError)
  /\ (thrown o = Some TypeError <->
      JSON_parse data = Some JNull \/ JSON_parse data = Some JUndefined
      \/ (frame_has_type JSON_parse "message" data = true /\ forall l, messages <> JArr l))
  /\ (thrown o <> None -> messages_after o = messages /\ effects o = []).
Proof.
  cbv zeta. unfold relay_on_message, frame_has_type.
  destruct (JSON_parse data) as [payload|].
  - destruct payload; cbn [get_field];
      try (destruct (strict_eq_str _ "message") eqn:Hm;
           [ destruct messages;
             cbn [thrown messages_after effects]
           | destruct (strict_eq_str _ "clear"); cbn [thrown messages_after effects] ]);
      cbn [thrown messages_after effects];
      (split; [auto|split; [split|]]);
      try (intros [H|[H|[H H']]];
           first [discriminate | congruence | exfalso; eapply H'; reflexivity]);
      try (intros H; discriminate H || congruence || (split; reflexivity));
      try (intros _; auto);
      try (intros _; right; right; split; [reflexivity|]; intros l; discriminate).
  - cbn [thrown messages_after effects]. split; [auto|]. split; [split|].
    + discriminate.
    + intros [H|[H|[H _]]]; discriminate.
    + congruence.
Qed.

(** X6. The message handler throws, a TypeError that nothing catches,
    in exactly two situations: the frame parses to [null] (or to a value
    without properties), where reading [payload.type] fails outside the
    try block; or the frame is a "message" while the list, as loaded from
    the file, is not an array and so has no [unshift].  When it throws
    the list is untouched and nothing was written or sent (hub and
    relay). *)
Theorem handler_throws_exactly_when
        (JSON_parse : string -> option jsval) (messages : jsval)
        (clients : list client) (now_iso data : string) (o : outcome) :
  o = hub_on_message JSON_parse messages clients now_iso data
  \/ o = relay_on_message JSON_parse messages clients now_iso data ->
  (thrown o = None \/ thrown o = Some TypeError)
  /\ (thrown o = Some TypeError <->
      JSON_parse data = Some JNull \/ JSON_parse data = Some JUndefined
      \/ (frame_has_type JSON_parse "message" data = true /\ forall l, messages <> JArr l))
  /\ (thrown o <> None -> messages_after o = messages /\ effects o = []).
Proof.
  intros [-> | ->]; [apply hub_throws | apply relay_throws].
Qed.

Lemma handler_throws_exactly_when_witness :
  thrown (relay_on_message Sample.parse (JObj []) Sample.two_clients Sample.iso
                           Sample.message_text) = Some TypeError.
Proof.
  apply (proj1 (proj2 (handler_throws_exactly_when Sample.parse (JObj []) Sample.two_clients
                         Sample.iso Sample.message_text _ (or_intror eq_refl)))).
  right. right. split; [vm_compute; reflexivity|]. intros l. discriminate.
Defined.

(** X7. One frame [null] from any socket ends the server: the handler
    throws, the list is as it was, and whatever arrives afterwards, be
    it frames or new connections, is not handled: no write, no send
    (hub and relay). *)
Theorem null_frame_ends_the_server
        (JSON_parse : string -> option jsval)
        (on_message : jsval -> list client -> string -> string -> outcome)
        (s : server) (ws : nat) (now_iso data : string) (es : list event) :
  on_message = hub_on_message JSON_parse \/ on_message = relay_on_message JSON_parse ->
  srv_alive s = true ->
  JSON_parse data = Some JNull ->
  run on_message s (Frame ws now_iso data :: es)
  = ({| srv_messages := srv_messages s; srv_clients := srv_clients s; srv_alive := false |},
     []).
Proof.
  intros Hwhich Halive Hnull.
  assert (Hout : on_message (srv_messages s) (srv_clients s) now_iso data
                 = {| messages_after := srv_messages s; effects := [];
                      thrown := Some TypeError |}).
  { destruct Hwhich as [-> | ->]; unfold hub_on_message, relay_on_message;
      rewrite Hnull; reflexivity. }
  cbn [run]. unfold step. rewrite Halive, Hout. cbn [negb messages_after effects thrown].
  rewrite run_dead by reflexivity. reflexivity.
Qed.

Lemma null_frame_ends_the_server_witness :
  run (hub_on_message Sample.parse) (empty_server Sample.two_clients)
      (Frame 2 Sample.iso "null"
         :: [Connect 7; Frame 1 Sample.iso Sample.message_text])
  = ({| srv_messages := JArr []; srv_clients := Sample.two_clients; srv_alive := false |},
     []).
Proof.
  apply (null_frame_ends_the_server Sample.parse); [left| |]; reflexivity.
Defined.

(** ** Who is sent what *)

Lemma copies_cons ws c rest :
  copies ws (c :: rest)
  = (if Nat.eqb (client_id c) ws && ready_state_eqb (readyState c) OPEN then 1 else 0)
    + copies ws rest.
Proof.
  unfold copies. rewrite filter_cons.
  destruct (Nat.eqb (client_id c) ws && ready_state_eqb (readyState c) OPEN);
    destruct (decide _); try congruence; reflexivity.
Qed.

Lemma broadcast_cons c rest frame :
  broadcast (c :: rest) frame
  = (if ready_state_eqb (readyState c) OPEN then [Send (client_id c) frame] else [])
      ++ broadcast rest frame.
Proof.
  unfold broadcast. rewrite filter_cons.
  destruct (ready_state_eqb (readyState c) OPEN); destruct (decide _); try congruence;
    reflexivity.
Qed.

Lemma sends_to_broadcast_copies ws clients frame :
  sends_to ws (broadcast clients frame) = repeat frame (copies ws clients).
Proof.
  induction clients as [|c rest IH]; [reflexivity|].
  rewrite broadcast_cons, copies_cons, sends_to_app, IH.
  destruct (ready_state_eqb (readyState c) OPEN); cbn [sends_to omap list_omap];
    destruct (Nat.eqb (client_id c) ws); reflexivity.
Qed.

Lemma copies_app ws cl1 cl2 : copies ws (cl1 ++ cl2) = copies ws cl1 + copies ws cl2.
Proof. unfold copies. rewrite filter_app, length_app. reflexivity. Qed.

Lemma copies_stranger ws clients :
  ~ In ws (map client_id clients) -> copies ws clients = 0.
Proof.
  induction clients as [|c rest IH]; intros Hnot; [reflexivity|].
  simpl in Hnot. rewrite copies_cons, IH by tauto.
  destruct (Nat.eqb_spec (client_id c) ws) as [Heq|Hne]; [tauto|reflexivity].
Qed.

Lemma copies_set_closing ws w clients :
  copies ws (map (set_closing w) clients) = if Nat.eqb w ws then 0 else copies ws clients.
Proof.
  induction clients as [|c rest IH]; cbn [map].
  - destruct (Nat.eqb w ws); reflexivity.
  - rewrite !copies_cons, IH. unfold set_closing.
    destruct (Nat.eqb_spec (client_id c) w) as [Hcw|Hcw]; cbn [client_id readyState].
    + subst w. rewrite andb_false_r.
      destruct (Nat.eqb (client_id c) ws); reflexivity.
    + destruct (Nat.eqb_spec w ws) as [Hw|Hw]; [|reflexivity].
      subst w. apply Nat.eqb_neq in Hcw. rewrite Hcw. reflexivity.
Qed.

Lemma copies_disconnect ws w clients :
  copies ws (filter (fun c => negb (Nat.eqb (client_id c) w) = true) clients)
  = if Nat.eqb w ws then 0 else copies ws clients.
Proof.
  induction clients as [|c rest IH].
  - destruct (Nat.eqb w ws); reflexivity.
  - rewrite filter_cons.
    destruct (Nat.eqb_spec (client_id c) w) as [Hcw|Hcw]; cbn [negb];
      destruct (decide _) as [Hd|Hd]; try congruence; rewrite !copies_cons, ?IH.
    + subst w. destruct (Nat.eqb (client_id c) ws); reflexivity.
    + destruct (Nat.eqb_spec w ws) as [Hw|Hw]; [|reflexivity].
      subst w. apply Nat.eqb_neq in Hcw. rewrite Hcw. reflexivity.
Qed.

Lemma sends_to_save ws saved fx :
  sends_to ws (saveMessages saved :: fx) = sends_to ws fx.
Proof. reflexivity. Qed.

Section Unreachable.

Variable on_message : jsval -> list client -> string -> string -> outcome.
Hypothesis Hkeeps : keeps_a_prefix on_message.

Lemma step_unreachable s e ws :
  copies ws (srv_clients s) = 0 ->
  e <> Connect ws ->
  sends_to ws (snd (step on_message s e)) = []
  /\ copies ws (srv_clients (fst (step on_message s e))) = 0.
Proof.
  intros Hzero He. unfold step. destruct (srv_alive s); cbn [negb]; [|auto].
  destruct e as [w|w now_iso data|w|w]; cbn [fst snd srv_clients].
  - split.
    + unfold on_connection. cbn [sends_to omap list_omap].
      destruct (Nat.eqb_spec w ws) as [->|Hne]; [congruence|reflexivity].
    + rewrite copies_app, Hzero, copies_cons. cbn [client_id].
      destruct (Nat.eqb_spec w ws) as [->|Hne]; [congruence|reflexivity].
  - split; [|exact Hzero].
    destruct (Hkeeps (srv_messages s) (srv_clients s) now_iso data)
      as [[Hfx _] | [(_ & _ & Hfx) | (? & ? & ? & _ & _ & _ & _ & Hfx)]];
      rewrite Hfx; [reflexivity| |];
      rewrite sends_to_save, sends_to_broadcast_copies, Hzero; reflexivity.
  - split; [reflexivity|]. rewrite copies_set_closing. destruct (Nat.eqb w ws); auto.
  - split; [reflexivity|]. rewrite copies_disconnect. destruct (Nat.eqb w ws); auto.
Qed.

Lemma run_unreachable es s ws :
  copies ws (srv_clients s) = 0 ->
  ~ In (Connect ws) es ->
  sends_to ws (snd (run on_message s es)) = []
  /\ copies ws (srv_clients (fst (run on_message s es))) = 0.
Proof.
  revert s. induction es as [|e rest IH]; intros s Hzero Hcon; [auto|].
  cbn [run]. simpl in Hcon.
  destruct (step_unreachable s e ws Hzero) as [Hfx Hnext]; [intros ->; tauto|].
  destruct (step on_message s e) as [s1 fx1]. cbn [fst snd] in *.
  destruct (IH s1 Hnext) as [IHfx IHnext]; [tauto|].
  destruct (run on_message s1 rest) as [s2 fx2]. cbn [fst snd] in *.
  rewrite sends_to_app, Hfx, IHfx. auto.
Qed.

End Unreachable.

(** X8. A socket that has started closing, or has been removed from
    [wss.clients], is sent nothing more, whatever frames the others send,
    until it connects again: the relay skips every socket that is not
    OPEN (hub and relay). *)
Theorem closing_socket_is_sent_nothing
        (JSON_parse : string -> option jsval)
        (on_message : jsval -> list client -> string -> string -> outcome)
        (s : server) (ws : nat) (e : event) (es : list event) :
  on_message = hub_on_message JSON_parse \/ on_message = relay_on_message JSON_parse ->
  e = StartClose ws \/ e = Disconnect ws ->
  ~ In (Connect ws) es ->
  sends_to ws (snd (run on_message s (e :: es))) = [].
Proof.
  intros Hwhich He Hcon.
  assert (Hkeeps : keeps_a_prefix on_message)
    by (destruct Hwhich as [-> | ->]; [apply hub_keeps_a_prefix | apply relay_keeps_a_prefix]).
  cbn [run]. destruct (srv_alive s) eqn:Halive.
  - assert (Hstep : snd (step on_message s e) = []
                    /\ copies ws (srv_clients (fst (step on_message s e))) = 0).
    { unfold step. rewrite Halive. cbn [negb].
      destruct He as [-> | ->]; cbn [fst snd srv_clients]; (split; [reflexivity|]).
      - rewrite copies_set_closing, Nat.eqb_refl. reflexivity.
      - rewrite copies_disconnect, Nat.eqb_refl. reflexivity. }
    destruct Hstep as [Hfx Hzero]. destruct (step on_message s e) as [s1 fx1].
    cbn [fst snd] in *. subst fx1.
    destruct (run_unreachable on_message Hkeeps es s1 ws Hzero Hcon) as [Hnone _].
    destruct (run on_message s1 es) as [s2 fx2]. exact Hnone.
  - unfold step. rewrite Halive. cbn [negb]. rewrite run_dead by exact Halive. reflexivity.
Qed.

Lemma closing_socket_is_sent_nothing_witness :
  sends_to 1 (snd (run (hub_on_message Sample.parse) (empty_server Sample.two_clients)
                       (StartClose 1 :: [Frame 2 Sample.iso Sample.message_text;
                                         Frame 2 Sample.iso Sample.clear_text]))) = [].
Proof.
  apply (closing_socket_is_sent_nothing Sample.parse); [left; reflexivity|left; reflexivity|].
  simpl. intros [H|[H|[]]]; discriminate H.
Defined.

(** ** The client's copy of the list *)

Section Replica.

Variable JSON_parse : string -> option jsval.
Variable JSON_stringify : jsval -> string.
Variable on_message : jsval -> list client -> string -> string -> outcome.
Hypothesis Hkeeps : keeps_a_prefix on_message.
Variable ws : nat.

Local Abbreviation arrives := (Client.arrives JSON_parse JSON_stringify).

Lemma receive_app messages frames1 frames2 :
  Client.receive JSON_parse messages (frames1 ++ frames2)
  = match Client.receive JSON_parse messages frames1 with
    | Normal messages' => Client.receive JSON_parse messages' frames2
    | Throw e => Throw e
    end.
Proof.
  revert messages. induction frames1 as [|f rest IH]; intros messages; [reflexivity|].
  cbn [app Client.receive]. destruct (Client.onmessage JSON_parse messages f); [apply IH|].
  reflexivity.
Qed.

Lemma client_gets_init view sent :
  arrives (init_frame (JArr sent)) ->
  Client.onmessage JSON_parse view (JSON_stringify (init_frame (JArr sent)))
  = Normal (JArr sent).
Proof. unfold Client.arrives, Client.onmessage. intros ->. reflexivity. Qed.

Lemma client_gets_clear view :
  arrives clear_frame ->
  Client.onmessage JSON_parse view (JSON_stringify clear_frame) = Normal (JArr []).
Proof. unfold Client.arrives, Client.onmessage. intros ->. reflexivity. Qed.

Lemma client_gets_message shown message :
  arrives (message_frame message) ->
  Client.onmessage JSON_parse (JArr shown) (JSON_stringify (message_frame message))
  = Normal (JArr (message :: shown)).
Proof. unfold Client.arrives, Client.onmessage. intros ->. reflexivity. Qed.

(** One event, seen from the server and from a client that is connected
    once and stays open. *)
Lemma step_replica s e kept shown :
  srv_messages s = JArr kept ->
  kept `prefix_of` shown ->
  (srv_alive s = true -> copies ws (srv_clients s) = 1) ->
  stays_open ws e ->
  Forall arrives (sends_to ws (snd (step on_message s e))) ->
  exists kept' shown',
    srv_messages (fst (step on_message s e)) = JArr kept'
    /\ Client.receive JSON_parse (JArr shown)
         (map JSON_stringify (sends_to ws (snd (step on_message s e))))
       = Normal (JArr shown')
    /\ kept' `prefix_of` shown'
    /\ (srv_alive (fst (step on_message s e)) = true ->
        copies ws (srv_clients (fst (step on_message s e))) = 1).
Proof.
  intros Hs Hpre Hone (Hcon & Hclosing & Hgone) Hwire. unfold step in *.
  destruct (srv_alive s) eqn:Halive; cbn [negb] in *.
  2:{ exists kept, shown. cbn [fst snd sends_to omap list_omap map Client.receive].
      split_and!; auto. rewrite Halive. discriminate. }
  specialize (Hone eq_refl).
  destruct e as [w|w now_iso data|w|w]; cbn [fst snd srv_messages srv_clients srv_alive] in *.
  - assert (Hw : Nat.eqb w ws = false) by (apply Nat.eqb_neq; congruence).
    exists kept, shown. unfold on_connection. cbn [sends_to omap list_omap]. rewrite Hw.
    split_and!; auto. intros _. rewrite copies_app, Hone, copies_cons. cbn [client_id].
    rewrite Hw. reflexivity.
  - destruct (Hkeeps (srv_messages s) (srv_clients s) now_iso data)
      as [[Hfx Hm] | [(Hm & Ht & Hfx) | (old & m & kept' & Hold & Hm & Hpre' & Ht & Hfx)]];
      rewrite Hfx in *; rewrite Hm.
    + exists kept, shown. split_and!; auto.
    + rewrite sends_to_save, sends_to_broadcast_copies, Hone in *. cbn [repeat map] in *.
      exists [], []. inversion Hwire as [|? ? Hclear _]; subst.
      cbn [Client.receive]. rewrite (client_gets_clear _ Hclear).
      split_and!; auto.
    + rewrite sends_to_save, sends_to_broadcast_copies, Hone in *. cbn [repeat map] in *.
      exists kept', (m :: shown). inversion Hwire as [|? ? Hmsg _]; subst.
      cbn [Client.receive]. rewrite (client_gets_message _ _ Hmsg).
      split_and!; auto.
      rewrite Hs in Hold. injection Hold as <-.
      etransitivity; [exact Hpre'|]. apply prefix_cons, Hpre.
  - exists kept, shown. split_and!; auto. intros _. rewrite copies_set_closing.
    destruct (Nat.eqb_spec w ws) as [->|_]; [congruence|exact Hone].
  - exists kept, shown. split_and!; auto. intros _. rewrite copies_disconnect.
    destruct (Nat.eqb_spec w ws) as [->|_]; [congruence|exact Hone].
Qed.

Lemma run_replica es s kept shown :
  srv_messages s = JArr kept ->
  kept `prefix_of` shown ->
  (srv_alive s = true -> copies ws (srv_clients s) = 1) ->
  Forall (stays_open ws) es ->
  Forall arrives (sends_to ws (snd (run on_message s es))) ->
  exists kept' shown',
    srv_messages (fst (run on_message s es)) = JArr kept'
    /\ Client.receive JSON_parse (JArr shown)
         (map JSON_stringify (sends_to ws (snd (run on_message s es))))
       = Normal (JArr shown')
    /\ kept' `prefix_of` shown'.
Proof.
  revert s kept shown. induction es as [|e rest IH]; intros s kept shown Hs Hpre Hone Hopen Hwire.
  - exists kept, shown. split_and!; auto.
  - inversion Hopen as [|? ? He Hrest]; subst. cbn [run] in *.
    pose proof (step_replica s e kept shown Hs Hpre Hone He) as Hstep.
    destruct (step on_message s e) as [s1 fx1]. cbn [fst snd] in Hstep.
    pose proof (IH s1) as IHs. destruct (run on_message s1 rest) as [s2 fx2].
    cbn [fst snd] in *. rewrite sends_to_app in Hwire. apply Forall_app in Hwire.
    destruct Hwire as [Hwire1 Hwire2].
    destruct (Hstep Hwire1) as (kept1 & shown1 & Hs1 & Hrecv1 & Hpre1 & Hone1).
    destruct (IHs kept1 shown1 Hs1 Hpre1 Hone1 Hrest Hwire2)
      as (kept2 & shown2 & Hs2 & Hrecv2 & Hpre2).
    exists kept2, shown2. split_and!; auto.
    rewrite sends_to_app, map_app, receive_app, Hrecv1. exact Hrecv2.
Qed.

Lemma run_connect s' es :
  srv_alive s' = true ->
  run on_message s' (Connect ws :: es)
  = (fst (run on_message
              {| srv_messages := srv_messages s';
                 srv_clients := srv_clients s' ++ [{| client_id := ws; readyState := OPEN |}];
                 srv_alive := true |} es),
     Send ws (init_frame (srv_messages s'))
       :: snd (run on_message
                   {| srv_messages := srv_messages s';
                      srv_clients := srv_clients s'
                                       ++ [{| client_id := ws; readyState := OPEN |}];
                      srv_alive := true |} es)).
Proof.
  intros Halive. cbn [run]. unfold step. rewrite Halive. cbn [negb].
  destruct (run on_message _ es) as [s2 fx2]. reflexivity.
Qed.

Lemma connect_replica s es1 es2 old :
  srv_messages s = JArr old ->
  ~ In ws (map client_id (srv_clients s)) ->
  ~ In (Connect ws) es1 ->
  Forall (stays_open ws) es2 ->
  srv_alive (fst (run on_message s es1)) = true ->
  Forall arrives (sends_to ws (snd (run on_message s (es1 ++ Connect ws :: es2)))) ->
  exists kept shown,
    srv_messages (fst (run on_message s (es1 ++ Connect ws :: es2))) = JArr kept
    /\ Client.receive JSON_parse (JArr [])
         (map JSON_stringify
              (sends_to ws (snd (run on_message s (es1 ++ Connect ws :: es2)))))
       = Normal (JArr shown)
    /\ kept `prefix_of` shown.
Proof.
  intros Hs Hnot Hc1 Hopen Halive. rewrite run_app. cbn [fst snd].
  destruct (run_unreachable on_message Hkeeps es1 s ws (copies_stranger _ _ Hnot) Hc1)
    as [Hquiet Hzero].
  destruct (run_keeps_array on_message Hkeeps es1 s old Hs) as (at_connect & Hat).
  rewrite sends_to_app, Hquiet, (run_connect _ es2 Halive). cbn [app fst snd].
  set (s1 := {| srv_messages := srv_messages (fst (run on_message s es1));
                srv_clients := srv_clients (fst (run on_message s es1))
                                 ++ [{| client_id := ws; readyState := OPEN |}];
                srv_alive := true |}).
  pose proof (run_replica es2 s1 at_connect at_connect) as Hrun.
  cbn [sends_to omap list_omap]. rewrite Nat.eqb_refl.
  fold (sends_to ws (snd (run on_message s1 es2))). rewrite Hat. intros Hwire.
  inversion Hwire as [|? ? Hinit Hlater]; subst.
  cbn [map Client.receive]. rewrite (client_gets_init _ _ Hinit).
  apply Hrun; auto.
  intros _. subst s1. cbn [srv_clients]. rewrite copies_app, Hzero, copies_cons.
  cbn [client_id readyState]. rewrite Nat.eqb_refl. reflexivity.
Qed.

End Replica.

(** X9. The reconnecting chat client against the server.  A client that
    connects once and stays open, and whose frames read back as sent,
    ends with a list of which the server's list is a prefix: it shows
    every message the server holds, newest first, in the same order; it
    may show more, because the client never drops the messages the
    server's cap has dropped (hub and relay, from any array list). *)
Theorem server_list_is_a_prefix_of_the_clients
        (JSON_parse : string -> option jsval) (JSON_stringify : jsval -> string)
        (on_message : jsval -> list client -> string -> string -> outcome)
        (s : server) (old : list jsval) (es1 : list event) (ws : nat) (es2 : list event) :
  on_message = hub_on_message JSON_parse \/ on_message = relay_on_message JSON_parse ->
  srv_messages s = JArr old ->
  ~ In ws (map client_id (srv_clients s)) ->
  ~ In (Connect ws) es1 ->
  Forall (stays_open ws) es2 ->
  srv_alive (fst (run on_message s es1)) = true ->
  Forall (Client.arrives JSON_parse JSON_stringify)
         (sends_to ws (snd (run on_message s (es1 ++ Connect ws :: es2)))) ->
  exists kept shown,
    srv_messages (fst (run on_message s (es1 ++ Connect ws :: es2))) = JArr kept
    /\ Client.receive JSON_parse (JArr [])
         (map JSON_stringify
              (sends_to ws (snd (run on_message s (es1 ++ Connect ws :: es2)))))
       = Normal (JArr shown)
    /\ kept `prefix_of` shown.
Proof.
  intros Hwhich. apply connect_replica.
  destruct Hwhich as [-> | ->]; [apply hub_keeps_a_prefix | apply relay_keeps_a_prefix].
Qed.

Lemma server_list_is_a_prefix_of_the_clients_witness :
  exists kept shown,
    srv_messages
      (fst (run (hub_on_message Sample.wire_parse) (empty_server Sample.two_clients)
                ([]
                   ++ Connect 7 :: [Frame 7 Sample.iso Sample.clear_text;
                                    Frame 1 Sample.iso Sample.message_text])))
    = JArr kept
    /\ Client.receive Sample.wire_parse (JArr [])
         (map Sample.wire_text
              (sends_to 7
                 (snd (run (hub_on_message Sample.wire_parse)
                           (empty_server Sample.two_clients)
                           ([]
                              ++ Connect 7 :: [Frame 7 Sample.iso Sample.clear_text;
                                               Frame 1 Sample.iso Sample.message_text])))))
       = Normal (JArr shown)
    /\ kept `prefix_of` shown.
Proof.
  apply (server_list_is_a_prefix_of_the_clients Sample.wire_parse Sample.wire_text
           (hub_on_message Sample.wire_parse) (empty_server Sample.two_clients) [] []).
  - left. reflexivity.
  - reflexivity.
  - simpl. lia.
  - simpl. tauto.
  - repeat (apply List.Forall_cons; [repeat split; discriminate|]). apply List.Forall_nil.
  - vm_compute. reflexivity.
  - set (sent := sends_to 7 _). vm_compute in sent. subst sent.
    repeat (apply List.Forall_cons; [vm_compute; reflexivity|]). apply List.Forall_nil.
Defined.

(** With more than 1000 messages the two lists do differ: the client of
    a hub that received 1001 messages while it was connected shows 1001,
    the hub holds 1000. *)
Example client_outgrows_the_hub :
  exists kept shown,
    srv_messages (fst (run (hub_on_message Sample.wire_parse) (empty_server [])
                           (Connect 7 :: Sample.burst))) = JArr kept
    /\ Client.receive Sample.wire_parse (JArr [])
         (map Sample.wire_text
              (sends_to 7 (snd (run (hub_on_message Sample.wire_parse) (empty_server [])
                                    (Connect 7 :: Sample.burst)))))
       = Normal (JArr shown)
    /\ length kept = 1000 /\ length shown = 1001.
Proof.
  eexists _, _. split; [vm_compute; reflexivity|].
  split; [vm_compute; reflexivity|]. split; vm_compute; reflexivity.
Qed.

(** ** Display names and stored names *)

Lemma more_digits_then_hyphen_inv s after :
  Files.more_digits_then_hyphen s = Some after ->
  exists digits, Files.all_digits digits = true /\ s = digits +:+ "-" +:+ after.
Proof.
  revert after. induction s as [|c rest IH]; intros after; [discriminate|].
  cbn [Files.more_digits_then_hyphen].
  assert (Hhyphen : (if Files.is_hyphen c then Some rest else None) = Some after ->
                    exists digits, Files.all_digits digits = true
                                   /\ String c rest = digits +:+ "-" +:+ after).
  { unfold Files.is_hyphen. destruct (Ascii.eqb_spec c "-"%char) as [->|]; [|discriminate].
    intros [= ->]. exists EmptyString. split; reflexivity. }
  destruct (Files.is_digit c) eqn:Hc; [|exact Hhyphen].
  destruct (Files.more_digits_then_hyphen rest) as [found|] eqn:Hrest; [|exact Hhyphen].
  intros [= ->]. destruct (IH after eq_refl) as (digits & Hd & ->).
  exists (String c digits). split; [|reflexivity]. simpl. rewrite Hc, Hd. reflexivity.
Qed.

(** X10. What the display-name pattern does to any filename.  A name
    that begins with one or more digits and a hyphen loses exactly that
    prefix, the digits up to the first hyphen, and nothing after it; any
    other name is returned as it is.  So a file put into the directory
    by hand under a name such as 2024-report.txt is shown without its
    leading number. *)
Theorem strip_timestamp_removes_exactly_the_digit_prefix (filename : string) :
  (exists digits rest,
      digits <> "" /\ Files.all_digits digits = true
      /\ filename = digits +:+ "-" +:+ rest
      /\ Files.strip_timestamp filename = rest)
  \/ ((forall digits rest,
          digits <> "" -> Files.all_digits digits = true ->
          filename <> digits +:+ "-" +:+ rest)
      /\ Files.strip_timestamp filename = filename).
Proof.
  destruct filename as [|c tail].
  - right. split; [|reflexivity]. intros [|d digits] rest Hne _; [congruence|discriminate].
  - cbn [Files.strip_timestamp]. destruct (Files.is_digit c) eqn:Hc.
    + destruct (Files.more_digits_then_hyphen tail) as [after|] eqn:Htail.
      * left. destruct (more_digits_then_hyphen_inv _ _ Htail) as (digits & Hd & ->).
        exists (String c digits), after. split; [discriminate|].
        split; [simpl; rewrite Hc, Hd; reflexivity|]. split; reflexivity.
      * right. split; [|reflexivity]. intros [|d digits] rest Hne Hd; [congruence|].
        rewrite FileFacts.append_cons. intros [= -> ->]. simpl in Hd.
        apply andb_prop in Hd. destruct Hd as [_ Hd].
        rewrite (FileFacts.digits_then_hyphen digits rest Hd) in Htail. discriminate.
    + right. split; [|reflexivity]. intros [|d digits] rest Hne Hd; [congruence|].
      rewrite FileFacts.append_cons. intros [= -> _]. simpl in Hd.
      rewrite Hc in Hd. discriminate.
Qed.

Example hand_placed_file_loses_its_number :
  Files.strip_timestamp "2024-report.txt" = "report.txt".
Proof. reflexivity. Qed.

(** X11. Two parts get the same stored filename exactly when the clock
    read the same millisecond for both and their decoded original names
    are equal: the hyphen after the digits keeps timestamp and name
    apart, so 12 with name 3-a and 123 with name a never meet.  The
    clock is at or after the epoch. *)
Theorem stored_names_meet_exactly_when
        (latin1_as_utf8 : string -> string) (p1 p2 : Files.upload_part) :
  (0 <= Files.named_at p1)%Z -> (0 <= Files.named_at p2)%Z ->
  Files.storage_filename latin1_as_utf8 p1 = Files.storage_filename latin1_as_utf8 p2
  <-> Files.named_at p1 = Files.named_at p2
      /\ latin1_as_utf8 (Files.originalname p1) = latin1_as_utf8 (Files.originalname p2).
Proof.
  intros H1 H2. split.
  - apply FileFacts.storage_filename_inj; assumption.
  - unfold Files.storage_filename. intros [-> ->]. reflexivity.
Qed.

Lemma stored_names_meet_exactly_when_witness :
  Files.storage_filename Sample.ascii_name (Sample.part "3-a" Sample.bytes_hi 12)
  <> Files.storage_filename Sample.ascii_name (Sample.part "a" Sample.bytes_hi 123).
Proof.
  intros Heq.
  apply (stored_names_meet_exactly_when Sample.ascii_name
           (Sample.part "3-a" Sample.bytes_hi 12) (Sample.part "a" Sample.bytes_hi 123))
    in Heq; [|simpl; lia|simpl; lia].
  destruct Heq as [Hclock _]. discriminate Hclock.
Defined.

(** ** Uploads of several parts *)

Section StoredParts.

Variable latin1_as_utf8 : string -> string.
Local Abbreviation stored := (Files.storage_filename latin1_as_utf8).


Lemma NoDup_map_In_inj {A B} (f : A -> B) (l : list A) x y :
  List.NoDup (map f l) -> In x l -> In y l -> f x = f y -> x = y.
Proof.
  induction l as [|a rest IH]; intros Hdup Hx Hy Heq; [destruct Hx|].
  cbn [map] in Hdup. inversion Hdup as [|? ? Hfresh Hrest]; subst.
  destruct Hx as [->|Hx], Hy as [->|Hy]; [reflexivity| | |auto].
  - exfalso. apply Hfresh. rewrite Heq. apply in_map, Hy.
  - exfalso. apply Hfresh. rewrite <- Heq. apply in_map, Hx.
Qed.

Lemma written_by_absent name parts :
  ~ In name (map stored parts) -> Hub.written_by latin1_as_utf8 name parts = 0.
Proof.
  unfold Hub.written_by. induction parts as [|p rest IH]; intros Hnot; [reflexivity|].
  simpl in Hnot. cbn [List.filter].
  destruct (String.eqb_spec (stored p) name) as [Heq|_]; [tauto|]. apply IH. tauto.
Qed.

(** Without two parts of a name, each name is written by one part. *)
Lemma written_by_once parts part :
  List.NoDup (map stored parts) -> In part parts ->
  Hub.written_by latin1_as_utf8 (stored part) parts = 1.
Proof.
  induction parts as [|p rest IH]; intros Hdup Hin; [destruct Hin|].
  cbn [map] in Hdup. inversion Hdup as [|? ? Hfresh Hrest]; subst.
  unfold Hub.written_by. cbn [List.filter]. destruct Hin as [->|Hin].
  - rewrite String.eqb_refl. cbn [length]. f_equal.
    apply (written_by_absent _ _ Hfresh).
  - destruct (String.eqb_spec (stored p) (stored part)) as [Heq|_].
    + exfalso. apply Hfresh. rewrite Heq. apply in_map, Hin.
    + apply (IH Hrest Hin).
Qed.

Lemma written_by_present parts part :
  In part parts -> 0 < Hub.written_by latin1_as_utf8 (stored part) parts.
Proof.
  unfold Hub.written_by. induction parts as [|p rest IH]; intros Hin; [destruct Hin|].
  cbn [List.filter]. destruct (String.eqb_spec (stored p) (stored part)) as [_|Hne].
  - cbn [length]. lia.
  - destruct Hin as [->|Hin]; [congruence|apply IH, Hin].
Qed.

(** Two different parts of one name: the name is written more than
    once. *)
Lemma written_by_twice parts p q :
  In p parts -> In q parts -> p <> q -> stored p = stored q ->
  1 < Hub.written_by latin1_as_utf8 (stored p) parts.
Proof.
  induction parts as [|a rest IH]; intros Hp Hq Hne Hname; [destruct Hp|].
  unfold Hub.written_by. cbn [List.filter].
  destruct Hp as [->|Hp], Hq as [->|Hq]; [congruence| | |].
  - rewrite String.eqb_refl. cbn [length]. rewrite Hname.
    pose proof (written_by_present rest q Hq) as Hpos. unfold Hub.written_by in Hpos. lia.
  - rewrite <- Hname, String.eqb_refl. cbn [length].
    pose proof (written_by_present rest p Hp) as Hpos. unfold Hub.written_by in Hpos. lia.
  - pose proof (IH Hp Hq Hne Hname) as Hrest. unfold Hub.written_by in Hrest.
    destruct (String.eqb (stored a) (stored p)); cbn [length]; lia.
Qed.

Section Requests.

Variable raced : string -> list Byte.byte.
Variable request : list Files.upload_part.
Local Abbreviation write_request := (Hub.write_request latin1_as_utf8 raced request).

(** What is left under [name] by a part of content [body]. *)
Local Abbreviation left_by name body :=
  (if 1 <? Hub.written_by latin1_as_utf8 name request then raced name else body).

Lemma write_request_cons fs p rest fs' :
  write_request fs (p :: rest) = Some fs' ->
  Files.is_plain (stored p) = true
  /\ write_request
       (<[stored p := Files.RegularFile (left_by (stored p) (Files.content p))]> fs) rest
     = Some fs'.
Proof.
  cbn [Hub.write_request]. destruct (Files.is_plain (stored p)); [|discriminate].
  cbn [negb]. intros Hw. split; [reflexivity|].
  destruct (fs !! stored p) as [[?|]|]; [exact Hw|discriminate|exact Hw].
Qed.

Lemma write_request_plain parts fs fs' part :
  write_request fs parts = Some fs' -> In part parts ->
  Files.is_plain (stored part) = true.
Proof.
  revert fs. induction parts as [|p rest IH]; intros fs Hw Hin; [destruct Hin|].
  apply write_request_cons in Hw. destruct Hw as [Hplain Hw].
  destruct Hin as [->|Hin]; [exact Hplain|exact (IH _ Hw Hin)].
Qed.

Lemma write_request_elsewhere parts fs fs' other :
  write_request fs parts = Some fs' ->
  ~ In other (map stored parts) ->
  fs' !! other = fs !! other.
Proof.
  revert fs. induction parts as [|p rest IH]; intros fs Hw Hnot.
  - injection Hw as <-. reflexivity.
  - apply write_request_cons in Hw. destruct Hw as [_ Hw]. simpl in Hnot.
    rewrite (IH _ Hw) by tauto. apply lookup_insert_ne. tauto.
Qed.

(** After the request, a name that was written holds what one of the
    parts of that name left there. *)
Lemma write_request_there parts fs fs' name :
  write_request fs parts = Some fs' ->
  In name (map stored parts) ->
  exists part, In part parts /\ stored part = name
               /\ fs' !! name
                  = Some (Files.RegularFile (left_by name (Files.content part))).
Proof.
  revert fs. induction parts as [|p rest IH]; intros fs Hw Hin; [destruct Hin|].
  apply write_request_cons in Hw. destruct Hw as [_ Hw].
  destruct (in_dec string_dec name (map stored rest)) as [Hlater|Hnot].
  - destruct (IH _ Hw Hlater) as (part & Hpart & Hname & Hlook).
    exists part. split; [right; exact Hpart|]. split; assumption.
  - destruct Hin as [Heq|Hin]; [|tauto]. exists p. split; [left; reflexivity|].
    split; [exact Heq|]. rewrite (write_request_elsewhere _ _ _ _ Hw Hnot).
    rewrite <- Heq. apply lookup_insert_eq.
Qed.

End Requests.

End StoredParts.

(** X12. POST /api/upload with several parts.  When it succeeds the
    response describes every part, in order, with its decoded name, its
    size and its download path, and files stored under other names are
    left as they were.  If no two parts of the request share a stored
    name, each part then downloads as exactly its own bytes with the
    header [attachment; filename="<its decoded name>"] when Node accepts
    that name in a header, and is refused by [setHeader] when it does
    not.  A name that two parts of the request share holds what the race
    of their write streams left.  Clock readings are at or after the
    epoch. *)
Theorem uploaded_parts_download_as_sent
        (latin1_as_utf8 : string -> string) (raced : string -> list Byte.byte)
        (fs fs' : gmap string Files.entry) (parts : list Hub.described_part)
        (described : list Files.descriptor) :
  Hub.upload latin1_as_utf8 raced fs parts = Some (fs', described) ->
  Forall (fun p => (0 <= Files.named_at (Hub.dp_part p))%Z) parts ->
  (map Files.d_name described
   = map (fun p => latin1_as_utf8 (Files.originalname (Hub.dp_part p))) parts
   /\ map Files.d_size described = map (fun p => length (Files.content (Hub.dp_part p))) parts
   /\ map Files.d_path described
      = map (fun p => "/api/download/"
                        +:+ Files.storage_filename latin1_as_utf8 (Hub.dp_part p)) parts)
  /\ (forall other,
        ~ In other (map (fun p => Files.storage_filename latin1_as_utf8 (Hub.dp_part p)) parts) ->
        fs' !! other = fs !! other)
  /\ (List.NoDup (map (fun p => Files.storage_filename latin1_as_utf8 (Hub.dp_part p)) parts) ->
      forall p, In p parts ->
        Files.download fs' (Files.storage_filename latin1_as_utf8 (Hub.dp_part p))
        = if Files.header_ok (latin1_as_utf8 (Files.originalname (Hub.dp_part p)))
          then Files.SentFile
                 ("attachment; filename="
                    +:+ String "034"%char (latin1_as_utf8 (Files.originalname (Hub.dp_part p)))
                    +:+ String "034"%char "")
                 (Files.content (Hub.dp_part p))
          else Files.HeaderRejected)
  /\ (forall p q, In p parts -> In q parts ->
        Hub.dp_part p <> Hub.dp_part q ->
        Files.storage_filename latin1_as_utf8 (Hub.dp_part p)
        = Files.storage_filename latin1_as_utf8 (Hub.dp_part q) ->
        fs' !! Files.storage_filename latin1_as_utf8 (Hub.dp_part p)
        = Some (Files.RegularFile
                  (raced (Files.storage_filename latin1_as_utf8 (Hub.dp_part p))))).
Proof.
  unfold Hub.upload. intros Hup Hclock.
  destruct (Hub.write_request latin1_as_utf8 raced (map Hub.dp_part parts) fs
                              (map Hub.dp_part parts)) as [fs1|] eqn:Hstore;
    [|discriminate].
  injection Hup as <- <-. rewrite !map_map. split; [repeat split|split; [|split]].
  - intros other Hnot. apply (write_request_elsewhere _ _ _ _ _ _ _ Hstore).
    rewrite map_map. exact Hnot.
  - intros Hdup p Hin.
    assert (Hp : In (Hub.dp_part p) (map Hub.dp_part parts)) by (apply in_map, Hin).
    rewrite <- (map_map Hub.dp_part (Files.storage_filename latin1_as_utf8)) in Hdup.
    assert (Hpos : (0 <= Files.named_at (Hub.dp_part p))%Z).
    { rewrite Forall_forall in Hclock. apply Hclock, list_elem_of_In, Hin. }
    rewrite (PathFacts.download_stored _ _ _ Hpos
               (write_request_plain _ _ _ _ _ _ _ Hstore Hp)).
    destruct (write_request_there latin1_as_utf8 raced _ _ _ _
                (Files.storage_filename latin1_as_utf8 (Hub.dp_part p)) Hstore)
      as (part & Hpart & Hname & Hlook); [apply in_map, Hp|].
    rewrite Hlook. rewrite (written_by_once _ _ _ Hdup Hp).
    cbn [Nat.ltb Nat.leb].
    rewrite (NoDup_map_In_inj _ _ _ _ Hdup Hpart Hp Hname). reflexivity.
  - intros p q Hp Hq Hparts Hname.
    assert (Hp' : In (Hub.dp_part p) (map Hub.dp_part parts)) by (apply in_map, Hp).
    assert (Hq' : In (Hub.dp_part q) (map Hub.dp_part parts)) by (apply in_map, Hq).
    destruct (write_request_there latin1_as_utf8 raced _ _ _ _
                (Files.storage_filename latin1_as_utf8 (Hub.dp_part p)) Hstore)
      as (part & _ & _ & Hlook); [apply in_map, Hp'|].
    rewrite Hlook.
    assert (Htwice : 1 < Hub.written_by latin1_as_utf8
                           (Files.storage_filename latin1_as_utf8 (Hub.dp_part p))
                           (map Hub.dp_part parts)).
    { apply (written_by_twice latin1_as_utf8 _ (Hub.dp_part p) (Hub.dp_part q));
        assumption. }
    apply Nat.ltb_lt in Htwice. rewrite Htwice. reflexivity.
Qed.

Lemma uploaded_parts_download_as_sent_witness :
  exists fs' described,
    Hub.upload Sample.ascii_name (fun _ => []) ∅
      [{| Hub.dp_part := Sample.part "a.txt" Sample.bytes_hi 1700000000000;
          Hub.dp_now := 1700000000002; Hub.dp_suffix := "k3x9q"; Hub.dp_iso := Sample.iso |};
       {| Hub.dp_part := Sample.part "a.txt" Sample.bytes_yo 1700000000001;
          Hub.dp_now := 1700000000002; Hub.dp_suffix := "p0z1m"; Hub.dp_iso := Sample.iso |}]
    = Some (fs', described)
    /\ Files.download fs' "1700000000000-a.txt"
       = Files.SentFile
           ("attachment; filename=" +:+ String "034"%char "a.txt" +:+ String "034"%char "")
           Sample.bytes_hi
    /\ Files.download fs' "1700000000001-a.txt"
       = Files.SentFile
           ("attachment; filename=" +:+ String "034"%char "a.txt" +:+ String "034"%char "")
           Sample.bytes_yo.
Proof.
  set (first := {| Hub.dp_part := Sample.part "a.txt" Sample.bytes_hi 1700000000000;
                   Hub.dp_now := 1700000000002; Hub.dp_suffix := "k3x9q";
                   Hub.dp_iso := Sample.iso |}).
  set (second := {| Hub.dp_part := Sample.part "a.txt" Sample.bytes_yo 1700000000001;
                    Hub.dp_now := 1700000000002; Hub.dp_suffix := "p0z1m";
                    Hub.dp_iso := Sample.iso |}).
  destruct (Hub.upload Sample.ascii_name (fun _ => []) ∅ [first; second])
    as [[fs' described]|] eqn:Hup.
  - exists fs', described. split; [reflexivity|].
    destruct (uploaded_parts_download_as_sent Sample.ascii_name (fun _ => []) ∅ fs'
                [first; second] described Hup) as (_ & _ & Hdown & _).
    + repeat (apply List.Forall_cons; [simpl; lia|]). apply List.Forall_nil.
    + assert (Hdup : List.NoDup
                (map (fun p => Files.storage_filename Sample.ascii_name (Hub.dp_part p))
                     [first; second])).
      { assert (Hnames : map (fun p => Files.storage_filename Sample.ascii_name (Hub.dp_part p))
                             [first; second]
                         = ["1700000000000-a.txt"; "1700000000001-a.txt"])
          by (vm_compute; reflexivity).
        rewrite Hnames. apply List.NoDup_cons; [simpl; intros [H|[]]; discriminate H|].
        apply List.NoDup_cons; [simpl; tauto|apply List.NoDup_nil]. }
      split.
      * exact (Hdown Hdup first (or_introl eq_refl)).
      * exact (Hdown Hdup second (or_intror (or_introl eq_refl))).
  - exfalso. vm_compute in Hup. discriminate Hup.
Defined.

(** Two parts of one request named in the same millisecond: what the
    file holds afterwards is what the race left, not the bytes of the
    second part. *)
Example parts_of_one_request_race :
  forall raced,
    exists fs' described,
      Hub.upload Sample.ascii_name raced ∅
        [{| Hub.dp_part := Sample.part "a.txt" Sample.bytes_hi 1700000000000;
            Hub.dp_now := 1700000000002; Hub.dp_suffix := "k3x9q"; Hub.dp_iso := Sample.iso |};
         {| Hub.dp_part := Sample.part "a.txt" Sample.bytes_yo 1700000000000;
            Hub.dp_now := 1700000000002; Hub.dp_suffix := "p0z1m"; Hub.dp_iso := Sample.iso |}]
      = Some (fs', described)
      /\ fs' !! "1700000000000-a.txt"
         = Some (Files.RegularFile (raced "1700000000000-a.txt")).
Proof.
  intros raced. unfold Hub.upload. cbn [map Hub.dp_part Hub.write_request].
  replace (Files.storage_filename Sample.ascii_name
             (Sample.part "a.txt" Sample.bytes_hi 1700000000000))
    with "1700000000000-a.txt" by (vm_compute; reflexivity).
  replace (Files.storage_filename Sample.ascii_name
             (Sample.part "a.txt" Sample.bytes_yo 1700000000000))
    with "1700000000000-a.txt" by (vm_compute; reflexivity).
  change (Files.is_plain "1700000000000-a.txt") with true. cbn [negb].
  replace (Hub.written_by Sample.ascii_name "1700000000000-a.txt" _) with 2
    by (vm_compute; reflexivity).
  cbn [Nat.ltb Nat.leb]. rewrite lookup_empty, lookup_insert_eq.
  eexists _, _. split; [reflexivity|]. apply lookup_insert_eq.
Qed.

(** ** Delete, download and the listing together *)



Section Listing.

Variable mtime_iso : string -> string.
Variable directory_size : nat.
Local Abbreviation list_files := (Hub.list_files mtime_iso directory_size).
Local Abbreviation list_item := (Hub.list_item mtime_iso directory_size).


End Listing.


(** A file put into the directory by hand under a dot name, and one
    whose name holds a control character, are listed and do not
    download. *)
Example listed_files_that_do_not_download :
  let fs : gmap string Files.entry :=
    {[ ".env" := Files.RegularFile Sample.bytes_hi;
       String "007"%char "bell.txt" := Files.RegularFile Sample.bytes_yo ]} in
  length (Hub.list_files (fun _ => Sample.iso) 4096 fs) = 2
  /\ Files.download fs ".env" = Files.Ignored
  /\ Files.download fs (String "007"%char "bell.txt") = Files.HeaderRejected.
Proof. vm_compute. repeat split. Qed.



(** ** The cache along a run of requests *)

Section CacheFacts.

Context {num : Type} `{JsRuntime num}.
Import Monitor MonitorRuns.

Lemma esm_fresh_timestamp (env : esm_env num) p :
  esm_fresh env = Normal p -> timestamp p = esm_now env.
Proof.
  unfold esm_fresh, bind.
  destruct (esm_currentLoad env); [|discriminate].
  destruct (esm_mem env); [|discriminate].
  destruct (esm_fsSize env); [|discriminate].
  destruct (esm_time env); [|discriminate].
  intros [= <-]. reflexivity.
Qed.

Lemma cjs_fresh_timestamp (env : cjs_env num) p :
  cjs_fresh env = Normal p -> timestamp p = cjs_now env.
Proof.
  unfold cjs_fresh, bind.
  destruct (cjs_currentLoad env); [|discriminate].
  destruct (cjs_mem env); [|discriminate].
  destruct (cjs_fsSize env); [|discriminate].
  destruct (cjs_uptime env); [|discriminate].
  intros [= <-]. reflexivity.
Qed.

Lemma cjs_fallback_timestamp (env : cjs_env num) p :
  cjs_fallback env = Normal p -> timestamp p = cjs_now env.
Proof.
  unfold cjs_fallback, bind. destruct (cjs_fb_uptime env); [|discriminate].
  intros [= <-]. reflexivity.
Qed.

Lemma snd_respond (r : completion (payload num) * cache num) : snd (respond r) = snd r.
Proof. unfold respond. destruct (fst r); reflexivity. Qed.

Lemma esm_settle_invariant (c : cache num) (env : esm_env num) :
  consistent c /\ holds_no_error c ->
  consistent (snd (esm_settle c env)) /\ holds_no_error (snd (esm_settle c env)).
Proof.
  intros [Hcons Herr]. unfold esm_settle.
  destruct (esm_fresh env) as [p|e] eqn:Hfresh; cbn [fst snd]; [|auto].
  split; intros q [= <-]; cbn [lastUpdate].
  - apply esm_fresh_timestamp, Hfresh.
  - apply (esm_fresh_has_no_error env), Hfresh.
Qed.

Lemma esm_settle_consistent (c : cache num) (env : esm_env num) :
  consistent c -> consistent (snd (esm_settle c env)).
Proof.
  intros Hcons. unfold esm_settle.
  destruct (esm_fresh env) as [p|e] eqn:Hfresh; cbn [snd]; [|exact Hcons].
  intros q [= <-]. apply esm_fresh_timestamp, Hfresh.
Qed.

Lemma cjs_settle_invariant (c : cache num) (env : cjs_env num) :
  consistent c -> consistent (snd (cjs_settle c env)).
Proof.
  intros Hcons.
  destruct (cjs_settle_cases c env)
    as [(p & Hp & ->) | [(_ & p & Hp & ->) | (_ & e & _ & ->)]]; cbn [snd]; [| |exact Hcons].
  - intros q [= <-]. apply cjs_fresh_timestamp, Hp.
  - intros q [= <-]. apply cjs_fallback_timestamp, Hp.
Qed.

(** What a call that missed the cache is answered. *)
Lemma esm_settle_answer (c : cache num) (env : esm_env num) :
  exists body, fst (esm_settle c env) = Normal body /\ timestamp body = esm_now env.
Proof.
  unfold esm_settle. destruct (esm_fresh env) as [p|e] eqn:Hfresh; cbn [fst].
  - exists p. split; [reflexivity|]. apply esm_fresh_timestamp, Hfresh.
  - exists (esm_fallback env). split; reflexivity.
Qed.

Lemma cjs_settle_answer (c : cache num) (env : cjs_env num) :
  (exists body, fst (cjs_settle c env) = Normal body /\ timestamp body = cjs_now env)
  \/ (cjs_queries_throw env
      /\ exists e, cjs_fb_uptime env = Throw e /\ fst (cjs_settle c env) = Throw e).
Proof.
  destruct (cjs_settle_cases c env)
    as [(p & Hp & ->) | [(_ & p & Hp & ->) | (Ht & e & He & ->)]]; cbn [fst].
  - left. exists p. split; [reflexivity|]. apply cjs_fresh_timestamp, Hp.
  - left. exists p. split; [reflexivity|]. apply cjs_fallback_timestamp, Hp.
  - right. eauto.
Qed.

Lemma cached_Some (c : cache num) now p :
  cached c now = Some p ->
  systemInfoCache c = Some p /\ (now - lastUpdate c < CACHE_DURATION)%Z.
Proof.
  unfold cached. destruct (systemInfoCache c) as [q|]; [|discriminate].
  destruct (Z.ltb_spec (now - lastUpdate c) CACHE_DURATION); [|discriminate].
  intros [= ->]. auto.
Qed.

Lemma cached_None_when_old (c : cache num) now :
  (CACHE_DURATION <= now - lastUpdate c)%Z -> cached c now = None.
Proof.
  unfold cached. intros Hold. destruct (systemInfoCache c); [|reflexivity].
  destruct (Z.ltb_spec (now - lastUpdate c) CACHE_DURATION); [lia|reflexivity].
Qed.

Lemma esm_step_invariant (c : cache num) (env : esm_env num) :
  consistent c /\ holds_no_error c ->
  consistent (snd (esm_system_info c env)) /\ holds_no_error (snd (esm_system_info c env)).
Proof.
  intros Hc. unfold esm_system_info. rewrite snd_respond. unfold esm_getSystemInfo.
  destruct (cached c (esm_now env)); cbn [snd]; [exact Hc|].
  apply esm_settle_invariant, Hc.
Qed.

Lemma cjs_step_invariant (c : cache num) (env : cjs_env num) :
  consistent c -> consistent (snd (cjs_system_info c env)).
Proof.
  intros Hcons. unfold cjs_system_info. rewrite snd_respond. unfold cjs_getSystemInfo.
  destruct (cached c (cjs_now env)); cbn [snd]; [exact Hcons|].
  apply cjs_settle_invariant, Hcons.
Qed.

Lemma esm_run_invariant (envs : list (esm_env num)) (c : cache num) :
  consistent c /\ holds_no_error c ->
  consistent (esm_cache_after c envs) /\ holds_no_error (esm_cache_after c envs).
Proof.
  revert c. induction envs as [|env rest IH]; intros c Hc; [exact Hc|].
  cbn [esm_cache_after]. apply IH, esm_step_invariant, Hc.
Qed.

Lemma cjs_run_invariant (envs : list (cjs_env num)) (c : cache num) :
  consistent c -> consistent (cjs_cache_after c envs).
Proof.
  revert c. induction envs as [|env rest IH]; intros c Hc; [exact Hc|].
  cbn [cjs_cache_after]. apply IH, cjs_step_invariant, Hc.
Qed.

Lemma initial_cache_invariant :
  consistent (initial_cache (num := num)) /\ holds_no_error (initial_cache (num := num)).
Proof. split; intros p Hp; discriminate Hp. Qed.

Section InterleavedCache.

Variable env_t : Type.
Variable now_of : env_t -> Z.
Variable settle : cache num -> env_t -> completion (payload num) * cache num.
Hypothesis settle_consistent :
  forall c env, consistent c -> consistent (snd (settle c env)).

Lemma moment_step_consistent m e :
  consistent (mon_cache m) ->
  consistent (mon_cache (fst (moment_step env_t now_of settle m e))).
Proof.
  intros Hcons. destruct e as [id env|id]; cbn [moment_step].
  - destruct (cached (mon_cache m) (now_of env)); exact Hcons.
  - destruct (find _ (mon_in_flight m)) as [call|]; [|exact Hcons].
    cbn [fst mon_cache]. apply settle_consistent, Hcons.
Qed.

Lemma interleave_consistent es m :
  consistent (mon_cache m) ->
  consistent (mon_cache (fst (interleave env_t now_of settle m es))).
Proof.
  revert m. induction es as [|e rest IH]; intros m Hcons; [exact Hcons|].
  rewrite interleave_cons. cbn [fst]. apply IH, moment_step_consistent, Hcons.
Qed.

(** A call that arrives is answered at once only from the cache, by a
    payload less than the cache duration behind its clock. *)
Lemma arrival_answer m id env id' r :
  consistent (mon_cache m) ->
  In (id', r) (snd (moment_step env_t now_of settle m (Arrives id env))) ->
  id' = id /\ exists body, r = Json200 body /\ (now_of env - timestamp body < 2000)%Z.
Proof.
  intros Hcons. cbn [moment_step].
  destruct (cached (mon_cache m) (now_of env)) as [p|] eqn:Hhit; cbn [snd]; [|intros []].
  intros [[= <- <-]|[]]. split; [reflexivity|]. exists p. split; [reflexivity|].
  apply cached_Some in Hhit. destruct Hhit as [Hp Hage].
  rewrite (Hcons p Hp). exact Hage.
Qed.

(** A call that completes is one that was in flight, and its answer is
    what it settles to on the cache as it is then. *)
Lemma completion_answer m id id' r :
  In (id', r) (snd (moment_step env_t now_of settle m (Completes id))) ->
  id' = id
  /\ exists env, In (id, env) (mon_in_flight m)
                 /\ r = answer (fst (settle (mon_cache m) env)).
Proof.
  cbn [moment_step].
  destruct (find _ (mon_in_flight m)) as [[found env]|] eqn:Hfind; cbn [snd]; [|intros []].
  intros [[= <- <-]|[]]. split; [reflexivity|].
  apply find_some in Hfind. destruct Hfind as [Hin Hid]. cbn [fst] in Hid.
  apply Nat.eqb_eq in Hid. subst found. exists env. split; [exact Hin|reflexivity].
Qed.

End InterleavedCache.

End CacheFacts.

(** X16. Whatever requests have been served since the start, the cache
    of either monitor is consistent: a stored payload carries the time
    it was stored at as its [timestamp].  In the ES-module monitor the
    stored payload moreover never has an [error] field: simulated data
    is answered but not kept, so the next request queries the host
    again. *)
Theorem cache_stays_consistent {num : Type} `{JsRuntime num} :
  (forall (envs : list (Monitor.esm_env num)) p,
      Monitor.systemInfoCache (MonitorRuns.esm_cache_after Monitor.initial_cache envs) = Some p ->
      Monitor.timestamp p
      = Monitor.lastUpdate (MonitorRuns.esm_cache_after Monitor.initial_cache envs)
      /\ Monitor.error p = None)
  /\ (forall (envs : list (Monitor.cjs_env num)) p,
      Monitor.systemInfoCache (MonitorRuns.cjs_cache_after Monitor.initial_cache envs) = Some p ->
      Monitor.timestamp p
      = Monitor.lastUpdate (MonitorRuns.cjs_cache_after Monitor.initial_cache envs)).
Proof.
  split.
  - intros envs p Hp.
    destruct (esm_run_invariant envs Monitor.initial_cache initial_cache_invariant)
      as [Hcons Herr].
    split; [apply Hcons, Hp|apply Herr, Hp].
  - intros envs p Hp.
    apply (cjs_run_invariant envs Monitor.initial_cache (proj1 initial_cache_invariant)), Hp.
Qed.

Lemma cache_stays_consistent_witness :
  exists p,
    Monitor.cjs_fallback (Sample.cjs_host 3500 false) = Normal p
    /\ Monitor.systemInfoCache
         (MonitorRuns.cjs_cache_after Monitor.initial_cache
            [Sample.cjs_host 1000 true; Sample.cjs_host 2500 false; Sample.cjs_host 3500 false])
       = Some p
    /\ Monitor.lastUpdate
         (MonitorRuns.cjs_cache_after Monitor.initial_cache
            [Sample.cjs_host 1000 true; Sample.cjs_host 2500 false; Sample.cjs_host 3500 false])
       = 3500%Z.
Proof.
  eexists. split; [vm_compute; reflexivity|].
  match goal with
  | |- ?stored = Some ?p /\ _ =>
      assert (Hp : stored = Some p) by (vm_compute; reflexivity)
  end.
  split; [exact Hp|].
  rewrite <- (proj2 (cache_stays_consistent (num := Q)) _ _ Hp). reflexivity.
Defined.

(** X17. Requests that overlap in any way, from startup.  A call
    answered as it arrives is answered with status 200 by a payload
    whose [timestamp] is less than 2000 ms behind the call's clock.  A
    call answered when it completes was in flight; the ES-module monitor
    answers it with status 200 by a payload carrying the call's own
    clock; the CommonJS monitor does the same, unless a query of the try
    block threw and [os.uptime()] threw again in the catch block, which
    is the one case answered by the 500 branch. *)
Theorem answers_are_younger_than_the_cache_duration {num : Type} `{JsRuntime num} :
  (forall (history : list (Monitor.moment (Monitor.esm_env num)))
          (e : Monitor.moment (Monitor.esm_env num)) (id : nat) r,
      let m := fst (Monitor.esm_interleave (Monitor.started _) history) in
      In (id, r) (snd (Monitor.moment_step _ Monitor.esm_now Monitor.esm_settle m e)) ->
      exists body,
        r = Monitor.Json200 body
        /\ match e with
           | Monitor.Arrives id' env =>
               id = id' /\ (Monitor.esm_now env - Monitor.timestamp body < 2000)%Z
           | Monitor.Completes id' =>
               id = id'
               /\ exists env, In (id, env) (Monitor.mon_in_flight m)
                              /\ Monitor.timestamp body = Monitor.esm_now env
           end)
  /\ (forall (history : list (Monitor.moment (Monitor.cjs_env num)))
             (e : Monitor.moment (Monitor.cjs_env num)) (id : nat) r,
      let m := fst (Monitor.cjs_interleave (Monitor.started _) history) in
      In (id, r) (snd (Monitor.moment_step _ Monitor.cjs_now Monitor.cjs_settle m e)) ->
      match e with
      | Monitor.Arrives id' env =>
          id = id'
          /\ exists body, r = Monitor.Json200 body
                          /\ (Monitor.cjs_now env - Monitor.timestamp body < 2000)%Z
      | Monitor.Completes id' =>
          id = id'
          /\ exists env,
               In (id, env) (Monitor.mon_in_flight m)
               /\ ((exists body, r = Monitor.Json200 body
                                 /\ Monitor.timestamp body = Monitor.cjs_now env)
                   \/ (r = Monitor.Json500
                       /\ Monitor.cjs_queries_throw env
                       /\ exists err, Monitor.cjs_fb_uptime env = Throw err))
      end).
Proof.
  split; intros history e id r m Hin.
  - assert (Hcons : MonitorRuns.consistent (Monitor.mon_cache m)).
    { apply interleave_consistent; [|apply initial_cache_invariant].
      apply esm_settle_consistent. }
    destruct e as [id' env|id'].
    + destruct (arrival_answer _ _ _ m id' env id r Hcons Hin) as (-> & body & -> & Hage).
      exists body. auto.
    + destruct (completion_answer _ _ _ m id' id r Hin) as (-> & env & Hflight & ->).
      destruct (esm_settle_answer (Monitor.mon_cache m) env) as (body & Hbody & Htime).
      rewrite Hbody. exists body. split; [reflexivity|]. eauto.
  - assert (Hcons : MonitorRuns.consistent (Monitor.mon_cache m)).
    { apply interleave_consistent; [|apply initial_cache_invariant].
      intros c env. apply cjs_settle_invariant. }
    destruct e as [id' env|id'].
    + exact (arrival_answer _ _ _ m id' env id r Hcons Hin).
    + destruct (completion_answer _ _ _ m id' id r Hin) as (-> & env & Hflight & ->).
      split; [reflexivity|]. exists env. split; [exact Hflight|].
      destruct (cjs_settle_answer (Monitor.mon_cache m) env)
        as [(body & -> & Htime) | (Ht & err & Herr & ->)]; [left|right]; eauto.
Qed.

Lemma answers_are_younger_than_the_cache_duration_witness :
  exists body,
    In (2, Monitor.Json200 body)
       (snd (Monitor.moment_step _ Monitor.cjs_now Monitor.cjs_settle
               (fst (Monitor.cjs_interleave (Monitor.started _)
                       [Monitor.Arrives 1 (Sample.cjs_host 1000 true);
                        Monitor.Completes 1]))
               (Monitor.Arrives 2 (Sample.cjs_host 2500 true))))
    /\ (2500 - Monitor.timestamp body < 2000)%Z.
Proof.
  destruct (snd (Monitor.moment_step _ Monitor.cjs_now Monitor.cjs_settle
                   (fst (Monitor.cjs_interleave (Monitor.started _)
                           [Monitor.Arrives 1 (Sample.cjs_host 1000 true);
                            Monitor.Completes 1]))
                   (Monitor.Arrives 2 (Sample.cjs_host 2500 true))))
    as [|[id r] rest] eqn:Hout; [vm_compute in Hout; discriminate Hout|].
  destruct (proj2 (answers_are_younger_than_the_cache_duration (num := Q))
              [Monitor.Arrives 1 (Sample.cjs_host 1000 true); Monitor.Completes 1]
              (Monitor.Arrives 2 (Sample.cjs_host 2500 true)) id r)
    as (-> & body & -> & Hage).
  - rewrite Hout. left. reflexivity.
  - exists body. split; [left; reflexivity|exact Hage].
Defined.

(** The case answered by the 500 branch, among overlapping requests: the
    first call completes with a payload, the second on a host where
    [os.uptime()] throws. *)
Example overlapping_requests_one_fails :
  exists body,
    snd (Monitor.cjs_interleave (Monitor.started _)
           [Monitor.Arrives 1 (Sample.cjs_host 1000 true);
            Monitor.Arrives 2 (Sample.cjs_host_without_uptime 1500);
            Monitor.Completes 2; Monitor.Completes 1])
    = [(2, Monitor.Json500); (1, Monitor.Json200 body)].
Proof. eexists. vm_compute. reflexivity. Qed.

(** X20. What a request that misses the cache is answered, by the host
    it runs on.  When no query of the try block throws, the answer is
    status 200 with a payload that has no [error] key and carries the
    request's clock, and that payload is stored with the same clock.
    When a query throws, the ES-module monitor answers status 200 with
    the simulated payload (the [Math.random()] formulas of its catch
    block, uptime [0d 0h 0m], the error text) and leaves the cache as it
    was; the CommonJS monitor, when [os.uptime()] answers in the catch
    block, answers status 200 with its own simulated payload and stores
    it. *)
Theorem failed_queries_answer_simulated_values {num : Type} `{JsRuntime num} :
  (forall (c : Monitor.cache num) (env : Monitor.esm_env num),
      Monitor.cached c (Monitor.esm_now env) = None ->
      (~ Monitor.esm_queries_throw env ->
       exists body,
         Monitor.esm_system_info c env
         = (Monitor.Json200 body,
            {| Monitor.systemInfoCache := Some body;
               Monitor.lastUpdate := Monitor.esm_now env |})
         /\ Monitor.error body = None
         /\ Monitor.timestamp body = Monitor.esm_now env)
      /\ (Monitor.esm_queries_throw env ->
          Monitor.esm_system_info c env
          = (Monitor.Json200
               {| Monitor.ipAddress :=
                    Monitor.esm_getLocalIP (Monitor.esm_fb_networkInterfaces env);
                  Monitor.cpuUsage := mul (Monitor.esm_random_cpu env) (lit 100);
                  Monitor.memoryUsage :=
                    add (lit 35) (mul (Monitor.esm_random_mem env) (lit 20));
                  Monitor.diskUsage :=
                    add (lit 42) (mul (Monitor.esm_random_disk env) (lit 10));
                  Monitor.temperature :=
                    add (lit 45) (mul (Monitor.esm_random_fb_temp env) (lit 15));
                  Monitor.uptime := "0d 0h 0m";
                  Monitor.timestamp := Monitor.esm_now env;
                  Monitor.error := Some "Could not fetch real system data" |},
             c)))
  /\ (forall (c : Monitor.cache num) (env : Monitor.cjs_env num),
      Monitor.cached c (Monitor.cjs_now env) = None ->
      (~ Monitor.cjs_queries_throw env ->
       exists body,
         Monitor.cjs_system_info c env
         = (Monitor.Json200 body,
            {| Monitor.systemInfoCache := Some body;
               Monitor.lastUpdate := Monitor.cjs_now env |})
         /\ Monitor.error body = None
         /\ Monitor.timestamp body = Monitor.cjs_now env)
      /\ (forall seconds,
            Monitor.cjs_queries_throw env ->
            Monitor.cjs_fb_uptime env = Normal seconds ->
            let simulated :=
              {| Monitor.ipAddress :=
                   Monitor.cjs_getLocalIP (Monitor.cjs_fb_networkInterfaces env);
                 Monitor.cpuUsage :=
                   Monitor.round1 (add (mul (Monitor.cjs_random_cpu env) (lit 50)) (lit 10));
                 Monitor.memoryUsage :=
                   Monitor.round1 (add (lit 35) (mul (Monitor.cjs_random_mem env) (lit 20)));
                 Monitor.diskUsage :=
                   Monitor.round1 (add (lit 42) (mul (Monitor.cjs_random_disk env) (lit 10)));
                 Monitor.temperature :=
                   Monitor.round1
                     (add (lit 45) (mul (Monitor.cjs_random_fb_temp env) (lit 15)));
                 Monitor.uptime := Monitor.formatUptime seconds;
                 Monitor.timestamp := Monitor.cjs_now env;
                 Monitor.error :=
                   Some "Using simulated data - some system metrics unavailable" |} in
            Monitor.cjs_system_info c env
            = (Monitor.Json200 simulated,
               {| Monitor.systemInfoCache := Some simulated;
                  Monitor.lastUpdate := Monitor.cjs_now env |}))).
Proof.
  split; intros c env Hmiss; split.
  - intros Hok. unfold Monitor.esm_system_info, Monitor.esm_getSystemInfo.
    rewrite Hmiss. unfold Monitor.esm_settle.
    destruct (Monitor.esm_fresh env) as [p|e] eqn:Hfresh.
    + exists p. split; [reflexivity|]. split.
      * apply (esm_fresh_has_no_error env), Hfresh.
      * apply esm_fresh_timestamp, Hfresh.
    + exfalso. apply Hok, esm_fresh_throws. eauto.
  - intros Hthrow. apply esm_fresh_throws in Hthrow. destruct Hthrow as (e & He).
    unfold Monitor.esm_system_info, Monitor.esm_getSystemInfo.
    rewrite Hmiss. unfold Monitor.esm_settle. rewrite He. reflexivity.
  - intros Hok. unfold Monitor.cjs_system_info, Monitor.cjs_getSystemInfo.
    rewrite Hmiss. unfold Monitor.cjs_settle.
    destruct (Monitor.cjs_fresh env) as [p|e] eqn:Hfresh.
    + exists p. split; [reflexivity|]. split.
      * apply (cjs_fresh_has_no_error env), Hfresh.
      * apply cjs_fresh_timestamp, Hfresh.
    + exfalso. apply Hok, cjs_fresh_throws. eauto.
  - intros seconds Hthrow Hup simulated.
    apply cjs_fresh_throws in Hthrow. destruct Hthrow as (e & He).
    unfold Monitor.cjs_system_info, Monitor.cjs_getSystemInfo.
    rewrite Hmiss. unfold Monitor.cjs_settle.
    rewrite He, (cjs_fallback_built env seconds Hup). reflexivity.
Qed.

Lemma failed_queries_answer_simulated_values_witness :
  Monitor.cjs_queries_throw (Sample.cjs_host 1000 false)
  /\ exists body,
      fst (Monitor.cjs_system_info Monitor.initial_cache (Sample.cjs_host 1000 false))
      = Monitor.Json200 body
      /\ Monitor.error body = Some "Using simulated data - some system metrics unavailable"
      /\ Monitor.uptime body = "1d 2h 3m".
Proof.
  assert (Hthrow : Monitor.cjs_queries_throw (Sample.cjs_host 1000 false))
    by (left; exists "EIO"; reflexivity).
  split; [exact Hthrow|].
  destruct (proj2 (failed_queries_answer_simulated_values (num := Q))
              Monitor.initial_cache (Sample.cjs_host 1000 false) eq_refl) as [_ Hsim].
  rewrite (Hsim (93784 # 1) Hthrow eq_refl). cbn [fst].
  eexists. split; [reflexivity|]. split; [reflexivity|]. vm_compute. reflexivity.
Defined.

(** ** The address the monitors report *)

Lemma find_first {A} (test : A -> bool) (before : list A) (chosen : A) (after : list A) :
  (forall y, In y before -> test y = false) -> test chosen = true ->
  find test (before ++ chosen :: after) = Some chosen.
Proof.
  intros Hbefore Hchosen. induction before as [|a rest IH]; cbn [app find].
  - rewrite Hchosen. reflexivity.
  - rewrite (Hbefore a (or_introl eq_refl)). apply IH. intros y Hy. apply Hbefore. right. exact Hy.
Qed.

Lemma find_none_all {A} (test : A -> bool) (l : list A) :
  (forall y, In y l -> test y = false) -> find test l = None.
Proof.
  intros Hall. induction l as [|a rest IH]; [reflexivity|]. cbn [find].
  rewrite (Hall a (or_introl eq_refl)). apply IH. intros y Hy. apply Hall. right. exact Hy.
Qed.

(** X18. [getLocalIP] answers 127.0.0.1 when the interface query throws
    and when no interface qualifies; when one qualifies, it answers the
    address of the first such interface in list order, whatever comes
    after it.  An interface qualifies in the ES-module monitor when it
    is not internal, has a non-empty [ip4] and [operstate] "up"; an
    address qualifies in the CommonJS monitor, which goes through the
    interface names in order, when its family is "IPv4" and it is not
    internal. *)
Theorem getLocalIP_is_loopback_or_an_outside_address :
  (forall e, Monitor.esm_getLocalIP (Throw e) = "127.0.0.1"
             /\ Monitor.cjs_getLocalIP (Throw e) = "127.0.0.1")
  /\ (forall ifaces,
        (forall i, In i ifaces ->
           Monitor.iface_internal i = true \/ Monitor.ip4 i = ""
           \/ Monitor.operstate i <> "up") ->
        Monitor.esm_getLocalIP (Normal ifaces) = "127.0.0.1")
  /\ (forall before chosen after,
        (forall i, In i before ->
           Monitor.iface_internal i = true \/ Monitor.ip4 i = ""
           \/ Monitor.operstate i <> "up") ->
        Monitor.iface_internal chosen = false ->
        Monitor.ip4 chosen <> "" ->
        Monitor.operstate chosen = "up" ->
        Monitor.esm_getLocalIP (Normal (before ++ chosen :: after)) = Monitor.ip4 chosen)
  /\ (forall by_name,
        (forall n, In n (concat (map snd by_name)) ->
           Monitor.family n <> "IPv4" \/ Monitor.net_internal n = true) ->
        Monitor.cjs_getLocalIP (Normal by_name) = "127.0.0.1")
  /\ (forall by_name before chosen after,
        concat (map snd by_name) = before ++ chosen :: after ->
        (forall n, In n before ->
           Monitor.family n <> "IPv4" \/ Monitor.net_internal n = true) ->
        Monitor.family chosen = "IPv4" ->
        Monitor.net_internal chosen = false ->
        Monitor.cjs_getLocalIP (Normal by_name) = Monitor.address chosen).
Proof.
  assert (Hesm : forall i,
             Monitor.iface_internal i = true \/ Monitor.ip4 i = ""
             \/ Monitor.operstate i <> "up" ->
             negb (Monitor.iface_internal i) && negb (String.eqb (Monitor.ip4 i) "")
             && String.eqb (Monitor.operstate i) "up" = false).
  { intros i [-> | [-> | Hdown]]; [reflexivity| |].
    - destruct (Monitor.iface_internal i); reflexivity.
    - apply String.eqb_neq in Hdown. rewrite Hdown. apply andb_false_r. }
  assert (Hcjs : forall n,
             Monitor.family n <> "IPv4" \/ Monitor.net_internal n = true ->
             String.eqb (Monitor.family n) "IPv4" && negb (Monitor.net_internal n) = false).
  { intros n [Hfam | ->]; [|apply andb_false_r].
    apply String.eqb_neq in Hfam. rewrite Hfam. reflexivity. }
  split; [|split; [|split; [|split]]].
  - intros e. split; reflexivity.
  - intros ifaces Hnone. unfold Monitor.esm_getLocalIP.
    rewrite find_none_all; [reflexivity|]. intros i Hi. apply Hesm, Hnone, Hi.
  - intros before chosen after Hbefore Hint Hip Hup. unfold Monitor.esm_getLocalIP.
    rewrite (find_first _ before chosen after); [reflexivity| |].
    + intros i Hi. apply Hesm, Hbefore, Hi.
    + rewrite Hint, Hup. apply String.eqb_neq in Hip. rewrite Hip. reflexivity.
  - intros by_name Hnone. unfold Monitor.cjs_getLocalIP.
    rewrite find_none_all; [reflexivity|]. intros n Hn. apply Hcjs, Hnone, Hn.
  - intros by_name before chosen after Hsplit Hbefore Hfam Hint.
    unfold Monitor.cjs_getLocalIP. rewrite Hsplit.
    rewrite (find_first _ before chosen after); [reflexivity| |].
    + intros n Hn. apply Hcjs, Hbefore, Hn.
    + rewrite Hfam, Hint. reflexivity.
Qed.

Lemma getLocalIP_is_loopback_or_an_outside_address_witness :
  Monitor.cjs_getLocalIP (Monitor.cjs_networkInterfaces (Sample.cjs_host 1000 true))
  = "192.168.1.20".
Proof.
  destruct getLocalIP_is_loopback_or_an_outside_address as (_ & _ & _ & _ & Hfirst).
  match goal with
  | |- Monitor.cjs_getLocalIP ?query = _ =>
      let q := eval vm_compute in query in
      match q with
      | Normal ?by_name =>
          change query with (Normal by_name);
          let flat := eval vm_compute in (concat (map snd by_name)) in
          match flat with
          | ?a :: ?b :: ?chosen :: ?after =>
              rewrite (Hfirst by_name [a; b] chosen after); [reflexivity|reflexivity| | |]
          end
      end
  end.
  - intros n [<-|[<-|[]]]; [right|left]; [reflexivity|discriminate].
  - reflexivity.
  - reflexivity.
Defined.

(** ** Restart *)

(** X19. History survives a restart.  If the messages file holds what
    the last write of a run gave it, and that text parses back to the
    value written, the server that starts from the file has the list the
    old one ended with, and no clients (hub and relay). *)
Theorem restart_restores_the_list
        (JSON_parse : string -> option jsval) (JSON_stringify : jsval -> string)
        (on_message : jsval -> list client -> string -> string -> outcome)
        (s : server) (es : list event) (written : jsval) :
  on_message = hub_on_message JSON_parse \/ on_message = relay_on_message JSON_parse ->
  last_saved (snd (run on_message s es)) = Some written ->
  JSON_parse (JSON_stringify written) = Some written ->
  startup JSON_parse (Some (JSON_stringify written))
  = {| srv_messages := srv_messages (fst (run on_message s es));
       srv_clients := [];
       srv_alive := true |}.
Proof.
  intros Hwhich Hlast Hback.
  assert (Hkeeps : keeps_a_prefix on_message)
    by (destruct Hwhich as [-> | ->]; [apply hub_keeps_a_prefix | apply relay_keeps_a_prefix]).
  pose proof (run_last_saved on_message Hkeeps es s) as Hsaved. rewrite Hlast in Hsaved.
  unfold startup, load_messages. rewrite Hback, Hsaved. reflexivity.
Qed.

Lemma restart_restores_the_list_witness :
  startup Sample.history_parse (Some "H")
  = {| srv_messages :=
         srv_messages
           (fst (run (hub_on_message Sample.history_parse) (empty_server Sample.two_clients)
                     [Frame 1 Sample.iso Sample.clear_text;
                      Connect 7;
                      Frame 1 Sample.iso Sample.message_text]));
       srv_clients := [];
       srv_alive := true |}
  /\ srv_messages (startup Sample.history_parse (Some "H"))
     = JArr [JObj [("id", JStr "1"); ("text", JStr "hi"); ("timestamp", JStr Sample.iso)]].
Proof.
  split; [|reflexivity].
  apply (restart_restores_the_list Sample.history_parse Sample.history_text
           (hub_on_message Sample.history_parse) (empty_server Sample.two_clients)
           [Frame 1 Sample.iso Sample.clear_text; Connect 7;
            Frame 1 Sample.iso Sample.message_text]
           (JArr [JObj [("id", JStr "1"); ("text", JStr "hi");
                        ("timestamp", JStr Sample.iso)]])).
  - left. reflexivity.
  - vm_compute. reflexivity.
  - reflexivity.
Defined.
